(** * e2b-mcp-server: the sandboxed execution gateway

    A shallow embedding of [security.ts] (the input validator and the
    output sanitizer), [sandbox-manager.ts] (the sandbox pool) and
    [tools.ts] (the per-tool pipeline), followed by the properties proved
    about them.

    JavaScript strings are sequences of UTF-16 code units, so a string is
    a [list N]; the regular expressions of the source are written as
    syntax trees and run by a backtracking matcher that follows the
    continuation semantics of ECMAScript. *)

From Stdlib Require Import List NArith ZArith Bool Arith Lia String Ascii.
From Stdlib Require Import Numbers.DecimalString.
Import ListNotations.

Set Implicit Arguments.

(* ===================================================================== *)
(** ** JavaScript strings *)
(* ===================================================================== *)

Module JS.

(** A string: its UTF-16 code units. *)
Definition jsstring := list N.

(** An ASCII literal of the source, as code units. *)
Definition js (s : string) : jsstring :=
  map N_of_ascii (list_ascii_of_string s).

(** The double quote, written by its code so that no literal holds one. *)
Definition dq : jsstring := [34%N].
Definition nl : jsstring := [10%N].

Definition cu_eqb (a b : N) : bool := N.eqb a b.

Fixpoint jseqb (a b : jsstring) : bool :=
  match a, b with
  | [], [] => true
  | x :: a', y :: b' => cu_eqb x y && jseqb a' b'
  | _, _ => false
  end.

(** [s.startsWith(p)] *)
Fixpoint startsWith (p s : jsstring) : bool :=
  match p with
  | [] => true
  | x :: p' =>
      match s with
      | [] => false
      | y :: s' => cu_eqb x y && startsWith p' s'
      end
  end.

(** [s.includes(p)] *)
Fixpoint includes (p s : jsstring) : bool :=
  startsWith p s ||
  match s with
  | [] => false
  | _ :: s' => includes p s'
  end.

(** WhiteSpace and LineTerminator of ECMAScript: what [trim] removes and
    what [\s] matches. *)
Definition whitespace_ranges : list (N * N) :=
  [ (9, 13); (32, 32); (160, 160); (5760, 5760); (8192, 8202);
    (8232, 8233); (8239, 8239); (8287, 8287); (12288, 12288);
    (65279, 65279) ]%N.

Definition in_range (c : N) (r : N * N) : bool :=
  (fst r <=? c)%N && (c <=? snd r)%N.

Definition in_ranges (rs : list (N * N)) (c : N) : bool :=
  existsb (in_range c) rs.

Definition isWhiteSpace (c : N) : bool := in_ranges whitespace_ranges c.

Fixpoint trimStart (s : jsstring) : jsstring :=
  match s with
  | [] => []
  | c :: s' => if isWhiteSpace c then trimStart s' else s
  end.

(** [s.trim()] *)
Definition trim (s : jsstring) : jsstring :=
  rev (trimStart (rev (trimStart s))).

(** Truthiness of a string: the empty string is falsy. *)
Definition truthy (s : jsstring) : bool :=
  match s with [] => false | _ => true end.

(** [s.substring(0, n)] for [0 <= n]. *)
Definition substring0 (n : nat) (s : jsstring) : jsstring := firstn n s.

(** [a.join(sep)] *)
Fixpoint join (sep : jsstring) (l : list jsstring) : jsstring :=
  match l with
  | [] => []
  | [x] => x
  | x :: rest => x ++ sep ++ join sep rest
  end.

(** [String(n)] for an integer [n]. *)
Definition Z_toString (z : Z) : jsstring :=
  js (NilEmpty.string_of_int (Z.to_int z)).

Definition N_toString (n : N) : jsstring := Z_toString (Z.of_N n).
Definition nat_toString (n : nat) : jsstring := Z_toString (Z.of_nat n).

(** [s.length] *)
Definition jslength (s : jsstring) : N := N.of_nat (List.length s).

(** [Buffer.byteLength(s, 'utf8')]: one byte below U+0080, two below
    U+0800, four for a surrogate pair, three for the rest (an unpaired
    surrogate is encoded as U+FFFD, three bytes). *)
Definition isHighSurrogate (c : N) : bool := (55296 <=? c)%N && (c <=? 56319)%N.
Definition isLowSurrogate (c : N) : bool := (56320 <=? c)%N && (c <=? 57343)%N.

Fixpoint byteLength (s : jsstring) : N :=
  match s with
  | [] => 0
  | c :: s' =>
      if (c <? 128)%N then 1 + byteLength s'
      else if (c <? 2048)%N then 2 + byteLength s'
      else if isHighSurrogate c then
        match s' with
        | d :: s'' => if isLowSurrogate d then 4 + byteLength s''
                      else 3 + byteLength s'
        | [] => 3
        end
      else 3 + byteLength s'
  end%N.

End JS.

Import JS.

(* ===================================================================== *)
(** ** Regular expressions *)
(* ===================================================================== *)

Module Regex.

(** The syntax the patterns of [security.ts] need.  A quantifier is only
    ever applied to a single-character atom there, so [Star] takes the
    atom's class; [x+] is [x x*], [x{n}] is [n] copies, [x?] is
    [Alt x Empty]. *)
Inductive regex : Type :=
| Empty  : regex
| Chars  : bool -> list (N * N) -> regex    (* negated?, ranges *)
| Seq    : regex -> regex -> regex
| Alt    : regex -> regex -> regex
| Star   : bool -> list (N * N) -> regex    (* greedy, on one class *)
| NotAhead : regex -> regex                 (* (?!r) *)
| Bol    : regex                            (* ^ *)
| Eol    : regex.                           (* $ *)

(** Canonicalize of the [i] flag.  Every literal and class member of the
    source's patterns is ASCII or white space, and no code unit outside
    ASCII canonicalizes to one of those, so folding the ASCII letters is
    all the flag does to these patterns. *)
Definition toUpper (c : N) : N :=
  if (97 <=? c)%N && (c <=? 122)%N then (c - 32)%N else c.
Definition toLower (c : N) : N :=
  if (65 <=? c)%N && (c <=? 90)%N then (c + 32)%N else c.

Definition cmem (ic neg : bool) (rs : list (N * N)) (c : N) : bool :=
  let hit := in_ranges rs c
             || (ic && (in_ranges rs (toUpper c) || in_ranges rs (toLower c))) in
  if neg then negb hit else hit.

(** The greedy star of a class [p]: as many characters as the rest of
    the pattern, the continuation [k], allows, the most first. *)
Fixpoint star (p : N -> bool) (k : nat -> jsstring -> option nat)
    (n : nat) (s : jsstring) {struct s} : option nat :=
  match s with
  | c :: s' =>
      if p c then
        match star p k (S n) s' with
        | Some e => Some e
        | None => k n s
        end
      else k n s
  | [] => k n s
  end.

(** The matcher.  [n] counts the code units consumed since the start of
    the attempt, [at0] says whether the attempt starts at index 0 of the
    input, [k] is the continuation; the result is the length of the
    match. *)
Fixpoint rx (ic at0 : bool) (r : regex) (k : nat -> jsstring -> option nat)
    (n : nat) (s : jsstring) {struct r} : option nat :=
  match r with
  | Empty => k n s
  | Chars neg rs =>
      match s with
      | c :: s' => if cmem ic neg rs c then k (S n) s' else None
      | [] => None
      end
  | Seq r1 r2 => rx ic at0 r1 (rx ic at0 r2 k) n s
  | Alt r1 r2 =>
      match rx ic at0 r1 k n s with
      | Some e => Some e
      | None => rx ic at0 r2 k n s
      end
  | Star neg rs => star (cmem ic neg rs) k n s
  | NotAhead r1 =>
      match rx ic at0 r1 (fun e _ => Some e) n s with
      | Some _ => None
      | None => k n s
      end
  | Bol => if at0 && Nat.eqb n 0 then k n s else None
  | Eol => match s with [] => k n s | _ :: _ => None end
  end.

(** A match attempt at the head of [s]: the length of the match. *)
Definition match_at (ic at0 : bool) (r : regex) (s : jsstring) : option nat :=
  rx ic at0 r (fun e _ => Some e) 0 s.

(** The first match at or after the head of [s]: its offset and length. *)
Fixpoint search (ic at0 : bool) (r : regex) (s : jsstring) : option (nat * nat) :=
  match match_at ic at0 r s with
  | Some len => Some (0, len)
  | None =>
      match s with
      | [] => None
      | _ :: s' =>
          match search ic false r s' with
          | Some (off, len) => Some (S off, len)
          | None => None
          end
      end
  end.

(** [r.test(s)] for a regular expression whose [lastIndex] is 0: every
    literal created by the call that uses it. *)
Definition test (ic : bool) (r : regex) (s : jsstring) : bool :=
  match search ic true r s with Some _ => true | None => false end.

(** [r.test(s)] for a regular expression with the [g] flag that outlives
    the call: the search starts at [lastIndex], and the new [lastIndex] is
    the end of the match, or 0 when there is none. *)
Definition test_g (ic : bool) (r : regex) (lastIndex : nat) (s : jsstring)
  : bool * nat :=
  if List.length s <? lastIndex then (false, 0)
  else
    match search ic (Nat.eqb lastIndex 0) r (skipn lastIndex s) with
    | Some (off, len) => (true, lastIndex + off + len)
    | None => (false, 0)
    end.

(** [s.replace(r, repl)] for [r] with the [g] flag and a replacement free
    of [$]: every match, found from left to right, becomes [repl]; after
    an empty match the scan moves on by one code unit.  [skip] counts the
    code units of the current match still to be dropped. *)
Fixpoint replace_from (ic at0 : bool) (r : regex) (repl : jsstring)
    (skip : nat) (s : jsstring) : jsstring :=
  match skip with
  | S skip' =>
      match s with
      | [] => []
      | _ :: s' => replace_from ic false r repl skip' s'
      end
  | O =>
      match match_at ic at0 r s with
      | Some (S len) =>
          repl ++
          match s with
          | [] => []
          | _ :: s' => replace_from ic false r repl len s'
          end
      | Some O =>
          repl ++
          match s with
          | [] => []
          | c :: s' => c :: replace_from ic false r repl 0 s'
          end
      | None =>
          match s with
          | [] => []
          | c :: s' => c :: replace_from ic false r repl 0 s'
          end
      end
  end.

Definition replace_g (ic : bool) (r : regex) (repl : jsstring) (s : jsstring)
  : jsstring :=
  replace_from ic true r repl 0 s.

(** *** Building patterns *)

Definition chr (a : ascii) : regex :=
  Chars false [(N_of_ascii a, N_of_ascii a)].

Fixpoint seqs (l : list regex) : regex :=
  match l with
  | [] => Empty
  | [r] => r
  | r :: l' => Seq r (seqs l')
  end.

(** A literal run of characters. *)
Definition lit (s : string) : regex :=
  seqs (map chr (list_ascii_of_string s)).

(** [x{n}] *)
Fixpoint rep (n : nat) (r : regex) : regex :=
  match n with
  | O => Empty
  | S O => r
  | S n' => Seq r (rep n' r)
  end.

(** [x?] *)
Definition opt (r : regex) : regex := Alt r Empty.

Definition alnum : list (N * N) := [(97, 122); (65, 90); (48, 57)]%N.
Definition quotes : list (N * N) := [(34, 34); (39, 39)]%N.
Definition colon_eq : list (N * N) := [(58, 58); (61, 61)]%N.

(** [\s], [\s*], [\s+] *)
Definition ws : regex := Chars false whitespace_ranges.
Definition ws_star : regex := Star false whitespace_ranges.
Definition ws_plus : regex := Seq ws ws_star.

End Regex.

Import Regex.

(* ===================================================================== *)
(** ** security.ts: the input validator and the output sanitizer *)
(* ===================================================================== *)

Inductive Language : Type := python | javascript.

Definition Language_eqb (a b : Language) : bool :=
  match a, b with
  | python, python | javascript, javascript => true
  | _, _ => false
  end.

Definition Language_toString (l : Language) : jsstring :=
  match l with python => js "python" | javascript => js "javascript" end.

(** [{ isValid: boolean; reason?: string }] *)
Record Verdict : Type := mkVerdict {
  isValid : bool;
  reason : option jsstring
}.

Definition valid : Verdict := mkVerdict true None.
Definition invalid (why : jsstring) : Verdict := mkVerdict false (Some why).

(** What [logger.warn] is told by the validator. *)
Inductive Warning : Type :=
| DangerousPattern (pattern : regex)
| RestrictedImport (name : jsstring)
| DangerousNodeOp (op : jsstring)
| SecretInFile
| SuspiciousPackage (name : jsstring).

Module SecurityValidator.

Definition MAX_CODE_LENGTH : N := 50000.
Definition MAX_FILE_SIZE : N := 10 * 1024 * 1024.
Definition MAX_FILENAME_LENGTH : N := 255.

(** A keyword, [\s*=\s*], a quote, one or more characters that are not
    quotes, and a quote: the four secret patterns of [DANGEROUS_PATTERNS]. *)
Definition assigned (keyword : string) : regex :=
  seqs [ lit keyword; ws_star; chr "="; ws_star;
         Chars false quotes; Chars true quotes; Star true quotes;
         Chars false quotes ].

(** All with the flags [gi]. *)
Definition DANGEROUS_PATTERNS : list regex :=
  [ (* network operations *)
    seqs [lit "import"; ws_plus; lit "socket"];
    seqs [lit "from"; ws_plus; lit "socket"; ws_plus; lit "import"];
    lit "urllib.request";
    lit "requests.";
    lit "http.";
    lit "fetch(";
    lit "XMLHttpRequest";
    (* file system operations outside the sandbox *)
    lit "/etc/";
    lit "/root/";
    Seq (lit "/home/") (NotAhead (lit "user"));
    lit "/usr/bin";
    lit "/sys/";
    lit "/proc/";
    (* process operations *)
    lit "subprocess.";
    lit "os.system";
    lit "exec(";
    lit "eval(";
    lit "child_process";
    (* potential secrets *)
    assigned "password";
    assigned "api_key";
    assigned "secret";
    assigned "token" ].

(** The loop over [DANGEROUS_PATTERNS].  The patterns are static and carry
    the [g] flag, so each keeps its [lastIndex] from one call of [test] to
    the next: [st] holds them, in the order of the list. *)
Fixpoint scanDangerous (ps : list regex) (st : list nat) (code : jsstring)
  : list nat * list Warning :=
  match ps with
  | [] => ([], [])
  | p :: ps' =>
      let (hit, li) := test_g true p (hd 0 st) code in
      let (st', ws) := scanDangerous ps' (tl st) code in
      (li :: st', if hit then DangerousPattern p :: ws else ws)
  end.

Definition validatePythonCode (code : jsstring) : Verdict * list Warning :=
  let restrictedImports := [js "__import__"; js "importlib"; js "reload"] in
  (valid,
   map RestrictedImport (filter (fun r => includes r code) restrictedImports)).

Definition validateJavaScriptCode (code : jsstring) : Verdict * list Warning :=
  let dangerousNodeOps :=
    [ js "require(" ++ dq ++ js "fs" ++ dq ++ js ")";
      js "require(" ++ dq ++ js "child_process" ++ dq ++ js ")";
      js "require(" ++ dq ++ js "os" ++ dq ++ js ")";
      js "require(" ++ dq ++ js "cluster" ++ dq ++ js ")";
      js "process.exit";
      js "process.kill" ] in
  (valid,
   map DangerousNodeOp (filter (fun d => includes d code) dangerousNodeOps)).

(** [validateCode]: the verdict, the [lastIndex] of the static patterns
    after the call, and the warnings logged. *)
Definition validateCode (st : list nat) (code : jsstring) (language : Language)
  : Verdict * list nat * list Warning :=
  if (MAX_CODE_LENGTH <? jslength code)%N then
    (invalid (js "Code exceeds maximum length of "
              ++ N_toString MAX_CODE_LENGTH ++ js " characters"), st, [])
  else if negb (truthy (trim code)) then
    (invalid (js "Code cannot be empty"), st, [])
  else
    let (st', ws) := scanDangerous DANGEROUS_PATTERNS st code in
    let (v, ws') :=
      match language with
      | python => validatePythonCode code
      | javascript => validateJavaScriptCode code
      end in
    (v, st', ws ++ ws').

Definition dangerousPaths : list jsstring :=
  [js "/etc"; js "/root"; js "/usr"; js "/sys"; js "/proc"; js "/dev"].

Definition validateFilePath (path : jsstring) : Verdict :=
  if (MAX_FILENAME_LENGTH <? jslength path)%N then
    invalid (js "File path exceeds maximum length of "
             ++ N_toString MAX_FILENAME_LENGTH ++ js " characters")
  else if negb (truthy (trim path)) then
    invalid (js "File path cannot be empty")
  else if includes (js "..") path then
    invalid (js "Directory traversal not allowed in file paths")
  else
    match find (fun dangerous => startsWith dangerous path) dangerousPaths with
    | Some dangerous =>
        invalid (js "Access to system directory " ++ dangerous
                 ++ js " is not allowed")
    | None =>
        if includes [0%N] path then
          invalid (js "Null bytes not allowed in file paths")
        else valid
    end.

Definition base64 : list (N * N) := alnum ++ [(43, 43); (47, 47)]%N.

(** The patterns of [validateFileContent], made anew by every call: the
    flag [i] of each, and the pattern. *)
Definition secretPatterns : list (bool * regex) :=
  [ (true, seqs [ lit "-----BEGIN"; ws_plus; opt (Seq (lit "RSA") ws_plus);
                  lit "PRIVATE"; ws_plus; lit "KEY-----" ]);
    (false, seqs [ rep 32 (Chars false base64); Star false base64;
                   opt (Seq (chr "=") (opt (chr "="))) ]);
    (false, Seq (lit "sk-") (rep 48 (Chars false alnum)));
    (false, Seq (lit "ghp_") (rep 36 (Chars false alnum))) ].

Definition validateFileContent (content : jsstring) : Verdict * list Warning :=
  let contentSize := byteLength content in
  if (MAX_FILE_SIZE <? contentSize)%N then
    (invalid (js "File content exceeds maximum size of "
              ++ N_toString MAX_FILE_SIZE ++ js " bytes"), [])
  else if existsb (fun p => test (fst p) (snd p) content) secretPatterns then
    (invalid (js "File content contains potential secrets"), [SecretInFile])
  else (valid, []).

Definition pyname : list (N * N) := alnum ++ [(46, 46); (95, 95); (45, 45)]%N.
Definition npm_first : list (N * N) := alnum ++ [(45, 45); (126, 126)]%N.
Definition npm_rest : list (N * N) :=
  alnum ++ [(45, 45); (46, 46); (95, 95); (126, 126)]%N.

(** [/^[a-zA-Z0-9][a-zA-Z0-9._-]*[a-zA-Z0-9]$|^[a-zA-Z0-9]$/] *)
Definition pythonPattern : regex :=
  Alt (seqs [Bol; Chars false alnum; Star false pyname; Chars false alnum; Eol])
      (seqs [Bol; Chars false alnum; Eol]).

(** [/^(@[a-zA-Z0-9-~][a-zA-Z0-9-._~]*\/)?[a-zA-Z0-9-~][a-zA-Z0-9-._~]*$/] *)
Definition npmPattern : regex :=
  seqs [ Bol;
         opt (seqs [chr "@"; Chars false npm_first; Star false npm_rest; chr "/"]);
         Chars false npm_first; Star false npm_rest; Eol ].

Definition suspiciousPatterns : list regex :=
  [lit "malware"; lit "backdoor"; lit "virus"; lit "trojan"].

Definition validatePackageName (packageName : jsstring) (language : Language)
  : Verdict * list Warning :=
  if negb (truthy packageName) || negb (truthy (trim packageName)) then
    (invalid (js "Package name cannot be empty"), [])
  else if (100 <? jslength packageName)%N then
    (invalid (js "Package name too long"), [])
  else if match language with
          | python => negb (test false pythonPattern packageName)
          | javascript => negb (test false npmPattern packageName)
          end then
    (invalid (match language with
              | python => js "Invalid Python package name: "
              | javascript => js "Invalid npm package name: "
              end ++ packageName), [])
  else if existsb (fun p => test true p packageName) suspiciousPatterns then
    (invalid (js "Package name appears suspicious: " ++ packageName),
     [SuspiciousPackage packageName])
  else (valid, []).

(** The loop of [validatePackages]: the first name that fails stops it. *)
Fixpoint validateEach (packages : list jsstring) (language : Language)
  : Verdict * list Warning :=
  match packages with
  | [] => (valid, [])
  | pkg :: rest =>
      let (validation, ws) := validatePackageName pkg language in
      if isValid validation then validateEach rest language
      else (validation, ws)
  end.

Definition validatePackages (packages : list jsstring) (language : Language)
  : Verdict * list Warning :=
  match packages with
  | [] => (invalid (js "Package list cannot be empty"), [])
  | _ =>
      if 50 <? List.length packages then
        (invalid (js "Too many packages requested (maximum 50)"), [])
      else validateEach packages language
  end.

(** [/\x1b\[[0-9;]*[a-zA-Z]/g] *)
Definition ansiEscapePattern : regex :=
  seqs [ Chars false [(27, 27)%N]; chr "[";
         Star false [(48, 57); (59, 59)]%N;
         Chars false [(97, 122); (65, 90)]%N ].

(** A keyword, [\s*[:=]\s*], a quote, one or more characters that are
    not quotes, and a quote. *)
Definition labelled (keyword : string) : regex :=
  seqs [ lit keyword; ws_star; Chars false colon_eq; ws_star;
         Chars false quotes; Chars true quotes; Star true quotes;
         Chars false quotes ].

Definition hidden (keyword : string) : jsstring :=
  js keyword ++ js ": " ++ dq ++ js "***HIDDEN***" ++ dq.

(** The masking rules of [sanitizeOutput]: the flag [i], the pattern and
    the replacement of each. *)
Definition maskPatterns : list (bool * regex * jsstring) :=
  [ (false, Seq (lit "sk-") (rep 48 (Chars false alnum)), js "sk-***HIDDEN***");
    (false, Seq (lit "ghp_") (rep 36 (Chars false alnum)), js "ghp_***HIDDEN***");
    (true, labelled "password", hidden "password");
    (true, labelled "api_key", hidden "api_key") ].

Definition sanitizeOutput (output : jsstring) : jsstring :=
  let sanitized := replace_g false ansiEscapePattern [] output in
  fold_left (fun sanitized p =>
               replace_g (fst (fst p)) (snd (fst p)) (snd p) sanitized)
            maskPatterns sanitized.

End SecurityValidator.

(* ===================================================================== *)
(** ** The world outside: the clock, the identifiers, the remote provider *)
(* ===================================================================== *)

(** types.ts *)
Definition EXECUTION_TIMEOUT : Z := 30000.
Definition SANDBOX_IDLE_TIMEOUT : Z := 300000.
Definition MAX_OUTPUT_LENGTH : N := 10000.

(** [interface SandboxManager]; [sandbox] is the reference of the remote
    session, dates are milliseconds since the epoch. *)
Record SandboxManager : Type := mkSandboxManager {
  id : jsstring;
  sandbox : nat;
  createdAt : Z;
  lastUsed : Z;
  language : Language
}.

(** What a [throw] carries: an instance of [Error] with its message, or
    any other value. *)
Inductive Thrown : Type :=
| ErrorObj (message : jsstring)
| NonError.

(** The result of [runCode], with the fields the tools read. *)
Record ExecutionError : Type := mkExecutionError {
  name : jsstring;
  value : jsstring;
  traceback : option jsstring
}.

Record Logs : Type := mkLogs {
  stdout : option (list jsstring);
  stderr : option (list jsstring)
}.

Record Execution : Type := mkExecution {
  logs : option Logs;
  results : option (list (option jsstring));   (* the [text] of each result *)
  error : option ExecutionError
}.

Record FileInfo : Type := mkFileInfo {
  file_name : jsstring;
  file_type : jsstring;
  file_size : option N
}.

(** The calls made to the remote provider. *)
Inductive RemoteCall : Type :=
| SandboxCreate
| SandboxKill (session : nat)
| RunCode (session : nat) (code : jsstring) (opts : option Language)
| FilesWrite (session : nat) (path content : jsstring)
| FilesRead (session : nat) (path : jsstring)
| FilesList (session : nat) (path : jsstring).

(** The environment: what the clock reads at its n-th reading, the n-th
    identifier [uuidv4] makes, how the provider answers a call given the
    calls made before it, and two built-ins of the runtime. *)
Record Env : Type := mkEnv {
  clock : nat -> Z;
  uuidv4 : nat -> jsstring;
  remote_create : list RemoteCall -> Thrown + nat;
  remote_kill : list RemoteCall -> nat -> option Thrown;
  remote_runCode : list RemoteCall -> nat -> jsstring -> option Language
                   -> Thrown + Execution;
  remote_write : list RemoteCall -> nat -> jsstring -> jsstring -> option Thrown;
  remote_read : list RemoteCall -> nat -> jsstring -> Thrown + jsstring;
  remote_list : list RemoteCall -> nat -> jsstring -> Thrown + list FileInfo;
  toISOString : Z -> jsstring;
  JSON_string : jsstring -> jsstring
}.

(** The state of the process: the registry of [SandboxService] (a [Map],
    so in insertion order), whether its interval timer runs, the
    [lastIndex] of the static patterns, and what was asked of the
    environment so far. *)
Record World : Type := mkWorld {
  sandboxes : list (jsstring * SandboxManager);
  cleanupInterval : bool;
  lastIndexes : list nat;
  clockReads : nat;
  uuidsMade : nat;
  calls : list RemoteCall
}.

Definition set_sandboxes (m : list (jsstring * SandboxManager)) (w : World) :=
  mkWorld m (cleanupInterval w) (lastIndexes w) (clockReads w) (uuidsMade w)
          (calls w).

(** *** The [Map] *)

Module Map.

Definition t := list (jsstring * SandboxManager).

Fixpoint get (key : jsstring) (m : t) : option SandboxManager :=
  match m with
  | [] => None
  | (k, v) :: m' => if jseqb k key then Some v else get key m'
  end.

(** [set] keeps the place of a key that is there and appends a new one. *)
Fixpoint set (key : jsstring) (v : SandboxManager) (m : t) : t :=
  match m with
  | [] => [(key, v)]
  | (k, v') :: m' =>
      if jseqb k key then (k, v) :: m' else (k, v') :: set key v m'
  end.

Definition delete (key : jsstring) (m : t) : t :=
  filter (fun kv => negb (jseqb (fst kv) key)) m.

Definition keys (m : t) : list jsstring := map fst m.
Definition values (m : t) : list SandboxManager := map snd m.

End Map.

(** *** Computations: a state that outlives a [throw] *)

Inductive Outcome (A : Type) : Type :=
| Returned (a : A)
| Threw (e : Thrown).
Arguments Returned {A} a.
Arguments Threw {A} e.

Definition M (A : Type) : Type := World -> Outcome A * World.

Definition ret {A} (a : A) : M A := fun w => (Returned a, w).
Definition throw {A} (e : Thrown) : M A := fun w => (Threw e, w).

Definition bind {A B} (c : M A) (f : A -> M B) : M B :=
  fun w =>
    match c w with
    | (Returned a, w') => f a w'
    | (Threw e, w') => (Threw e, w')
    end.

(** [try { c } catch (error) { h error }] *)
Definition try_catch {A} (c : M A) (h : Thrown -> M A) : M A :=
  fun w =>
    match c w with
    | (Returned a, w') => (Returned a, w')
    | (Threw e, w') => h e w'
    end.

Declare Scope eff_scope.
Delimit Scope eff_scope with eff.
Notation "x <- c ;; k" := (bind c (fun x => k))
  (at level 61, c at next level, right associativity) : eff_scope.
Notation "c ;;; k" := (bind c (fun _ => k))
  (at level 61, right associativity) : eff_scope.
Open Scope eff_scope.

Definition getWorld : M World := fun w => (Returned w, w).
Definition modifyRegistry (f : Map.t -> Map.t) : M unit :=
  fun w => (Returned tt, set_sandboxes (f (sandboxes w)) w).

(** [error instanceof Error ? error.message : fallback] *)
Definition messageOr (fallback : jsstring) (e : Thrown) : jsstring :=
  match e with
  | ErrorObj m => m
  | NonError => fallback
  end.

Section Environment.

Variable env : Env.

(** [new Date()] and [Date.now()] *)
Definition now : M Z :=
  fun w => (Returned (clock env (clockReads w)),
            mkWorld (sandboxes w) (cleanupInterval w) (lastIndexes w)
                    (S (clockReads w)) (uuidsMade w) (calls w)).

Definition uuid : M jsstring :=
  fun w => (Returned (uuidv4 env (uuidsMade w)),
            mkWorld (sandboxes w) (cleanupInterval w) (lastIndexes w)
                    (clockReads w) (S (uuidsMade w)) (calls w)).

Definition record (c : RemoteCall) (w : World) : World :=
  mkWorld (sandboxes w) (cleanupInterval w) (lastIndexes w)
          (clockReads w) (uuidsMade w) (calls w ++ [c]).

Definition of_sum {A} (r : Thrown + A) : Outcome A :=
  match r with inl e => Threw e | inr a => Returned a end.

Definition of_option (r : option Thrown) : Outcome unit :=
  match r with Some e => Threw e | None => Returned tt end.

(** [await Sandbox.create(...)] *)
Definition Sandbox_create : M nat :=
  fun w => (of_sum (remote_create env (calls w)), record SandboxCreate w).

(** [await sandbox.kill()] *)
Definition Sandbox_kill (s : nat) : M unit :=
  fun w => (of_option (remote_kill env (calls w) s), record (SandboxKill s) w).

(** [await sandbox.runCode(code, opts)] *)
Definition Sandbox_runCode (s : nat) (code : jsstring) (opts : option Language)
  : M Execution :=
  fun w => (of_sum (remote_runCode env (calls w) s code opts),
            record (RunCode s code opts) w).

Definition Sandbox_files_write (s : nat) (path content : jsstring) : M unit :=
  fun w => (of_option (remote_write env (calls w) s path content),
            record (FilesWrite s path content) w).

Definition Sandbox_files_read (s : nat) (path : jsstring) : M jsstring :=
  fun w => (of_sum (remote_read env (calls w) s path),
            record (FilesRead s path) w).

Definition Sandbox_files_list (s : nat) (path : jsstring) : M (list FileInfo) :=
  fun w => (of_sum (remote_list env (calls w) s path),
            record (FilesList s path) w).

End Environment.

(* ===================================================================== *)
(** ** sandbox-manager.ts: the sandbox pool *)
(* ===================================================================== *)

Module SandboxService.

Section WithEnv.

Variable env : Env.

Definition touch (t : Z) (m : SandboxManager) : SandboxManager :=
  mkSandboxManager (id m) (sandbox m) (createdAt m) t (language m).

(** [createSandbox]: whatever [Sandbox.create] throws is thrown again as
    an [Error] with the message of the source. *)
Definition createSandbox (lang : Language) : M jsstring :=
  try_catch
    (session <- Sandbox_create env ;;
     newId <- uuid env ;;
     created <- now env ;;
     used <- now env ;;
     let sandboxManager := mkSandboxManager newId session created used lang in
     modifyRegistry (Map.set newId sandboxManager) ;;;
     ret newId)
    (fun error =>
       throw (ErrorObj (js "Failed to create sandbox: "
                        ++ messageOr (js "Unknown error") error))).

(** [getSandbox]: the handle found is the object the registry holds, so
    the new [lastUsed] is written to the registry. *)
Definition getSandbox (sid : jsstring) : M (option SandboxManager) :=
  w <- getWorld ;;
  match Map.get sid (sandboxes w) with
  | Some found =>
      t <- now env ;;
      modifyRegistry (Map.set sid (touch t found)) ;;;
      ret (Some (touch t found))
  | None => ret None
  end.

(** The loop of [getOrCreateSandbox]: the first handle of the language,
    in the order of the registry, and the registry once that handle's
    [lastUsed] is set. *)
Definition firstOfLanguage (lang : Language) (m : Map.t)
  : option (jsstring * SandboxManager) :=
  find (fun kv => Language_eqb (language (snd kv)) lang) m.

Fixpoint touchFirst (lang : Language) (t : Z) (m : Map.t) : Map.t :=
  match m with
  | [] => []
  | (k, v) :: m' =>
      if Language_eqb (language v) lang then (k, touch t v) :: m'
      else (k, v) :: touchFirst lang t m'
  end.

(** The part of [getOrCreateSandbox] after the lookup by identifier. *)
Definition reuseOrCreate (lang : Language) : M SandboxManager :=
  w <- getWorld ;;
  match firstOfLanguage lang (sandboxes w) with
  | Some (_, found) =>
      t <- now env ;;
      modifyRegistry (touchFirst lang t) ;;;
      ret (touch t found)
  | None =>
      newId <- createSandbox lang ;;
      made <- getSandbox newId ;;
      match made with
      | Some m => ret m
      | None =>
          (* unreachable: [createSandbox] has just set [newId]; a caller
             reading a field of [undefined] would throw a TypeError *)
          throw (ErrorObj (js "Cannot read properties of undefined"))
      end
  end.

Definition getOrCreateSandbox (lang : Language) (sandboxId : option jsstring)
  : M SandboxManager :=
  match sandboxId with
  | Some sid =>
      if truthy sid then
        existing <- getSandbox sid ;;
        match existing with
        | Some found =>
            if Language_eqb (language found) lang then ret found
            else reuseOrCreate lang
        | None => reuseOrCreate lang
        end
      else reuseOrCreate lang
  | None => reuseOrCreate lang
  end.

(** [terminateSandbox]: the entry goes whether [kill] throws or not. *)
Definition terminateSandbox (sid : jsstring) : M unit :=
  w <- getWorld ;;
  match Map.get sid (sandboxes w) with
  | None => ret tt
  | Some sandboxManager =>
      try_catch
        (Sandbox_kill env (sandbox sandboxManager) ;;;
         modifyRegistry (Map.delete sid))
        (fun _ => modifyRegistry (Map.delete sid))
  end.

Fixpoint forEach {A} (l : list A) (f : A -> M unit) : M unit :=
  match l with
  | [] => ret tt
  | x :: l' => f x ;;; forEach l' f
  end.

Definition cleanupIdleSandboxes : M unit :=
  t <- now env ;;
  w <- getWorld ;;
  let idleSandboxes :=
    Map.keys (filter (fun kv => (SANDBOX_IDLE_TIMEOUT <? t - lastUsed (snd kv))%Z)
                     (sandboxes w)) in
  forEach idleSandboxes terminateSandbox.

Definition clearInterval : M unit :=
  fun w => (Returned tt,
            mkWorld (sandboxes w) false (lastIndexes w) (clockReads w)
                    (uuidsMade w) (calls w)).

(** [Promise.allSettled]: a rejected promise stops nothing. *)
Definition settled (c : M unit) : M unit := try_catch c (fun _ => ret tt).

(** [cleanup].  The terminations are started in the order of the keys
    and awaited together; each one reads the registry, asks the provider
    to kill the session and deletes its own entry, so run one after the
    other they leave the same registry and the same calls.  Other callers
    running between the awaits are not part of this model. *)
Definition cleanup : M unit :=
  clearInterval ;;;
  w <- getWorld ;;
  forEach (Map.keys (sandboxes w)) (fun sid => settled (terminateSandbox sid)) ;;;
  modifyRegistry (fun _ => []).

Record Summary : Type := mkSummary {
  summary_id : jsstring;
  summary_language : jsstring;
  summary_createdAt : Z;
  summary_lastUsed : Z
}.

Definition listSandboxes : M (list Summary) :=
  w <- getWorld ;;
  ret (map (fun sb => mkSummary (id sb) (Language_toString (language sb))
                                (createdAt sb) (lastUsed sb))
           (Map.values (sandboxes w))).

End WithEnv.

End SandboxService.

(* ===================================================================== *)
(** ** tools.ts: the tools *)
(* ===================================================================== *)

(** The arguments of a tool call; a field that is absent is [None]. *)
Record Args : Type := mkArgs {
  arg_code : option jsstring;
  arg_sandbox_id : option jsstring;
  arg_path : option jsstring;
  arg_content : option jsstring;
  arg_packages : option (list jsstring);
  arg_language : Language
}.

(** [CallToolResult]: the text of its one content item, and [isError]
    (absent reads as [false]). *)
Record CallToolResult : Type := mkResult {
  text : jsstring;
  isError : bool
}.

Module E2BTools.

Section WithEnv.

Variable env : Env.

Definition newError {A} (message : jsstring) : M A := throw (ErrorObj message).

(** [`${validation.reason}`] *)
Definition reasonText (v : Verdict) : jsstring :=
  match reason v with Some r => r | None => js "undefined" end.

(** [SecurityValidator.logSecurityEvent]: it stamps the event with
    [new Date()]; the logger itself is outside the model. *)
Definition logSecurityEvent : M unit := now env ;;; ret tt.

(** [SecurityValidator.validateCode] on the static patterns of the
    process. *)
Definition validateCode (code : jsstring) (lang : Language) : M Verdict :=
  fun w =>
    let '(v, st, _) := SecurityValidator.validateCode (lastIndexes w) code lang in
    (Returned v,
     mkWorld (sandboxes w) (cleanupInterval w) st (clockReads w) (uuidsMade w)
             (calls w)).

Definition linesOf (l : option (list jsstring)) : jsstring :=
  match l with
  | Some (x :: rest) => join nl (x :: rest) ++ nl
  | _ => []
  end.

Definition resultText (res : option jsstring) : jsstring :=
  match res with
  | Some t => if truthy t then t ++ nl else []
  | None => []
  end.

(** The block that [executePython], [executeJavaScript] and
    [installPackages] each repeat: the output collected from the logs,
    the results and the error of an execution, and [hasError]. *)
Definition collectOutput (result : Execution) : jsstring * bool :=
  let output := [] in
  let output :=
    match logs result with
    | Some l => output ++ linesOf (stdout l) ++ linesOf (stderr l)
    | None => output
    end in
  let output :=
    match results result with
    | Some rs => output ++ List.concat (map resultText rs)
    | None => output
    end in
  match error result with
  | Some err =>
      (output ++ js "Error: " ++ name err ++ js ": " ++ value err ++ nl
       ++ match traceback err with
          | Some tb => if truthy tb then tb ++ nl else []
          | None => []
          end,
       true)
  | None => (output, false)
  end.

(** Truncate output if too long. *)
Definition truncateOutput (output : jsstring) : jsstring :=
  if (MAX_OUTPUT_LENGTH <? jslength output)%N then
    substring0 (N.to_nat MAX_OUTPUT_LENGTH) output
    ++ nl ++ js "... (output truncated)"
  else output.

(** [output || '(no output)'] *)
Definition orNoOutput (output : jsstring) : jsstring :=
  if truthy output then output else js "(no output)".

Definition completedText (executionTime : Z) (sid output : jsstring) : jsstring :=
  js "Execution completed in " ++ Z_toString executionTime ++ js "ms" ++ nl
  ++ js "Sandbox ID: " ++ sid ++ nl ++ nl
  ++ js "Output:" ++ nl ++ orNoOutput output.

Definition failedText (executionTime : Z) (sid : jsstring) (e : Thrown) : jsstring :=
  js "Execution failed after " ++ Z_toString executionTime ++ js "ms" ++ nl
  ++ js "Sandbox ID: " ++ sid ++ nl ++ nl
  ++ js "Error: " ++ messageOr (js "Unknown error") e.

Definition executePython (args : Args) : M CallToolResult :=
  match arg_code args with
  | None | Some [] =>
      newError (js "Code parameter is required and must be a string")
  | Some code =>
      validation <- validateCode code python ;;
      if negb (isValid validation) then
        logSecurityEvent ;;;
        newError (js "Security validation failed: " ++ reasonText validation)
      else
        sb <- SandboxService.getOrCreateSandbox env python (arg_sandbox_id args) ;;
        startTime <- now env ;;
        try_catch
          (result <- Sandbox_runCode env (sandbox sb) code None ;;
           endTime <- now env ;;
           let executionTime := (endTime - startTime)%Z in
           let (output, hasError) := collectOutput result in
           let output := truncateOutput output in
           let output := SecurityValidator.sanitizeOutput output in
           ret (mkResult (completedText executionTime (id sb) output) hasError))
          (fun error =>
             endTime <- now env ;;
             let executionTime := (endTime - startTime)%Z in
             ret (mkResult (failedText executionTime (id sb) error) true))
  end.

Definition executeJavaScript (args : Args) : M CallToolResult :=
  match arg_code args with
  | None | Some [] =>
      newError (js "Code parameter is required and must be a string")
  | Some code =>
      validation <- validateCode code javascript ;;
      if negb (isValid validation) then
        logSecurityEvent ;;;
        newError (js "Security validation failed: " ++ reasonText validation)
      else
        sb <- SandboxService.getOrCreateSandbox env javascript
                (arg_sandbox_id args) ;;
        startTime <- now env ;;
        try_catch
          (result <- Sandbox_runCode env (sandbox sb) code (Some javascript) ;;
           endTime <- now env ;;
           let executionTime := (endTime - startTime)%Z in
           let (output, hasError) := collectOutput result in
           let output := truncateOutput output in
           ret (mkResult (completedText executionTime (id sb) output) hasError))
          (fun error =>
             endTime <- now env ;;
             let executionTime := (endTime - startTime)%Z in
             ret (mkResult (failedText executionTime (id sb) error) true))
  end.

Definition createFile (args : Args) : M CallToolResult :=
  match arg_path args, arg_content args with
  | Some (c :: p), Some content =>
      let path := c :: p in
      let pathValidation := SecurityValidator.validateFilePath path in
      if negb (isValid pathValidation) then
        logSecurityEvent ;;;
        newError (js "Path validation failed: " ++ reasonText pathValidation)
      else
        let contentValidation :=
          fst (SecurityValidator.validateFileContent content) in
        if negb (isValid contentValidation) then
          logSecurityEvent ;;;
          newError (js "Content validation failed: "
                    ++ reasonText contentValidation)
        else
          sb <- SandboxService.getOrCreateSandbox env python
                  (arg_sandbox_id args) ;;
          try_catch
            (Sandbox_files_write env (sandbox sb) path content ;;;
             ret (mkResult
                    (js "File created successfully: " ++ path ++ nl
                     ++ js "Sandbox ID: " ++ id sb ++ nl
                     ++ js "Content length: " ++ N_toString (jslength content)
                     ++ js " bytes")
                    false))
            (fun error => throw error)
  | _, _ => newError (js "Path and content parameters are required")
  end.

Definition readFile (args : Args) : M CallToolResult :=
  match arg_path args with
  | Some (c :: p) =>
      let path := c :: p in
      sb <- SandboxService.getOrCreateSandbox env python (arg_sandbox_id args) ;;
      try_catch
        (content <- Sandbox_files_read env (sandbox sb) path ;;
         ret (mkResult
                (js "File: " ++ path ++ nl
                 ++ js "Sandbox ID: " ++ id sb ++ nl
                 ++ js "Content length: " ++ N_toString (jslength content)
                 ++ js " bytes" ++ nl ++ nl ++ content)
                false))
        (fun error => throw error)
  | _ => newError (js "Path parameter is required")
  end.

(** U+1F4C1 and U+1F4C4, as surrogate pairs. *)
Definition folderIcon : jsstring := [55357; 56513]%N.
Definition pageIcon : jsstring := [55357; 56516]%N.

Definition fileLine (f : FileInfo) : jsstring :=
  (if jseqb (file_type f) (js "dir") then folderIcon else pageIcon)
  ++ js " " ++ file_name f
  ++ match file_size f with
     | Some size =>
         if (size =? 0)%N then []
         else js " (" ++ N_toString size ++ js " bytes)"
     | None => []
     end.

Definition listFiles (args : Args) : M CallToolResult :=
  let path := match arg_path args with Some p => p | None => js "." end in
  sb <- SandboxService.getOrCreateSandbox env python (arg_sandbox_id args) ;;
  try_catch
    (files <- Sandbox_files_list env (sandbox sb) path ;;
     ret (mkResult
            (js "Directory: " ++ path ++ nl
             ++ js "Sandbox ID: " ++ id sb ++ nl
             ++ js "Files (" ++ nat_toString (List.length files) ++ js "):"
             ++ nl ++ nl ++ join nl (map fileLine files))
            false))
    (fun error => throw error).

Definition quoted (p : jsstring) : jsstring := js "'" ++ p ++ js "'".

Definition installCommand (packages : list jsstring) (lang : Language) : jsstring :=
  match lang with
  | python =>
      nl ++ js "import subprocess" ++ nl
      ++ js "import sys" ++ nl
      ++ nl
      ++ js "packages = [" ++ join (js ", ") (map quoted packages) ++ js "]" ++ nl
      ++ js "for package in packages:" ++ nl
      ++ js "    subprocess.check_call([sys.executable, '-m', 'pip', 'install', package])"
      ++ nl
      ++ js "print(f" ++ dq ++ js "Successfully installed: {', '.join(packages)}"
      ++ dq ++ js ")" ++ nl
  | javascript =>
      nl ++ js "const { execSync } = require('child_process');" ++ nl
      ++ js "const packages = [" ++ join (js ", ") (map quoted packages)
      ++ js "];" ++ nl
      ++ js "try {" ++ nl
      ++ js "  const result = execSync('npm install ' + packages.join(' '), { " ++ nl
      ++ js "    encoding: 'utf8', " ++ nl
      ++ js "    cwd: process.cwd()," ++ nl
      ++ js "    timeout: 30000 " ++ nl
      ++ js "  });" ++ nl
      ++ js "  console.log(result);" ++ nl
      ++ js "  console.log('Successfully installed:', packages.join(', '));" ++ nl
      ++ js "} catch (error) {" ++ nl
      ++ js "  console.error('Install failed:', error.message);" ++ nl
      ++ js "  throw error;" ++ nl
      ++ js "}"
  end.

Definition installPackages (args : Args) : M CallToolResult :=
  match arg_packages args with
  | Some (p :: ps) =>
      let packages := p :: ps in
      let lang := arg_language args in
      let packageValidation :=
        fst (SecurityValidator.validatePackages packages lang) in
      if negb (isValid packageValidation) then
        logSecurityEvent ;;;
        newError (js "Package validation failed: "
                  ++ reasonText packageValidation)
      else
        sb <- SandboxService.getOrCreateSandbox env lang (arg_sandbox_id args) ;;
        try_catch
          (result <- Sandbox_runCode env (sandbox sb)
                       (installCommand packages lang) (Some lang) ;;
           let (output, hasError) := collectOutput result in
           ret (mkResult
                  (js "Package installation "
                   ++ (if hasError then js "failed" else js "completed") ++ nl
                   ++ js "Sandbox ID: " ++ id sb ++ nl
                   ++ js "Packages: " ++ join (js ", ") packages ++ nl
                   ++ js "Language: " ++ Language_toString lang ++ nl ++ nl
                   ++ js "Output:" ++ nl ++ orNoOutput output)
                  hasError))
          (fun error => throw error)
  | _ =>
      newError (js "Packages parameter is required and must be a non-empty array")
  end.

(** [JSON.stringify(info, null, 2)] *)
Definition infoJSON (sb : SandboxManager) (filesCount : nat) : jsstring :=
  let field (k v : jsstring) := js "  " ++ dq ++ k ++ dq ++ js ": " ++ v in
  js "{" ++ nl
  ++ field (js "id") (JSON_string env (id sb)) ++ js "," ++ nl
  ++ field (js "language") (JSON_string env (Language_toString (language sb)))
  ++ js "," ++ nl
  ++ field (js "createdAt") (JSON_string env (toISOString env (createdAt sb)))
  ++ js "," ++ nl
  ++ field (js "lastUsed") (JSON_string env (toISOString env (lastUsed sb)))
  ++ js "," ++ nl
  ++ field (js "status") (JSON_string env (js "active")) ++ js "," ++ nl
  ++ field (js "filesCount") (nat_toString filesCount) ++ nl
  ++ js "}".

Definition summaryText (sb : SandboxService.Summary) : jsstring :=
  js "ID: " ++ SandboxService.summary_id sb ++ nl
  ++ js "Language: " ++ SandboxService.summary_language sb ++ nl
  ++ js "Created: " ++ toISOString env (SandboxService.summary_createdAt sb) ++ nl
  ++ js "Last Used: " ++ toISOString env (SandboxService.summary_lastUsed sb) ++ nl.

Definition getSandboxInfo (args : Args) : M CallToolResult :=
  match arg_sandbox_id args with
  | Some (c :: s) =>
      let sandbox_id := c :: s in
      found <- SandboxService.getSandbox env sandbox_id ;;
      match found with
      | None => newError (js "Sandbox " ++ sandbox_id ++ js " not found")
      | Some sb =>
          try_catch
            (files <- Sandbox_files_list env (sandbox sb) (js ".") ;;
             ret (mkResult (js "Sandbox Information:" ++ nl
                            ++ infoJSON sb (List.length files))
                           false))
            (fun error => throw error)
      end
  | _ =>
      sbs <- SandboxService.listSandboxes ;;
      ret (mkResult
             (js "Active Sandboxes (" ++ nat_toString (List.length sbs)
              ++ js "):" ++ nl ++ nl ++ join nl (map summaryText sbs))
             false)
  end.

Definition executeTool (tool : jsstring) (args : Args) : M CallToolResult :=
  try_catch
    (if jseqb tool (js "execute_python") then executePython args
     else if jseqb tool (js "execute_javascript") then executeJavaScript args
     else if jseqb tool (js "create_file") then createFile args
     else if jseqb tool (js "read_file") then readFile args
     else if jseqb tool (js "list_files") then listFiles args
     else if jseqb tool (js "install_packages") then installPackages args
     else if jseqb tool (js "get_sandbox_info") then getSandboxInfo args
     else newError (js "Unknown tool: " ++ tool))
    (fun error =>
       ret (mkResult (js "Error: " ++ messageOr (js "Unknown error occurred") error)
                     true)).

End WithEnv.

End E2BTools.

(* ===================================================================== *)
(** ** Notions the statements use *)
(* ===================================================================== *)

Module Props.

(** The segments of a path: what lies between its slashes. *)
Fixpoint segments (path : jsstring) : list jsstring :=
  match path with
  | [] => [[]]
  | c :: rest =>
      if (c =? 47)%N then [] :: segments rest
      else
        match segments rest with
        | seg :: more => (c :: seg) :: more
        | [] => [[c]]
        end
  end.

(** A check of a path: the reason of its failure, if it fails. *)
Definition check := jsstring -> option jsstring.

Definition check_length : check := fun path =>
  if (255 <? jslength path)%N
  then Some (js "File path exceeds maximum length of 255 characters")
  else None.

Definition check_emptiness : check := fun path =>
  match trim path with
  | [] => Some (js "File path cannot be empty")
  | _ => None
  end.

Definition check_traversal : check := fun path =>
  if includes (js "..") path
  then Some (js "Directory traversal not allowed in file paths")
  else None.

Fixpoint check_prefixes (prefixes : list jsstring) : check := fun path =>
  match prefixes with
  | [] => None
  | p :: more =>
      if startsWith p path
      then Some (js "Access to system directory " ++ p ++ js " is not allowed")
      else check_prefixes more path
  end.

Definition check_forbidden_prefix : check :=
  check_prefixes [js "/etc"; js "/root"; js "/usr"; js "/sys"; js "/proc"; js "/dev"].

Definition check_null_byte : check := fun path =>
  if includes [0%N] path
  then Some (js "Null bytes not allowed in file paths")
  else None.

(** The verdict of a list of checks applied in order: the reason of the
    first that fails. *)
Fixpoint first_failure (checks : list check) (path : jsstring) : Verdict :=
  match checks with
  | [] => valid
  | c :: more =>
      match c path with
      | Some why => invalid why
      | None => first_failure more path
      end
  end.

Definition checks_in_order : list check :=
  [ check_length; check_emptiness; check_traversal;
    check_forbidden_prefix; check_null_byte ].

(** The world after one reading of the clock. *)
Definition tick (w : World) : World :=
  mkWorld (sandboxes w) (cleanupInterval w) (lastIndexes w)
          (S (clockReads w)) (uuidsMade w) (calls w).

(** The handle returned and the world left by a [createSandbox] that
    succeeds followed by the [getSandbox] of the new identifier. *)
Definition created (env : Env) (lang : Language) (session : nat) (w : World)
  : SandboxManager * World :=
  let newId := uuidv4 env (uuidsMade w) in
  let r := clockReads w in
  let made := mkSandboxManager newId session (clock env r) (clock env (S r)) lang in
  let got := SandboxService.touch (clock env (S (S r))) made in
  (got,
   mkWorld (Map.set newId got (Map.set newId made (sandboxes w)))
           (cleanupInterval w) (lastIndexes w) (S (S (S r)))
           (S (uuidsMade w)) (calls w ++ [SandboxCreate])).

End Props.

(* ===================================================================== *)
(** ** Concrete environments, for the examples *)
(* ===================================================================== *)

Module Demo.

(** An execution that printed one string. *)
Definition printed (out : jsstring) : Execution :=
  mkExecution (Some (mkLogs (Some [out]) None)) None None.

(** A provider that creates the sandbox asked for, answers every
    [runCode] with [answer] and every [kill] with [killed]; the clock
    advances by one millisecond at each reading. *)
Definition provider (answer : Execution) (killed : nat -> option Thrown) : Env :=
  mkEnv (fun n => 1000 + Z.of_nat n)%Z
        (fun n => js "sandbox-" ++ nat_toString n)
        (fun cs => inr (List.length cs))
        (fun _ s => killed s)
        (fun _ _ _ _ => inr answer)
        (fun _ _ _ _ => None)
        (fun _ _ _ => inr (js "data"))
        (fun _ _ _ => inr [])
        Z_toString
        (fun s => dq ++ s ++ dq).

Definition quiet : Env := provider (printed (js "ok")) (fun _ => None).

(** The process as it starts: an empty registry, the timer set. *)
Definition start : World := mkWorld [] true (repeat 0 22) 0 0 [].

Definition a_key : jsstring :=
  js "sk-abcdefghijklmnopqrstuvwxyzABCDEFGHIJKLMNOPQRSTUV".

(** 9,990 letters, then a key, then the end of the line. *)
Definition long_output : jsstring :=
  repeat 97%N (N.to_nat 9990) ++ a_key.

(** A provider whose [kill] of session 7 throws. *)
Definition flaky : Env :=
  provider (printed (js "ok"))
           (fun s => if s =? 7 then Some (ErrorObj (js "boom")) else None).

(** A registry of two handles, of sessions 7 and 8. *)
Definition two_handles : World :=
  mkWorld [ (js "js-1", mkSandboxManager (js "js-1") 7 10 20 javascript);
            (js "py-1", mkSandboxManager (js "py-1") 8 30 40 python) ]
          true (repeat 0 22) 0 0 [].

(** The text returned, when the call returns. *)
Definition returnedText (r : Outcome CallToolResult * World) : jsstring :=
  match fst r with
  | Returned res => text res
  | Threw _ => []
  end.

Definition returnedError (r : Outcome CallToolResult * World) : bool :=
  match fst r with
  | Returned res => isError res
  | Threw _ => true
  end.

End Demo.

(* ===================================================================== *)
(** ** The rules of the sanitizer, read as functions *)
(* ===================================================================== *)

Module Mask.

Import SecurityValidator.

(** The first step of [sanitizeOutput]: the escape sequences removed. *)
Definition stripAnsi (output : jsstring) : jsstring :=
  replace_g false ansiEscapePattern [] output.

(** A literal at the head of a string. *)
Fixpoint litmatch (ic : bool) (l : list ascii) (s : jsstring) : bool :=
  match l with
  | [] => true
  | a :: l' =>
      match s with
      | c :: s' =>
          cmem ic false [(N_of_ascii a, N_of_ascii a)] c && litmatch ic l' s'
      | [] => false
      end
  end.

(** The length of the longest prefix of a class. *)
Fixpoint run (ic neg : bool) (rs : list (N * N)) (s : jsstring) : nat :=
  match s with
  | c :: s' => if cmem ic neg rs c then S (run ic neg rs s') else 0
  | [] => 0
  end.

(** [n] characters of a class at the head of a string. *)
Fixpoint times (ic neg : bool) (rs : list (N * N)) (n : nat) (s : jsstring) : bool :=
  match n with
  | O => true
  | S n' =>
      match s with
      | c :: s' => cmem ic neg rs c && times ic neg rs n' s'
      | [] => false
      end
  end.

(** A match of a prefix followed by [n] letters or digits, at the head of
    [s]: the rules of [sk-] and [ghp_]. *)
Definition keyed (pfx : string) (n : nat) (s : jsstring) : option nat :=
  let l := list_ascii_of_string pfx in
  if litmatch false l s && times false false alnum n (skipn (List.length l) s)
  then Some (List.length l + n)
  else None.

(** A match of a keyword, a colon or an equals sign amid white space, and
    a quoted run of characters, at the head of [s]: the rules of
    [password] and [api_key]. *)
Definition labelled_at (keyword : string) (s : jsstring) : option nat :=
  let l := list_ascii_of_string keyword in
  if litmatch true l s then
    let s0 := skipn (List.length l) s in
    let r1 := run true false whitespace_ranges s0 in
    match skipn r1 s0 with
    | c :: s2 =>
        if cmem true false colon_eq c then
          let r2 := run true false whitespace_ranges s2 in
          match skipn r2 s2 with
          | q :: c1 :: s4 =>
              if cmem true false quotes q && cmem true true quotes c1 then
                let r3 := run true true quotes s4 in
                match skipn r3 s4 with
                | q' :: _ => Some (List.length l + r1 + 1 + r2 + 1 + 1 + r3 + 1)
                | [] => None
                end
              else None
          | _ => None
          end
        else None
    | [] => None
    end
  else None.

(** A match of an escape sequence at the head of [s]. *)
Definition ansi_at (s : jsstring) : option nat :=
  match s with
  | e :: s1 =>
      if cmem false false [(27, 27)%N] e then
        match s1 with
        | b :: s2 =>
            if cmem false false [(91, 91)%N] b then
              let r := run false false [(48, 57); (59, 59)]%N s2 in
              match skipn r s2 with
              | c :: _ =>
                  if cmem false false [(97, 122); (65, 90)]%N c
                  then Some (2 + r + 1)
                  else None
              | [] => None
              end
            else None
        | [] => None
        end
      else None
  | [] => None
  end.

(** A rule of the sanitizer: the function that finds its match at the
    head of a string, and its replacement. *)
Record rule : Type := mkRule {
  rule_at : jsstring -> option nat;
  rule_mark : jsstring
}.

Definition rule_sk : rule := mkRule (keyed "sk-" 48) (js "sk-***HIDDEN***").
Definition rule_ghp : rule := mkRule (keyed "ghp_" 36) (js "ghp_***HIDDEN***").
Definition rule_password : rule :=
  mkRule (labelled_at "password") (hidden "password").
Definition rule_api_key : rule :=
  mkRule (labelled_at "api_key") (hidden "api_key").

Definition rules : list rule := [rule_sk; rule_ghp; rule_password; rule_api_key].

(** The first step of [sanitizeOutput] as a rule: an escape sequence
    becomes nothing. *)
Definition rule_ansi : rule := mkRule ansi_at [].

(** The scan of [replace], for a rule whose matches are never empty. *)
Fixpoint scan_from (at_ : jsstring -> option nat) (mark : jsstring)
    (skip : nat) (s : jsstring) : jsstring :=
  match skip with
  | S skip' =>
      match s with
      | [] => []
      | _ :: s' => scan_from at_ mark skip' s'
      end
  | O =>
      match s with
      | [] => []
      | c :: s' =>
          match at_ s with
          | Some (S len) => mark ++ scan_from at_ mark len s'
          | _ => c :: scan_from at_ mark 0 s'
          end
      end
  end.

Definition scan (r : rule) (s : jsstring) : jsstring :=
  scan_from (rule_at r) (rule_mark r) 0 s.

(** [X] is a text that rule [r] matches whole, whatever follows it. *)
Definition matched_by (r : rule) (X : jsstring) : Prop :=
  X <> [] /\ forall rest, rule_at r (X ++ rest) = Some (List.length X).

(** [masked a b]: [b] is [a] with some of the texts that the rules match
    replaced by their marks. *)
Inductive masked : jsstring -> jsstring -> Prop :=
| masked_nil : masked [] []
| masked_keep (c : N) (a b : jsstring) :
    masked a b -> masked (c :: a) (c :: b)
| masked_hide (r : rule) (X a b : jsstring) :
    In r rules -> matched_by r X -> masked a b ->
    masked (X ++ a) (rule_mark r ++ b).

(** Nothing for a rule to change at the head of [s]: no match there, or
    the mark of the rule itself. *)
Definition settled_at (r : rule) (s : jsstring) : Prop :=
  rule_at r s = None
  \/ (rule_mark r <> [] /\ exists rest, s = rule_mark r ++ rest).

(** A property of every suffix of a string. *)
Fixpoint everywhere (P : jsstring -> Prop) (s : jsstring) : Prop :=
  P s /\ match s with
         | [] => True
         | _ :: s' => everywhere P s'
         end.

(** A rule is local when a match is a matter of the matched text alone,
    and is not empty. *)
Definition local (r : rule) : Prop :=
  forall s n, rule_at r s = Some n ->
    exists X rest, s = X ++ rest /\ List.length X = n /\ matched_by r X.

Definition letters : list (N * N) := [(97, 122); (65, 90)]%N.

(** A list of ranges without letters: the flag [i] does nothing to it. *)
Definition letterless (rs : list (N * N)) : Prop :=
  forall c, in_ranges rs c = true -> ~ (65 <= c <= 90)%N /\ ~ (97 <= c <= 122)%N.

(** A class that holds no letter. *)
Definition no_letter (ic neg : bool) (rs : list (N * N)) : Prop :=
  forall c, cmem ic neg rs c = true -> in_ranges letters c = false.

(** The literal that starts the matches of a rule. *)
Definition rule_literal (r : rule) (ic : bool) (l : list ascii) : Prop :=
  forall s m, rule_at r s = Some m -> litmatch ic l s = true.

(** No mark starts like the literal [l] or like what is left of it after
    some of its characters. *)
Fixpoint marks_clear (ic : bool) (l : list ascii) : Prop :=
  match l with
  | [] => True
  | _ :: l' =>
      (forall r t, In r rules -> litmatch ic l (rule_mark r ++ t) = false)
      /\ marks_clear ic l'
  end.

(** What follows the keyword in a match of [password] or [api_key]. *)
Definition tail_ok (s0 : jsstring) : Prop :=
  exists c s2 q c1 s4,
    skipn (run true false whitespace_ranges s0) s0 = c :: s2
    /\ cmem true false colon_eq c = true
    /\ skipn (run true false whitespace_ranges s2) s2 = q :: c1 :: s4
    /\ cmem true false quotes q = true
    /\ cmem true true quotes c1 = true
    /\ existsb (cmem true false quotes) s4 = true.

End Mask.

(* ===================================================================== *)
(** ** More notions: the registry, the patterns, the limits *)
(* ===================================================================== *)

Module Notions.

(** The registry is well formed when no key occurs twice and every handle
    is stored under its own identifier. *)
Definition well_formed (m : Map.t) : Prop :=
  NoDup (Map.keys m) /\ Forall (fun kv => id (snd kv) = fst kv) m.

(** A handle has been idle for more than the timeout at time [t]. *)
Definition idle (t : Z) (kv : jsstring * SandboxManager) : bool :=
  (SANDBOX_IDLE_TIMEOUT <? t - lastUsed (snd kv))%Z.

(** The call that kills the session of an entry. *)
Definition kill_of (kv : jsstring * SandboxManager) : RemoteCall :=
  SandboxKill (sandbox (snd kv)).

(** A pattern whose every character class is positive and within [ok],
    and that has no lookahead: what it matches is made of [ok]. *)
Fixpoint made_of (ok : N -> bool) (r : regex) : Prop :=
  match r with
  | Empty | Bol | Eol => True
  | Chars neg rs | Star neg rs =>
      neg = false /\ forall c, in_ranges rs c = true -> ok c = true
  | Seq r1 r2 | Alt r1 r2 => made_of ok r1 /\ made_of ok r2
  | NotAhead _ => False
  end.

(** A pattern that can only match up to the end of the input. *)
Fixpoint ends_at_eol (r : regex) : bool :=
  match r with
  | Eol => true
  | Seq _ r2 => ends_at_eol r2
  | Alt r1 r2 => ends_at_eol r1 && ends_at_eol r2
  | _ => false
  end.

(** A pattern that can only match from the start of the input. *)
Fixpoint starts_at_bol (r : regex) : bool :=
  match r with
  | Bol => true
  | Seq r1 _ => starts_at_bol r1
  | Alt r1 r2 => starts_at_bol r1 && starts_at_bol r2
  | _ => false
  end.

(** The characters of the names that [validatePackageName] lets through:
    letters, digits and [- . _ ~ @ /]. *)
Definition name_chars : list (N * N) :=
  alnum ++ [(45, 46); (95, 95); (126, 126); (64, 64); (47, 47)]%N.

(** The names of Python packages, read off [pythonPattern]: a letter or
    digit first and last, and letters, digits and [. _ -] between. *)
Definition python_name_shape (s : jsstring) : bool :=
  match s with
  | [] => false
  | c :: rest =>
      in_ranges alnum c
      && forallb (in_ranges SecurityValidator.pyname) rest
      && in_ranges alnum (last s 0%N)
  end.

(** The seven tools of [executeTool]. *)
Definition tool_names : list jsstring :=
  [ js "execute_python"; js "execute_javascript"; js "create_file";
    js "read_file"; js "list_files"; js "install_packages";
    js "get_sandbox_info" ].

(** The length of the mark of truncation. *)
Definition truncation_mark : jsstring := nl ++ js "... (output truncated)".

(** What [terminateSandbox] asks of the provider for a key. *)
Definition killed (m : Map.t) (k : jsstring) : list RemoteCall :=
  match Map.get k m with
  | Some h => [SandboxKill (sandbox h)]
  | None => []
  end.

(** What a call of a tool may do to the pool: it keeps the registry well
    formed and drops no identifier. *)
Definition extends (w w' : World) : Prop :=
  (well_formed (sandboxes w) -> well_formed (sandboxes w'))
  /\ incl (Map.keys (sandboxes w)) (Map.keys (sandboxes w')).

Definition steady {A} (c : M A) : Prop :=
  forall w, extends w (snd (c w)).

(** Some handle of the registry is of the language. *)
Definition has_language (lang : Language) (m : Map.t) : Prop :=
  exists kv, In kv m /\ language (snd kv) = lang.

End Notions.

(** Providers that fail, for the examples. *)
Module Faults.

(** A provider that cannot be reached: every request throws [e]. *)
Definition unreachable (e : Thrown) : Env :=
  mkEnv (clock Demo.quiet) (uuidv4 Demo.quiet)
        (fun _ => inl e) (fun _ _ => Some e)
        (fun _ _ _ _ => inl e) (fun _ _ _ _ => Some e)
        (fun _ _ _ => inl e) (fun _ _ _ => inl e)
        (toISOString Demo.quiet) (JSON_string Demo.quiet).

(** A provider that creates the sandboxes asked for and throws [e] at
    every request made of one. *)
Definition creates_only (e : Thrown) : Env :=
  mkEnv (clock Demo.quiet) (uuidv4 Demo.quiet)
        (remote_create Demo.quiet) (fun _ _ => Some e)
        (fun _ _ _ _ => inl e) (fun _ _ _ _ => Some e)
        (fun _ _ _ => inl e) (fun _ _ _ => inl e)
        (toISOString Demo.quiet) (JSON_string Demo.quiet).

Definition timeout : Thrown := ErrorObj (js "request timed out").

(** The provider of [Demo.quiet], some four hundred seconds later. *)
Definition later : Env :=
  mkEnv (fun n => 400000 + Z.of_nat n)%Z (uuidv4 Demo.quiet)
        (remote_create Demo.quiet) (remote_kill Demo.quiet)
        (remote_runCode Demo.quiet) (remote_write Demo.quiet)
        (remote_read Demo.quiet) (remote_list Demo.quiet)
        (toISOString Demo.quiet) (JSON_string Demo.quiet).

(** A registry of two handles: one last used long ago, one just now. *)
Definition one_idle : World :=
  mkWorld [ (js "js-1", mkSandboxManager (js "js-1") 7 10 20 javascript);
            (js "py-1", mkSandboxManager (js "py-1") 8 30 399990 python) ]
          true (repeat 0 22) 0 0 [].

(** A registry that holds one handle, of JavaScript. *)
Definition only_js : World :=
  mkWorld [ (js "js-1", mkSandboxManager (js "js-1") 7 10 20 javascript) ]
          true (repeat 0 22) 0 0 [].

(** 9,950 letters and then a key: the last code unit of the key is the
    first beyond the limit of the output. *)
Definition cut_key : jsstring := repeat 97%N (N.to_nat 9950) ++ Demo.a_key.

(** Thirty-two letters. *)
Definition token : jsstring := js "abcdefghijklmnopqrstuvwxyzABCDEF".

End Faults.

(* ===================================================================== *)
(** ** Properties of the input validator *)
(* ===================================================================== *)

Section ValidatorFacts.

Import SecurityValidator.

Lemma startsWith_app (p rest : jsstring) : startsWith p (p ++ rest) = true.
Proof.
  induction p as [|x p IH]; simpl; [reflexivity|].
  unfold cu_eqb. now rewrite N.eqb_refl.
Qed.

Lemma includes_app (p pre post : jsstring) :
  includes p (pre ++ p ++ post) = true.
Proof.
  induction pre as [|c pre IH].
  - simpl app. generalize (startsWith_app p post).
    destruct (p ++ post); simpl; intros ->; reflexivity.
  - simpl. rewrite IH. apply orb_true_r.
Qed.

(** A segment of a path is a part of it. *)
Lemma segments_part (path seg : jsstring) :
  In seg (Props.segments path) -> exists pre post, path = pre ++ seg ++ post.
Proof.
  revert seg. induction path as [|c rest IH]; intros seg Hin; simpl in Hin.
  - destruct Hin as [<- | []]. now exists [], [].
  - destruct (c =? 47)%N.
    + destruct Hin as [<- | Hin].
      * exists [], (c :: rest). reflexivity.
      * destruct (IH _ Hin) as (pre & post & ->).
        exists (c :: pre), post. reflexivity.
    + destruct (Props.segments rest) as [|seg0 more] eqn:E.
      * destruct Hin as [<- | []]. 
        exists [], rest. reflexivity.
      * destruct Hin as [<- | Hin].
        -- destruct (IH seg0 (or_introl eq_refl)) as (pre & post & Hrest).
           (* the first segment starts the path *)
           assert (Hfirst : exists post', rest = seg0 ++ post').
           { clear - E. revert seg0 more E.
             induction rest as [|d rest IHr]; intros seg0 more E; simpl in E.
             - injection E as <- _. now exists [].
             - destruct (d =? 47)%N.
               + injection E as <- _. now exists (d :: rest).
               + destruct (Props.segments rest) as [|s1 m1] eqn:E1.
                 * injection E as <- _. now exists rest.
                 * injection E as <- _.
                   destruct (IHr _ _ eq_refl) as (post' & ->).
                   now exists post'. }
           destruct Hfirst as (post' & ->).
           exists [], post'. reflexivity.
        -- destruct (IH seg (or_intror Hin)) as (pre & post & ->).
           exists (c :: pre), post. reflexivity.
Qed.

Lemma Nltb_false_le (a b : N) : (b <= a)%N -> (a <? b)%N = false.
Proof. intros H. apply N.ltb_ge. exact H. Qed.

Lemma truthy_nonempty (s : jsstring) : s <> [] -> truthy s = true.
Proof. destruct s; [congruence | reflexivity]. Qed.

Lemma find_prefix_check (prefixes : list jsstring) (path : jsstring) (v : Verdict) :
  match find (fun dangerous => startsWith dangerous path) prefixes with
  | Some dangerous =>
      invalid (js "Access to system directory " ++ dangerous
               ++ js " is not allowed")
  | None => v
  end
  = match Props.check_prefixes prefixes path with
    | Some why => invalid why
    | None => v
    end.
Proof.
  induction prefixes as [|p more IH]; [reflexivity|].
  cbn [find Props.check_prefixes].
  destruct (startsWith p path); [reflexivity | exact IH].
Qed.

(** C7: a path with a [..] segment, within the length limit and not
    blank, is refused for directory traversal; and for every path the
    verdict is that of the checks length, emptiness, traversal, forbidden
    prefix and null byte applied in this order, the first failure giving
    the reason. *)
Theorem validateFilePath_traversal_and_order :
  (forall path : jsstring,
      (jslength path <= 255)%N ->
      trim path <> [] ->
      In (js "..") (Props.segments path) ->
      validateFilePath path
      = invalid (js "Directory traversal not allowed in file paths"))
  /\ (forall path : jsstring,
         validateFilePath path = Props.first_failure Props.checks_in_order path).
Proof.
  split.
  - intros path Hlen Hblank Hseg.
    unfold validateFilePath.
    rewrite Nltb_false_le by exact Hlen.
    rewrite truthy_nonempty by exact Hblank. simpl negb. cbv iota.
    destruct (segments_part _ _ Hseg) as (pre & post & ->).
    rewrite includes_app. reflexivity.
  - intros path. unfold validateFilePath, Props.checks_in_order.
    simpl Props.first_failure.
    unfold Props.check_length, Props.check_emptiness, Props.check_traversal,
      Props.check_null_byte, MAX_FILENAME_LENGTH.
    destruct (255 <? jslength path)%N; [reflexivity|].
    destruct (trim path) as [|t ts]; [reflexivity|]. simpl negb. cbv iota.
    destruct (includes (js "..") path); [reflexivity|].
    unfold Props.check_forbidden_prefix.
    rewrite find_prefix_check.
    destruct (Props.check_prefixes _ path); [reflexivity|].
    destruct (includes [0%N] path); reflexivity.
Qed.

Lemma validateFilePath_witness :
  validateFilePath (js "uploads/../secret.txt")
  = invalid (js "Directory traversal not allowed in file paths").
Proof.
  apply (proj1 validateFilePath_traversal_and_order).
  - vm_compute. discriminate.
  - vm_compute. discriminate.
  - vm_compute. tauto.
Defined.

(** C8: only the size and the emptiness of the code decide the verdict
    of [validateCode].  Code of at most 50,000 code units that is not
    blank passes for both languages, whatever the patterns find and
    whatever [lastIndex] the static patterns carry; longer code and blank
    code are refused, each with the reason of its constraint. *)
Theorem validateCode_size_and_emptiness_only :
  forall (st : list nat) (code : jsstring) (lang : Language),
    ((jslength code <= 50000)%N -> trim code <> [] ->
     fst (fst (validateCode st code lang)) = valid)
    /\ ((50000 < jslength code)%N ->
        fst (fst (validateCode st code lang))
        = invalid (js "Code exceeds maximum length of 50000 characters"))
    /\ ((jslength code <= 50000)%N -> trim code = [] ->
        fst (fst (validateCode st code lang))
        = invalid (js "Code cannot be empty")).
Proof.
  intros st code lang. unfold validateCode, MAX_CODE_LENGTH.
  repeat split.
  - intros Hlen Hblank.
    rewrite Nltb_false_le by exact Hlen.
    rewrite truthy_nonempty by exact Hblank. simpl negb. cbv iota.
    destruct (scanDangerous DANGEROUS_PATTERNS st code) as [st' ws].
    destruct lang; reflexivity.
  - intros Hlen. apply N.ltb_lt in Hlen. rewrite Hlen. reflexivity.
  - intros Hlen Hblank.
    rewrite Nltb_false_le by exact Hlen.
    rewrite Hblank. reflexivity.
Qed.

Lemma validateCode_witness :
  fst (fst (validateCode (repeat 0 22) (js "eval(input())") python)) = valid
  /\ fst (fst (validateCode (repeat 0 22) (repeat 120%N (N.to_nat 50001)) javascript))
     = invalid (js "Code exceeds maximum length of 50000 characters")
  /\ fst (fst (validateCode (repeat 0 22) (js "   ") python))
     = invalid (js "Code cannot be empty").
Proof.
  split; [|split].
  - apply (proj1 (validateCode_size_and_emptiness_only _ _ _)).
    + vm_compute. discriminate.
    + vm_compute. discriminate.
  - apply (proj1 (proj2 (validateCode_size_and_emptiness_only _ _ _))).
    vm_compute. reflexivity.
  - apply (proj2 (proj2 (validateCode_size_and_emptiness_only _ _ _))).
    + vm_compute. discriminate.
    + vm_compute. reflexivity.
Defined.

(** C9: content whose UTF-8 encoding is longer than 10 MiB is refused by
    [validateFileContent], and the length compared is that of the
    encoding: content of no more than 10 Mi code units whose encoding is
    longer is refused as well. *)
Theorem validateFileContent_byte_limit :
  forall content : jsstring,
    ((10485760 < byteLength content)%N ->
     fst (validateFileContent content)
     = invalid (js "File content exceeds maximum size of 10485760 bytes"))
    /\ ((jslength content <= 10485760)%N ->
        (10485760 < byteLength content)%N ->
        isValid (fst (validateFileContent content)) = false).
Proof.
  intros content.
  assert (H : (10485760 < byteLength content)%N ->
              fst (validateFileContent content)
              = invalid (js "File content exceeds maximum size of 10485760 bytes")).
  { intros Hlen. unfold validateFileContent.
    change MAX_FILE_SIZE with 10485760%N.
    apply N.ltb_lt in Hlen. rewrite Hlen. reflexivity. }
  split; [exact H|]. intros _ Hlen. rewrite (H Hlen). reflexivity.
Qed.

(** The encoding of [n] copies of a code unit of three bytes. *)
Lemma byteLength_repeat_three (c : N) (n : nat) :
  (2048 <= c)%N -> isHighSurrogate c = false ->
  byteLength (repeat c n) = (3 * N.of_nat n)%N.
Proof.
  intros Hc Hs.
  assert (H1 : (c <? 128)%N = false) by (apply N.ltb_ge; lia).
  assert (H2 : (c <? 2048)%N = false) by (apply N.ltb_ge; lia).
  induction n as [|n IH]; [reflexivity|].
  cbn [repeat byteLength]. rewrite H1, H2, Hs, IH. lia.
Qed.

Lemma jslength_repeat (c : N) (n : nat) : jslength (repeat c n) = N.of_nat n.
Proof. unfold jslength. now rewrite repeat_length. Qed.

Lemma validateFileContent_witness :
  fst (validateFileContent (repeat 20013%N (N.to_nat 3495254)))
  = invalid (js "File content exceeds maximum size of 10485760 bytes")
  /\ isValid (fst (validateFileContent (repeat 20013%N (N.to_nat 3495254))))
     = false.
Proof.
  split.
  - apply (proj1 (validateFileContent_byte_limit _)).
    rewrite byteLength_repeat_three, N2Nat.id by (try reflexivity; lia). lia.
  - apply (proj2 (validateFileContent_byte_limit _)).
    + rewrite jslength_repeat, N2Nat.id. lia.
    + rewrite byteLength_repeat_three, N2Nat.id by (try reflexivity; lia). lia.
Defined.

End ValidatorFacts.

(* ===================================================================== *)
(** ** Properties of the sandbox pool *)
(* ===================================================================== *)

Section PoolFacts.

Variable env : Env.


Lemma jseqb_eq (a b : jsstring) : jseqb a b = true <-> a = b.
Proof.
  revert b. induction a as [|x a IH]; intros [|y b]; simpl;
    try (split; [discriminate | discriminate]); [tauto|].
  unfold cu_eqb. rewrite andb_true_iff, N.eqb_eq, IH.
  split; [intros [-> ->]; reflexivity | intros H; injection H; tauto].
Qed.

Lemma jseqb_refl (a : jsstring) : jseqb a a = true.
Proof. now apply jseqb_eq. Qed.

Lemma jseqb_neq (a b : jsstring) : a <> b -> jseqb a b = false.
Proof.
  intros H. destruct (jseqb a b) eqn:E; [|reflexivity].
  apply jseqb_eq in E. contradiction.
Qed.

Lemma Map_get_set_same (k : jsstring) (v : SandboxManager) (m : Map.t) :
  Map.get k (Map.set k v m) = Some v.
Proof.
  induction m as [|[k' v'] m IH]; simpl.
  - now rewrite jseqb_refl.
  - destruct (jseqb k' k) eqn:E; simpl; rewrite E; [reflexivity | exact IH].
Qed.

Lemma Map_get_set_other (k k' : jsstring) (v : SandboxManager) (m : Map.t) :
  k' <> k -> Map.get k' (Map.set k v m) = Map.get k' m.
Proof.
  intros Hne. induction m as [|[k0 v0] m IH]; simpl.
  - rewrite jseqb_neq; [reflexivity | congruence].
  - destruct (jseqb k0 k) eqn:E; simpl.
    + apply jseqb_eq in E. subst k0.
      rewrite jseqb_neq; [reflexivity | congruence].
    + destruct (jseqb k0 k'); [reflexivity | exact IH].
Qed.

Lemma Map_keys_set_present (k : jsstring) (v v0 : SandboxManager) (m : Map.t) :
  Map.get k m = Some v0 -> Map.keys (Map.set k v m) = Map.keys m.
Proof.
  unfold Map.keys.
  induction m as [|[k' v'] m IH]; simpl; [discriminate|].
  destruct (jseqb k' k) eqn:E; simpl; [reflexivity|].
  intros H. f_equal. exact (IH H).
Qed.

Lemma Map_get_delete_same (k : jsstring) (m : Map.t) :
  Map.get k (Map.delete k m) = None.
Proof.
  induction m as [|[k' v'] m IH]; simpl; [reflexivity|].
  destruct (jseqb k' k) eqn:E; simpl; [exact IH|].
  rewrite E. exact IH.
Qed.

Lemma Map_delete_absent (k : jsstring) (m : Map.t) :
  ~ In k (Map.keys m) -> Map.delete k m = m.
Proof.
  induction m as [|[k' v'] m IH]; simpl; [reflexivity|].
  intros Hnin. rewrite jseqb_neq by tauto. simpl.
  f_equal. apply IH. tauto.
Qed.

(** *** What each operation of the pool does *)

Lemma getSandbox_found (sid : jsstring) (h : SandboxManager) (w : World) :
  Map.get sid (sandboxes w) = Some h ->
  SandboxService.getSandbox env sid w
  = (Returned (Some (SandboxService.touch (clock env (clockReads w)) h)),
     set_sandboxes
       (Map.set sid (SandboxService.touch (clock env (clockReads w)) h)
                (sandboxes w))
       (Props.tick w)).
Proof.
  intros H. unfold SandboxService.getSandbox, bind, getWorld.
  rewrite H. reflexivity.
Qed.

Lemma getSandbox_missing (sid : jsstring) (w : World) :
  Map.get sid (sandboxes w) = None ->
  SandboxService.getSandbox env sid w = (Returned None, w).
Proof.
  intros H. unfold SandboxService.getSandbox, bind, getWorld.
  rewrite H. reflexivity.
Qed.

Lemma reuseOrCreate_reuse (lang : Language) (k : jsstring) (h : SandboxManager)
    (w : World) :
  SandboxService.firstOfLanguage lang (sandboxes w) = Some (k, h) ->
  SandboxService.reuseOrCreate env lang w
  = (Returned (SandboxService.touch (clock env (clockReads w)) h),
     set_sandboxes
       (SandboxService.touchFirst lang (clock env (clockReads w)) (sandboxes w))
       (Props.tick w)).
Proof.
  intros H. unfold SandboxService.reuseOrCreate, bind, getWorld.
  rewrite H. reflexivity.
Qed.

Lemma reuseOrCreate_create (lang : Language) (session : nat) (w : World) :
  SandboxService.firstOfLanguage lang (sandboxes w) = None ->
  remote_create env (calls w) = inr session ->
  SandboxService.reuseOrCreate env lang w
  = (Returned (fst (Props.created env lang session w)), snd (Props.created env lang session w)).
Proof.
  intros Hnone Hcreate.
  unfold SandboxService.reuseOrCreate, bind, getWorld.
  rewrite Hnone.
  unfold SandboxService.createSandbox, try_catch, bind, Sandbox_create.
  rewrite Hcreate. cbn -[Map.set Map.get].
  unfold SandboxService.getSandbox, bind, getWorld. cbn -[Map.set Map.get].
  rewrite Map_get_set_same. reflexivity.
Qed.

Lemma reuseOrCreate_create_fails (lang : Language) (e : Thrown) (w : World) :
  SandboxService.firstOfLanguage lang (sandboxes w) = None ->
  remote_create env (calls w) = inl e ->
  SandboxService.reuseOrCreate env lang w
  = (Threw (ErrorObj (js "Failed to create sandbox: "
                      ++ messageOr (js "Unknown error") e)),
     record SandboxCreate w).
Proof.
  intros Hnone Hcreate.
  unfold SandboxService.reuseOrCreate, bind, getWorld.
  rewrite Hnone.
  unfold SandboxService.createSandbox, try_catch, bind, Sandbox_create.
  rewrite Hcreate. reflexivity.
Qed.

Lemma firstOfLanguage_language (lang : Language) (m : Map.t) (k : jsstring)
    (h : SandboxManager) :
  SandboxService.firstOfLanguage lang m = Some (k, h) -> language h = lang.
Proof.
  unfold SandboxService.firstOfLanguage. intros H.
  apply find_some in H. destruct H as [_ H]. simpl in H.
  destruct (language h), lang; (reflexivity || discriminate).
Qed.

(** Whatever [reuseOrCreate] returns is a handle of the language asked. *)
Lemma reuseOrCreate_language (lang : Language) (w w' : World)
    (r : SandboxManager) :
  SandboxService.reuseOrCreate env lang w = (Returned r, w') ->
  language r = lang.
Proof.
  destruct (SandboxService.firstOfLanguage lang (sandboxes w)) as [[k h]|] eqn:F.
  - rewrite (@reuseOrCreate_reuse lang k h w F). intros H. injection H as <- _.
    simpl. eapply firstOfLanguage_language; eauto.
  - destruct (remote_create env (calls w)) as [e|session] eqn:C.
    + rewrite (@reuseOrCreate_create_fails lang e w F C). discriminate.
    + rewrite (@reuseOrCreate_create lang session w F C). intros H. injection H as <- _.
      reflexivity.
Qed.

Lemma Map_set_split (k : jsstring) (v v0 : SandboxManager) (m : Map.t) :
  Map.get k m = Some v0 ->
  exists before after,
    m = before ++ (k, v0) :: after
    /\ Map.set k v m = before ++ (k, v) :: after
    /\ ~ In k (Map.keys before).
Proof.
  induction m as [|[k' v'] m IH]; simpl; [discriminate|].
  destruct (jseqb k' k) eqn:E.
  - apply jseqb_eq in E. subst k'. intros H. injection H as ->.
    exists [], m. simpl. tauto.
  - intros H. destruct (IH H) as (before & after & -> & -> & Hnin).
    exists ((k', v') :: before), after. simpl. repeat split.
    intros [Heq | Hin]; [|tauto].
    subst k'. rewrite jseqb_refl in E. discriminate.
Qed.

(** C5: from an empty pool, [getOrCreateSandbox('python')] without an
    identifier registers exactly one handle, provided the provider
    creates the sandbox; called again at once it returns the handle of
    the same identifier, whose [lastUsed] is renewed: it is what the
    clock reads at the second call, the one reading that call makes, and
    so has not gone back provided the clock does not; every other field
    of the handle is as it was, and the registry still holds that one
    handle: nothing was asked of the provider and no identifier was
    made. *)
Theorem getOrCreateSandbox_twice_reuses :
  forall (w0 : World) (session : nat),
    sandboxes w0 = [] ->
    remote_create env (calls w0) = inr session ->
    (forall i j : nat, i <= j -> (clock env i <= clock env j)%Z) ->
    exists h1 w1 h2 w2,
      SandboxService.getOrCreateSandbox env python None w0 = (Returned h1, w1)
      /\ sandboxes w1 = [(id h1, h1)]
      /\ language h1 = python
      /\ SandboxService.getOrCreateSandbox env python None w1 = (Returned h2, w2)
      /\ id h2 = id h1
      /\ (lastUsed h1 <= lastUsed h2)%Z
      /\ sandboxes w2 = [(id h1, h2)]
      /\ calls w2 = calls w1
      /\ uuidsMade w2 = uuidsMade w1
      /\ lastUsed h2 = clock env (clockReads w1)
      /\ h2 = mkSandboxManager (id h1) (sandbox h1) (createdAt h1)
                               (clock env (clockReads w1)) (language h1)
      /\ clockReads w2 = S (clockReads w1).
Proof.
  intros w0 session Hempty Hcreate Hclock.
  assert (F0 : SandboxService.firstOfLanguage python (sandboxes w0) = None)
    by (rewrite Hempty; reflexivity).
  pose proof (@reuseOrCreate_create python session w0 F0 Hcreate) as H1.
  set (h1 := fst (Props.created env python session w0)) in *.
  set (w1 := snd (Props.created env python session w0)) in *.
  assert (S1 : sandboxes w1 = [(id h1, h1)]).
  { subst w1 h1. unfold Props.created. cbn -[jseqb]. rewrite Hempty.
    cbn -[jseqb]. rewrite jseqb_refl. reflexivity. }
  assert (F1 : SandboxService.firstOfLanguage python (sandboxes w1)
               = Some (id h1, h1)) by (rewrite S1; reflexivity).
  pose proof (@reuseOrCreate_reuse python (id h1) h1 w1 F1) as H2.
  eexists h1, w1, _, _.
  split; [exact H1|]. split; [exact S1|]. split; [reflexivity|].
  split; [exact H2|]. split; [reflexivity|].
  split; [apply Hclock; simpl; lia|].
  split; [|repeat split; reflexivity].
  cbn [sandboxes set_sandboxes]. rewrite S1. reflexivity.
Qed.

(** C10: a lookup by an identifier that resolves to a handle of another
    language sets that handle's [lastUsed] to now before the languages
    are compared; the call then goes on as one without an identifier, so
    the handle is not the one returned.  The lookup changes nothing else:
    the other fields of the handle and every other entry of the registry,
    in its order, are as before. *)
Theorem getOrCreateSandbox_mismatch_bumps :
  forall (w : World) (sid : jsstring) (h : SandboxManager) (lang : Language),
    sid <> [] ->
    Map.get sid (sandboxes w) = Some h ->
    language h <> lang ->
    let t := clock env (clockReads w) in
    let bumped := mkSandboxManager (id h) (sandbox h) (createdAt h) t (language h) in
    let w' := snd (SandboxService.getSandbox env sid w) in
    SandboxService.getOrCreateSandbox env lang (Some sid) w
    = SandboxService.reuseOrCreate env lang w'
    /\ (exists before after,
          sandboxes w = before ++ (sid, h) :: after
          /\ sandboxes w' = before ++ (sid, bumped) :: after
          /\ ~ In sid (Map.keys before))
    /\ Map.get sid (sandboxes w') = Some bumped
    /\ (forall k, k <> sid -> Map.get k (sandboxes w') = Map.get k (sandboxes w))
    /\ (forall r w'',
          SandboxService.getOrCreateSandbox env lang (Some sid) w
          = (Returned r, w'') ->
          language r = lang /\ r <> bumped).
Proof.
  intros w sid h lang Hsid Hget Hlang t bumped w'.
  assert (Hgo : SandboxService.getOrCreateSandbox env lang (Some sid) w
                = SandboxService.reuseOrCreate env lang w').
  { unfold SandboxService.getOrCreateSandbox.
    rewrite truthy_nonempty by exact Hsid.
    subst w'. unfold bind at 1.
    rewrite (@getSandbox_found sid h w Hget). cbn [snd].
    cbn [SandboxService.touch language].
    destruct (Language_eqb (language h) lang) eqn:E; [|reflexivity].
    exfalso. apply Hlang. destruct (language h), lang;
      (reflexivity || discriminate). }
  assert (Hw' : sandboxes w' = Map.set sid bumped (sandboxes w)).
  { subst w'. rewrite (@getSandbox_found sid h w Hget). reflexivity. }
  split; [exact Hgo|].
  split.
  { destruct (@Map_set_split sid bumped h (sandboxes w) Hget)
      as (before & after & E1 & E2 & Hnin).
    exists before, after. rewrite Hw'. tauto. }
  split; [rewrite Hw'; apply Map_get_set_same|].
  split; [intros k Hk; rewrite Hw'; now apply Map_get_set_other|].
  intros r w'' Hr. rewrite Hgo in Hr.
  apply reuseOrCreate_language in Hr. split; [exact Hr|].
  intros ->. apply Hlang. exact Hr.
Qed.

Lemma forEach_settled (l : list jsstring) (f : jsstring -> M unit) (w : World) :
  fst (SandboxService.forEach l (fun x => SandboxService.settled (f x)) w)
  = Returned tt.
Proof.
  revert w. induction l as [|x l IH]; intros w; simpl; [reflexivity|].
  unfold bind, SandboxService.settled, try_catch at 1.
  destruct (f x w) as [[[]|e] w1]; simpl; apply IH.
Qed.

(** [terminateSandbox] returns and leaves no entry of the identifier,
    whatever the provider answers to [kill]. *)
Lemma terminateSandbox_removes (sid : jsstring) (w : World) :
  fst (SandboxService.terminateSandbox env sid w) = Returned tt
  /\ Map.get sid (sandboxes (snd (SandboxService.terminateSandbox env sid w)))
     = None.
Proof.
  unfold SandboxService.terminateSandbox, bind, getWorld.
  destruct (Map.get sid (sandboxes w)) as [h|] eqn:G; [|now split].
  unfold try_catch, bind, Sandbox_kill, modifyRegistry.
  destruct (remote_kill env (calls w) (sandbox h)); simpl;
    split; try reflexivity; apply Map_get_delete_same.
Qed.

(** The loop of [cleanup] on a registry of distinct keys: one [kill] for
    each handle, in the order of the registry, and every entry deleted. *)
Lemma cleanup_loop (m : Map.t) (w : World) :
  sandboxes w = m ->
  NoDup (Map.keys m) ->
  snd (SandboxService.forEach (Map.keys m)
         (fun sid => SandboxService.settled
                       (SandboxService.terminateSandbox env sid)) w)
  = mkWorld [] (cleanupInterval w) (lastIndexes w) (clockReads w) (uuidsMade w)
            (calls w ++ map (fun kv => SandboxKill (sandbox (snd kv))) m).
Proof.
  revert w. induction m as [|[k v] m IH]; intros w Hw Hnd.
  - simpl. rewrite app_nil_r. destruct w; simpl in *; subst; reflexivity.
  - inversion Hnd as [|? ? Hnin Hnd']; subst.
    cbn [Map.keys map fst SandboxService.forEach].
    unfold bind at 1.
    assert (Hstep :
      SandboxService.settled (SandboxService.terminateSandbox env k) w
      = (Returned tt,
         mkWorld m (cleanupInterval w) (lastIndexes w) (clockReads w)
                 (uuidsMade w) (calls w ++ [SandboxKill (sandbox v)]))).
    { unfold SandboxService.settled, SandboxService.terminateSandbox,
        try_catch, bind, getWorld, Sandbox_kill, modifyRegistry.
      rewrite Hw. cbn [Map.get]. rewrite jseqb_refl.
      assert (Hdel : Map.delete k ((k, v) :: m) = m).
      { unfold Map.delete. cbn [filter fst]. rewrite jseqb_refl. simpl negb.
        cbv iota. apply Map_delete_absent. exact Hnin. }
      destruct (remote_kill env (calls w) (sandbox v)); cbn -[Map.delete];
        rewrite Hw, Hdel; reflexivity. }
    rewrite Hstep.
    change (map fst m) with (Map.keys m).
    rewrite IH; [|reflexivity|exact Hnd'].
    cbn [cleanupInterval lastIndexes clockReads uuidsMade calls map snd].
    rewrite <- app_assoc. reflexivity.
Qed.

(** C6: [cleanup] returns and leaves the registry empty, whatever the
    provider answers to each [kill]; on a registry of N handles it asks
    for the N sessions to be killed, one after the other, none skipped
    because another failed; and a termination whose [kill] throws still
    removes its entry. *)
Theorem cleanup_empties_registry :
  forall w : World,
    fst (SandboxService.cleanup env w) = Returned tt
    /\ sandboxes (snd (SandboxService.cleanup env w)) = []
    /\ (NoDup (Map.keys (sandboxes w)) ->
        calls (snd (SandboxService.cleanup env w))
        = calls w ++ map (fun kv => SandboxKill (sandbox (snd kv))) (sandboxes w))
    /\ (forall sid,
          fst (SandboxService.terminateSandbox env sid w) = Returned tt
          /\ Map.get sid
               (sandboxes (snd (SandboxService.terminateSandbox env sid w)))
             = None).
Proof.
  intros w.
  set (w1 := mkWorld (sandboxes w) false (lastIndexes w) (clockReads w)
                     (uuidsMade w) (calls w)).
  set (loop := SandboxService.forEach (Map.keys (sandboxes w))
                 (fun sid => SandboxService.settled
                               (SandboxService.terminateSandbox env sid)) w1).
  assert (Hc : SandboxService.cleanup env w
               = (Returned tt, set_sandboxes [] (snd loop))).
  { unfold SandboxService.cleanup, SandboxService.clearInterval, bind, getWorld.
    fold w1. change (sandboxes w1) with (sandboxes w). fold loop.
    pose proof (forEach_settled (Map.keys (sandboxes w))
                  (SandboxService.terminateSandbox env) w1) as Hl.
    fold loop in Hl. destruct loop as [o w2]. simpl in Hl. subst o.
    reflexivity. }
  rewrite Hc. cbn [fst snd].
  split; [reflexivity|]. split; [reflexivity|]. split.
  - intros Hnd. subst loop.
    rewrite (@cleanup_loop (sandboxes w) w1 eq_refl Hnd). reflexivity.
  - intros sid. apply terminateSandbox_removes.
Qed.

End PoolFacts.

(** C5 on the demonstration provider, from the start of the process. *)
Lemma getOrCreateSandbox_twice_witness :
  exists h1 w1 h2 w2,
    SandboxService.getOrCreateSandbox Demo.quiet python None Demo.start
    = (Returned h1, w1)
    /\ sandboxes w1 = [(id h1, h1)]
    /\ language h1 = python
    /\ SandboxService.getOrCreateSandbox Demo.quiet python None w1
       = (Returned h2, w2)
    /\ id h2 = id h1
    /\ (lastUsed h1 <= lastUsed h2)%Z
    /\ sandboxes w2 = [(id h1, h2)]
    /\ calls w2 = calls w1
    /\ uuidsMade w2 = uuidsMade w1
    /\ lastUsed h2 = clock Demo.quiet (clockReads w1)
    /\ h2 = mkSandboxManager (id h1) (sandbox h1) (createdAt h1)
                             (clock Demo.quiet (clockReads w1)) (language h1)
    /\ clockReads w2 = S (clockReads w1).
Proof.
  apply (@getOrCreateSandbox_twice_reuses Demo.quiet Demo.start 0).
  - reflexivity.
  - reflexivity.
  - intros i j Hij. unfold Demo.quiet, Demo.provider, clock. lia.
Defined.

(** C10 on a registry of a JavaScript and a Python handle: Python is
    asked for with the identifier of the JavaScript handle. *)
Lemma getOrCreateSandbox_mismatch_witness :
  Map.get (js "js-1")
    (sandboxes (snd (SandboxService.getSandbox Demo.quiet (js "js-1")
                       Demo.two_handles)))
  = Some (mkSandboxManager (js "js-1") 7 10 1000 javascript).
Proof.
  refine (proj1 (proj2 (proj2
    (@getOrCreateSandbox_mismatch_bumps Demo.quiet Demo.two_handles
       (js "js-1") (mkSandboxManager (js "js-1") 7 10 20 javascript) python
       _ _ _)))).
  - vm_compute. discriminate.
  - vm_compute. reflexivity.
  - simpl. discriminate.
Defined.

(** C6 on two handles, the [kill] of the first of which throws. *)
Lemma cleanup_witness :
  calls (snd (SandboxService.cleanup Demo.flaky Demo.two_handles))
  = [SandboxKill 7; SandboxKill 8].
Proof.
  refine (proj1 (proj2 (proj2
    (@cleanup_empties_registry Demo.flaky Demo.two_handles))) _).
  vm_compute. repeat constructor; simpl; intuition discriminate.
Defined.

(* ===================================================================== *)
(** ** Properties of the tools *)
(* ===================================================================== *)

(** Decides the comparison of two literal tool names. *)
Ltac dispatch :=
  repeat match goal with
         | |- context [jseqb (js ?a) (js ?b)] =>
             let v := eval vm_compute in (jseqb (js a) (js b)) in
             change (jseqb (js a) (js b)) with v
         end;
  cbv iota.

Section GatewayFacts.

Variable env : Env.



(** X25: when [execute_python] gets a result from the provider, the
    output it returns is the collected output truncated to 10,000 code
    units and then sanitized: the truncation comes first. *)
Theorem executePython_sanitizes_truncated :
  forall (w : World) (args : Args) (code : jsstring) (v : Verdict)
         (w1 : World) (sb : SandboxManager) (w2 : World) (result : Execution),
    arg_code args = Some code ->
    code <> [] ->
    E2BTools.validateCode code python w = (Returned v, w1) ->
    isValid v = true ->
    SandboxService.getOrCreateSandbox env python (arg_sandbox_id args) w1
    = (Returned sb, w2) ->
    remote_runCode env (calls w2) (sandbox sb) code None = inr result ->
    fst (E2BTools.executeTool env (js "execute_python") args w)
    = Returned
        (mkResult
           (E2BTools.completedText
              (clock env (S (clockReads w2)) - clock env (clockReads w2))
              (id sb)
              (SecurityValidator.sanitizeOutput
                 (E2BTools.truncateOutput
                    (fst (E2BTools.collectOutput result)))))
           (snd (E2BTools.collectOutput result))).
Proof.
  intros w args code v w1 sb w2 result Hcode Hne Hv Hvalid Hsb Hrun.
  unfold E2BTools.executeTool. dispatch.
  unfold E2BTools.executePython. rewrite Hcode.
  destruct code as [|c code]; [congruence|].
  unfold try_catch at 1. unfold bind at 1. rewrite Hv.
  rewrite Hvalid. cbn [negb].
  unfold bind at 1. rewrite Hsb.
  unfold bind at 1, now at 1. cbv beta iota.
  unfold try_catch at 1, bind at 1, Sandbox_runCode at 1.
  cbn [calls]. rewrite Hrun. cbv beta iota. unfold of_sum. cbv beta iota.
  unfold bind at 1, now at 1. cbv beta iota.
  destruct (E2BTools.collectOutput result) as [output hasError].
  reflexivity.
Qed.

(** X16: when [execute_javascript] gets a result from the provider, it
    returns the collected output truncated to 10,000 code units, and
    nothing more is done to it: [sanitizeOutput] is not applied. *)
Lemma executeJavaScript_truncates_only
    (w : World) (args : Args) (code : jsstring) (v : Verdict)
    (w1 : World) (sb : SandboxManager) (w2 : World) (result : Execution) :
  arg_code args = Some code ->
  code <> [] ->
  E2BTools.validateCode code javascript w = (Returned v, w1) ->
  isValid v = true ->
  SandboxService.getOrCreateSandbox env javascript (arg_sandbox_id args) w1
  = (Returned sb, w2) ->
  remote_runCode env (calls w2) (sandbox sb) code (Some javascript) = inr result ->
  fst (E2BTools.executeTool env (js "execute_javascript") args w)
  = Returned
      (mkResult
         (E2BTools.completedText
            (clock env (S (clockReads w2)) - clock env (clockReads w2))
            (id sb)
            (E2BTools.truncateOutput (fst (E2BTools.collectOutput result))))
         (snd (E2BTools.collectOutput result))).
Proof.
  intros Hcode Hne Hv Hvalid Hsb Hrun.
  unfold E2BTools.executeTool. dispatch.
  unfold E2BTools.executeJavaScript. rewrite Hcode.
  destruct code as [|c code]; [congruence|].
  unfold try_catch at 1. unfold bind at 1. rewrite Hv.
  rewrite Hvalid. cbn [negb].
  unfold bind at 1. rewrite Hsb.
  unfold bind at 1, now at 1. cbv beta iota.
  unfold try_catch at 1, bind at 1, Sandbox_runCode at 1.
  cbn [calls]. rewrite Hrun. cbv beta iota. unfold of_sum. cbv beta iota.
  unfold bind at 1, now at 1. cbv beta iota.
  destruct (E2BTools.collectOutput result) as [output hasError].
  reflexivity.
Qed.

(** The tools that validate do so before anything is asked of the
    provider: a refused path, content, code or package list ends the call
    with a failure, the registry and the calls made as they were. *)
Lemma createFile_refused_path (w : World) (args : Args) (path content : jsstring) :
  arg_path args = Some path -> path <> [] ->
  arg_content args = Some content ->
  isValid (SecurityValidator.validateFilePath path) = false ->
  exists message w',
    E2BTools.executeTool env (js "create_file") args w
    = (Returned (mkResult message true), w')
    /\ calls w' = calls w /\ sandboxes w' = sandboxes w.
Proof.
  intros Hpath Hne Hcontent Hbad.
  unfold E2BTools.executeTool. dispatch.
  unfold E2BTools.createFile. rewrite Hpath, Hcontent.
  destruct path as [|c p]; [congruence|].
  rewrite Hbad. cbn [negb].
  eexists _, _. split; [reflexivity|]. split; reflexivity.
Qed.

Lemma createFile_refused_content (w : World) (args : Args)
    (path content : jsstring) :
  arg_path args = Some path -> path <> [] ->
  arg_content args = Some content ->
  isValid (SecurityValidator.validateFilePath path) = true ->
  isValid (fst (SecurityValidator.validateFileContent content)) = false ->
  exists message w',
    E2BTools.executeTool env (js "create_file") args w
    = (Returned (mkResult message true), w')
    /\ calls w' = calls w /\ sandboxes w' = sandboxes w.
Proof.
  intros Hpath Hne Hcontent Hok Hbad.
  unfold E2BTools.executeTool. dispatch.
  unfold E2BTools.createFile. rewrite Hpath, Hcontent.
  destruct path as [|c p]; [congruence|].
  rewrite Hok, Hbad. cbn [negb].
  eexists _, _. split; [reflexivity|]. split; reflexivity.
Qed.

Lemma installPackages_refused (w : World) (args : Args) (packages : list jsstring) :
  arg_packages args = Some packages -> packages <> [] ->
  isValid (fst (SecurityValidator.validatePackages packages (arg_language args)))
  = false ->
  exists message w',
    E2BTools.executeTool env (js "install_packages") args w
    = (Returned (mkResult message true), w')
    /\ calls w' = calls w /\ sandboxes w' = sandboxes w.
Proof.
  intros Hpk Hne Hbad.
  unfold E2BTools.executeTool. dispatch.
  unfold E2BTools.installPackages. rewrite Hpk.
  destruct packages as [|p ps]; [congruence|].
  rewrite Hbad. cbn [negb].
  eexists _, _. split; [reflexivity|]. split; reflexivity.
Qed.

Lemma execute_refused (w : World) (args : Args) (code : jsstring)
    (tool : jsstring) (lang : Language) :
  (tool = js "execute_python" /\ lang = python)
  \/ (tool = js "execute_javascript" /\ lang = javascript) ->
  arg_code args = Some code -> code <> [] ->
  isValid (fst (fst (SecurityValidator.validateCode (lastIndexes w) code lang)))
  = false ->
  exists message w',
    E2BTools.executeTool env tool args w = (Returned (mkResult message true), w')
    /\ calls w' = calls w /\ sandboxes w' = sandboxes w.
Proof.
  intros Htool Hcode Hne Hbad.
  destruct Htool as [[-> ->] | [-> ->]];
    unfold E2BTools.executeTool; dispatch;
    unfold E2BTools.executePython, E2BTools.executeJavaScript; rewrite Hcode;
    (destruct code as [|c code]; [congruence|]);
    unfold try_catch at 1; unfold bind at 1; unfold E2BTools.validateCode at 1;
    destruct (SecurityValidator.validateCode (lastIndexes w) (c :: code) _)
      as [[v st] ws]; cbn [fst] in Hbad; rewrite Hbad; cbn [negb];
    eexists _, _; (split; [reflexivity|]); split; reflexivity.
Qed.

(** [read_file] and [list_files] have no such step: whatever the path,
    once a sandbox is resolved the provider is asked to read or list it. *)
Lemma readFile_asks_provider (w : World) (args : Args) (path : jsstring)
    (sb : SandboxManager) (w1 : World) :
  arg_path args = Some path -> path <> [] ->
  SandboxService.getOrCreateSandbox env python (arg_sandbox_id args) w
  = (Returned sb, w1) ->
  calls (snd (E2BTools.executeTool env (js "read_file") args w))
  = calls w1 ++ [FilesRead (sandbox sb) path].
Proof.
  intros Hpath Hne Hsb.
  unfold E2BTools.executeTool. dispatch.
  unfold E2BTools.readFile. rewrite Hpath.
  destruct path as [|c p]; [congruence|].
  unfold try_catch at 1. unfold bind at 1. rewrite Hsb.
  unfold try_catch, bind, Sandbox_files_read.
  destruct (remote_read env (calls w1) (sandbox sb) (c :: p)); reflexivity.
Qed.

Lemma listFiles_asks_provider (w : World) (args : Args) (path : jsstring)
    (sb : SandboxManager) (w1 : World) :
  arg_path args = Some path ->
  SandboxService.getOrCreateSandbox env python (arg_sandbox_id args) w
  = (Returned sb, w1) ->
  calls (snd (E2BTools.executeTool env (js "list_files") args w))
  = calls w1 ++ [FilesList (sandbox sb) path].
Proof.
  intros Hpath Hsb.
  unfold E2BTools.executeTool. dispatch.
  unfold E2BTools.listFiles. rewrite Hpath.
  unfold try_catch at 1. unfold bind at 1. rewrite Hsb.
  unfold try_catch, bind, Sandbox_files_list.
  destruct (remote_list env (calls w1) (sandbox sb) path); reflexivity.
Qed.

End GatewayFacts.

Lemma executePython_sanitizes_truncated_witness :
  fst (E2BTools.executeTool (Demo.provider (Demo.printed Demo.a_key)
                                              (fun _ => None))
         (js "execute_python")
         (mkArgs (Some (js "print(key)")) None None None None python)
         Demo.start)
  = Returned
      (mkResult
         (js "Execution completed in 1ms" ++ nl ++ js "Sandbox ID: sandbox-0"
          ++ nl ++ nl ++ js "Output:" ++ nl ++ js "sk-***HIDDEN***" ++ nl)
         false).
Proof.
  etransitivity.
  - eapply (@executePython_sanitizes_truncated
              (Demo.provider (Demo.printed Demo.a_key) (fun _ => None))
              Demo.start _ (js "print(key)")).
    + reflexivity.
    + vm_compute. discriminate.
    + vm_compute. reflexivity.
    + reflexivity.
    + vm_compute. reflexivity.
    + vm_compute. reflexivity.
  - vm_compute. reflexivity.
Defined.

(** Of a key that straddles the limit of 10,000 code units,
    [execute_python] returns the part before the limit, which sanitizing
    before truncating would have masked. *)
Lemma executePython_truncates_before_sanitizing :
  let env := Demo.provider (Demo.printed Demo.long_output)
                              (fun _ => None) in
  let r := E2BTools.executeTool env (js "execute_python")
             (mkArgs (Some (js "print(key)")) None None None None python)
             Demo.start in
  let combined := fst (E2BTools.collectOutput (Demo.printed Demo.long_output)) in
  Demo.returnedError r = false
  /\ jseqb (Demo.returnedText r)
           (E2BTools.completedText 1 (js "sandbox-0")
              (E2BTools.truncateOutput
                 (SecurityValidator.sanitizeOutput combined)))
     = false
  /\ includes (js "sk-abcdefg") (Demo.returnedText r) = true
  /\ includes (js "sk-abcdefg")
       (E2BTools.truncateOutput (SecurityValidator.sanitizeOutput combined))
     = false.
Proof. vm_compute. repeat split. Qed.

(** [execute_javascript] returns the output as the provider gave it:
    [sanitizeOutput] is not applied on that path. *)
Lemma executeJavaScript_returns_raw_output :
  let env := Demo.provider (Demo.printed Demo.a_key) (fun _ => None) in
  let r := E2BTools.executeTool env (js "execute_javascript")
             (mkArgs (Some (js "console.log(key)")) None None None None python)
             Demo.start in
  Demo.returnedError r = false
  /\ includes Demo.a_key (Demo.returnedText r) = true
  /\ includes Demo.a_key
       (SecurityValidator.sanitizeOutput (Demo.returnedText r)) = false.
Proof. vm_compute. repeat split. Qed.

(** C2 fails on [read_file] and [list_files]: a path that
    [validateFilePath] refuses, and that [create_file] refuses with it,
    reaches the provider. *)
Lemma read_file_path_not_validated :
  let path := js "../../etc/passwd" in
  let read := E2BTools.executeTool Demo.quiet (js "read_file")
                (mkArgs None None (Some path) None None python) Demo.start in
  let list := E2BTools.executeTool Demo.quiet (js "list_files")
                (mkArgs None None (Some path) None None python) Demo.start in
  let create := E2BTools.executeTool Demo.quiet (js "create_file")
                  (mkArgs None None (Some path) (Some (js "x")) None python)
                  Demo.start in
  SecurityValidator.validateFilePath path
  = invalid (js "Directory traversal not allowed in file paths")
  /\ Demo.returnedError read = false
  /\ calls (snd read) = [SandboxCreate; FilesRead 0 path]
  /\ Demo.returnedError list = false
  /\ calls (snd list) = [SandboxCreate; FilesList 0 path]
  /\ Demo.returnedError create = true
  /\ calls (snd create) = [].
Proof. vm_compute. repeat split. Qed.

(** The scenario of the specification: a package name that is not one
    fails the validation, and nothing is asked of the provider. *)
Lemma install_packages_invalid_name :
  let r := E2BTools.executeTool Demo.quiet (js "install_packages")
             (mkArgs None None None None (Some [js "not a valid name!"]) python)
             Demo.start in
  Demo.returnedText r
  = js "Error: Package validation failed: Invalid Python package name: not a valid name!"
  /\ Demo.returnedError r = true
  /\ calls (snd r) = []
  /\ sandboxes (snd r) = [].
Proof. vm_compute. repeat split. Qed.



(* ===================================================================== *)
(** ** The matcher on the patterns of the sanitizer *)
(* ===================================================================== *)

Section MatcherFacts.

Variables ic at0 : bool.

Lemma rx_seqs_cons (r : regex) (l : list regex) k n s :
  rx ic at0 (seqs (r :: l)) k n s = rx ic at0 r (rx ic at0 (seqs l) k) n s.
Proof. destruct l; reflexivity. Qed.

Lemma rx_rep_S (m : nat) (r : regex) k n s :
  rx ic at0 (rep (S m) r) k n s = rx ic at0 r (rx ic at0 (rep m r) k) n s.
Proof. destruct m; reflexivity. Qed.

(** A literal either matches at the head and hands over what follows, or
    fails. *)
Lemma rx_literal (l : list ascii) k n s :
  rx ic at0 (seqs (map chr l)) k n s
  = if Mask.litmatch ic l s
    then k (n + List.length l) (skipn (List.length l) s)
    else None.
Proof.
  revert n s. induction l as [|a l IH]; intros n s.
  - simpl. now rewrite Nat.add_0_r.
  - cbn [map]. rewrite rx_seqs_cons. cbn [rx chr Mask.litmatch].
    destruct s as [|c s]; [reflexivity|].
    destruct (cmem ic false [(N_of_ascii a, N_of_ascii a)] c); [|reflexivity].
    rewrite IH. cbn [andb List.length skipn].
    now rewrite Nat.add_succ_r.
Qed.

(** [n] copies of a class either match and hand over what follows, or
    fail. *)
Lemma rx_times (neg : bool) (rs : list (N * N)) (m : nat) k n s :
  rx ic at0 (rep m (Chars neg rs)) k n s
  = if Mask.times ic neg rs m s then k (n + m) (skipn m s) else None.
Proof.
  revert n s. induction m as [|m IH]; intros n s.
  - simpl. now rewrite Nat.add_0_r.
  - rewrite rx_rep_S. cbn [rx Mask.times].
    destruct s as [|c s]; [reflexivity|].
    destruct (cmem ic neg rs c); [|reflexivity].
    rewrite IH. cbn [andb skipn]. now rewrite Nat.add_succ_r.
Qed.

(** A greedy star whose continuation refuses every string that begins in
    the class takes the longest run and never comes back. *)
Lemma rx_star_run (neg : bool) (rs : list (N * N)) k n s :
  (forall n' c s', cmem ic neg rs c = true -> k n' (c :: s') = None) ->
  rx ic at0 (Star neg rs) k n s
  = k (n + Mask.run ic neg rs s) (skipn (Mask.run ic neg rs s) s).
Proof.
  intros Hk. cbn [rx]. revert n. induction s as [|c s IH]; intros n.
  - simpl. now rewrite Nat.add_0_r.
  - cbn [star Mask.run].
    destruct (cmem ic neg rs c) eqn:E.
    + rewrite IH. cbn [skipn]. rewrite Nat.add_succ_r. cbn [Nat.add].
      destruct (k (S (n + Mask.run ic neg rs s)) (skipn (Mask.run ic neg rs s) s))
        eqn:K; [reflexivity|].
      now apply Hk.
    + simpl. now rewrite Nat.add_0_r.
Qed.

End MatcherFacts.

(** *** Character classes *)

Lemma in_ranges_iff (rs : list (N * N)) (c : N) :
  in_ranges rs c = true <-> Exists (fun r => (fst r <= c /\ c <= snd r)%N) rs.
Proof.
  unfold in_ranges. rewrite existsb_exists, Exists_exists.
  split; intros (r & Hin & H); exists r; split; try exact Hin;
    unfold in_range in *.
  - apply andb_true_iff in H. destruct H as [H1 H2].
    apply N.leb_le in H1, H2. now split.
  - apply andb_true_iff. split; apply N.leb_le; tauto.
Qed.

(** Turns the membership of a literal class into a statement that [lia]
    reads. *)
Ltac ranges_prop H :=
  rewrite in_ranges_iff in H;
  repeat rewrite Exists_cons in H; rewrite Exists_nil in H;
  cbn [fst snd] in H.

Ltac ranges_goal :=
  rewrite in_ranges_iff;
  repeat rewrite Exists_cons; rewrite Exists_nil;
  cbn [fst snd].

Lemma toUpper_cases (c : N) :
  ((97 <= c <= 122)%N /\ toUpper c = (c - 32)%N) \/
  (~ (97 <= c <= 122)%N /\ toUpper c = c).
Proof.
  unfold toUpper.
  destruct (N.leb_spec 97 c); destruct (N.leb_spec c 122); simpl;
    (left; split; [lia | reflexivity]) || (right; split; [lia | reflexivity]).
Qed.

Lemma toLower_cases (c : N) :
  ((65 <= c <= 90)%N /\ toLower c = (c + 32)%N) \/
  (~ (65 <= c <= 90)%N /\ toLower c = c).
Proof.
  unfold toLower.
  destruct (N.leb_spec 65 c); destruct (N.leb_spec c 90); simpl;
    (left; split; [lia | reflexivity]) || (right; split; [lia | reflexivity]).
Qed.

(** A class without letters is the same with and without the flag [i]. *)
Lemma cmem_letterless (neg : bool) (rs : list (N * N)) (c : N) :
  Mask.letterless rs -> cmem true neg rs c = cmem false neg rs c.
Proof.
  intros Hl. unfold cmem. cbn [andb orb].
  rewrite orb_false_r.
  destruct (in_ranges rs c) eqn:E; [reflexivity|]. cbn [orb].
  assert (H : in_ranges rs (toUpper c) || in_ranges rs (toLower c) = false).
  { apply orb_false_iff. split.
    - destruct (toUpper_cases c) as [[Hc ->] | [Hc ->]]; [|exact E].
      destruct (in_ranges rs (c - 32)) eqn:E'; [|reflexivity].
      apply Hl in E'. lia.
    - destruct (toLower_cases c) as [[Hc ->] | [Hc ->]]; [|exact E].
      destruct (in_ranges rs (c + 32)) eqn:E'; [|reflexivity].
      apply Hl in E'. lia. }
  now rewrite H.
Qed.

Lemma letterless_ws : Mask.letterless whitespace_ranges.
Proof. intros c H. unfold whitespace_ranges in H. ranges_prop H. lia. Qed.

Lemma letterless_colon_eq : Mask.letterless colon_eq.
Proof. intros c H. unfold colon_eq in H. ranges_prop H. lia. Qed.

Lemma letterless_quotes : Mask.letterless quotes.
Proof. intros c H. unfold quotes in H. ranges_prop H. lia. Qed.

Lemma cmem_plain (rs : list (N * N)) (c : N) :
  cmem false false rs c = in_ranges rs c.
Proof. unfold cmem. cbn [andb]. now rewrite orb_false_r. Qed.

Lemma cmem_negated (ic : bool) (rs : list (N * N)) (c : N) :
  cmem ic true rs c = negb (cmem ic false rs c).
Proof. reflexivity. Qed.

Lemma ws_not_sep (c : N) :
  cmem true false whitespace_ranges c = true -> cmem true false colon_eq c = false.
Proof.
  rewrite (@cmem_letterless false _ c letterless_ws),
    (@cmem_letterless false _ c letterless_colon_eq), !cmem_plain.
  intros H. apply not_true_iff_false. intros H'.
  unfold whitespace_ranges in H. unfold colon_eq in H'.
  ranges_prop H. ranges_prop H'. lia.
Qed.

Lemma ws_not_quote (c : N) :
  cmem true false whitespace_ranges c = true -> cmem true false quotes c = false.
Proof.
  rewrite (@cmem_letterless false _ c letterless_ws),
    (@cmem_letterless false _ c letterless_quotes), !cmem_plain.
  intros H. apply not_true_iff_false. intros H'.
  unfold whitespace_ranges in H. unfold quotes in H'.
  ranges_prop H. ranges_prop H'. lia.
Qed.

Lemma digit_not_letter (c : N) :
  cmem false false [(48, 57); (59, 59)]%N c = true ->
  cmem false false [(97, 122); (65, 90)]%N c = false.
Proof.
  rewrite !cmem_plain.
  intros H. apply not_true_iff_false. intros H'.
  ranges_prop H. ranges_prop H'. lia.
Qed.

(** *** Each pattern of the sanitizer is its function *)

Lemma match_keyed (pfx : string) (n : nat) (at0 : bool) (s : jsstring) :
  match_at false at0 (Seq (lit pfx) (rep n (Chars false alnum))) s
  = Mask.keyed pfx n s.
Proof.
  unfold match_at, lit, Mask.keyed. cbn [rx].
  rewrite rx_literal.
  destruct (Mask.litmatch false (list_ascii_of_string pfx) s); [|reflexivity].
  rewrite rx_times. cbn [andb Nat.add].
  destruct (Mask.times _ _ _ _ _); reflexivity.
Qed.

Lemma match_labelled (keyword : string) (at0 : bool) (s : jsstring) :
  match_at true at0 (SecurityValidator.labelled keyword) s
  = Mask.labelled_at keyword s.
Proof.
  unfold match_at, SecurityValidator.labelled, lit, Mask.labelled_at, ws_star.
  rewrite rx_seqs_cons, rx_literal.
  destruct (Mask.litmatch true (list_ascii_of_string keyword) s); [|reflexivity].
  cbn [Nat.add].
  set (l := List.length (list_ascii_of_string keyword)).
  rewrite rx_seqs_cons, rx_star_run.
  2:{ intros n' c s' Hc. rewrite rx_seqs_cons. cbn [rx].
      now rewrite (@ws_not_sep c Hc). }
  set (r1 := Mask.run true false whitespace_ranges (skipn l s)).
  rewrite rx_seqs_cons. cbn [rx].
  destruct (skipn r1 (skipn l s)) as [|c s2]; [reflexivity|].
  destruct (cmem true false colon_eq c); [|reflexivity].
  rewrite rx_seqs_cons, rx_star_run.
  2:{ intros n' c' s' Hc. rewrite rx_seqs_cons. cbn [rx].
      now rewrite (@ws_not_quote c' Hc). }
  set (r2 := Mask.run true false whitespace_ranges s2).
  rewrite rx_seqs_cons. cbn [rx].
  destruct (skipn r2 s2) as [|q s3]; [reflexivity|].
  destruct (cmem true false quotes q); [|destruct s3; reflexivity].
  rewrite rx_seqs_cons. cbn [rx].
  destruct s3 as [|c1 s4]; [reflexivity|].
  destruct (cmem true true quotes c1); [|reflexivity].
  rewrite rx_seqs_cons, rx_star_run.
  2:{ intros n' c' s' Hc. cbn [seqs rx]. rewrite cmem_negated in Hc.
      apply negb_true_iff in Hc. now rewrite Hc. }
  set (r3 := Mask.run true true quotes s4).
  cbn [seqs rx andb].
  destruct (skipn r3 s4) as [|q' s5] eqn:E5; [reflexivity|].
  assert (Hq : cmem true false quotes q' = true).
  { (* the run stops at a quote *)
    subst r3. clear - E5. revert q' s5 E5.
    induction s4 as [|x s4 IH]; intros q' s5 E5; [discriminate|].
    cbn [Mask.run] in E5.
    destruct (cmem true true quotes x) eqn:Ex.
    - cbn [skipn] in E5. eapply IH; eauto.
    - cbn [skipn] in E5. injection E5 as <- _.
      rewrite cmem_negated in Ex. now apply negb_false_iff in Ex. }
  rewrite Hq. f_equal. lia.
Qed.

Lemma match_ansi (at0 : bool) (s : jsstring) :
  match_at false at0 SecurityValidator.ansiEscapePattern s = Mask.ansi_at s.
Proof.
  unfold match_at, SecurityValidator.ansiEscapePattern, Mask.ansi_at, chr.
  rewrite rx_seqs_cons. cbn [rx].
  destruct s as [|e s]; [reflexivity|].
  destruct (cmem false false [(27, 27)%N] e); [|reflexivity].
  rewrite rx_seqs_cons. cbn [rx].
  destruct s as [|b s2]; [reflexivity|].
  change (N_of_ascii "[") with 91%N.
  destruct (cmem false false [(91, 91)%N] b); [|reflexivity].
  rewrite rx_seqs_cons, rx_star_run.
  2:{ intros n' c s' Hc. cbn [seqs rx]. now rewrite (@digit_not_letter c Hc). }
  cbn [seqs rx].
  destruct (skipn _ s2) as [|c s3]; [reflexivity|].
  destruct (cmem false false [(97, 122); (65, 90)]%N c); [|reflexivity].
  f_equal. lia.
Qed.

(** Settles a statement about each rule of a list by going through the
    list. *)
Ltac each_rule H :=
  repeat (destruct H as [<- | H]); [.. | destruct H].

(* ===================================================================== *)
(** ** The scan of a rule *)
(* ===================================================================== *)

Section ScanFacts.

Import Mask.

(** [replace] with a pattern is the scan of the function of the
    pattern. *)
Lemma replace_from_scan (ic : bool) (r : regex) (mark : jsstring)
    (at_ : jsstring -> option nat) :
  (forall at0 s, match_at ic at0 r s = at_ s) ->
  at_ [] = None ->
  (forall s, at_ s <> Some 0) ->
  forall at0 skip s,
    replace_from ic at0 r mark skip s = scan_from at_ mark skip s.
Proof.
  intros Hat Hnil Hpos at0 skip s. revert at0 skip.
  induction s as [|c s IH]; intros at0 skip.
  - destruct skip; cbn [replace_from scan_from]; [|reflexivity].
    rewrite Hat, Hnil. reflexivity.
  - destruct skip as [|skip]; cbn [replace_from scan_from].
    + rewrite Hat. destruct (at_ (c :: s)) as [[|len]|] eqn:E.
      * exfalso. exact (Hpos _ E).
      * now rewrite IH.
      * now rewrite IH.
    + apply IH.
Qed.

Variable r : rule.

Lemma scan_nil : scan r [] = [].
Proof. reflexivity. Qed.

Lemma scan_skip (u rest : jsstring) :
  scan_from (rule_at r) (rule_mark r) (List.length u) (u ++ rest) = scan r rest.
Proof.
  induction u as [|x u IH]; [reflexivity|]. exact IH.
Qed.

Lemma scan_keep (c : N) (s : jsstring) :
  rule_at r (c :: s) = None -> scan r (c :: s) = c :: scan r s.
Proof. unfold scan. cbn [scan_from]. now intros ->. Qed.

Lemma scan_hide (X rest : jsstring) :
  X <> [] ->
  rule_at r (X ++ rest) = Some (List.length X) ->
  scan r (X ++ rest) = rule_mark r ++ scan r rest.
Proof.
  destruct X as [|x X]; [congruence|]. intros _ H.
  unfold scan. cbn [scan_from app] in *. rewrite H. cbn [List.length].
  now rewrite scan_skip.
Qed.

Hypothesis r_local : local r.

(** An induction that follows the scan. *)
Lemma scan_ind (P : jsstring -> Prop) :
  P [] ->
  (forall c s, rule_at r (c :: s) = None -> P s -> P (c :: s)) ->
  (forall X rest, matched_by r X -> P rest -> P (X ++ rest)) ->
  forall s, P s.
Proof.
  intros Hnil Hkeep Hhide s.
  remember (List.length s) as n eqn:Hn. revert s Hn.
  induction n as [n IH] using lt_wf_ind. intros s Hn.
  destruct s as [|c s']; [exact Hnil|].
  destruct (rule_at r (c :: s')) as [m|] eqn:E.
  - destruct (r_local _ E) as (X & rest & Hs & Hm & HX).
    rewrite Hs. apply Hhide; [exact HX|].
    apply (IH (List.length rest)); [|reflexivity].
    subst n. rewrite Hs, length_app.
    destruct HX as [HX _]. destruct X; [congruence|]. simpl. lia.
  - apply Hkeep; [exact E|]. apply (IH (List.length s')); [|reflexivity].
    subst n. simpl. lia.
Qed.

End ScanFacts.

Section EverywhereFacts.

Import Mask.

Variable P : jsstring -> Prop.

Lemma everywhere_head (s : jsstring) : everywhere P s -> P s.
Proof. destruct s; simpl; tauto. Qed.

Lemma everywhere_tail (c : N) (s : jsstring) :
  everywhere P (c :: s) -> everywhere P s.
Proof. simpl. tauto. Qed.

Lemma everywhere_suffix (u s : jsstring) : everywhere P (u ++ s) -> everywhere P s.
Proof.
  induction u as [|x u IH]; [tauto|]. intros H. apply IH.
  exact (@everywhere_tail _ _ H).
Qed.

End EverywhereFacts.

Section Stability.

Import Mask.

(** What one rule leaves settled stays settled under the scan of
    another, given three facts about the two rules. *)
Variables ri rj : rule.

Hypothesis rj_local : local rj.
Hypothesis rj_rule : In rj rules.
Hypothesis ri_nil : rule_at ri [] = None.

(** A match of [ri] in a masked text was a match in the text. *)
Hypothesis ri_lifts :
  forall a b, masked a b -> rule_at ri b <> None -> rule_at ri a <> None.

(** The mark of [rj] gives [ri] nothing to change. *)
Hypothesis rj_mark_settled :
  forall t, everywhere (settled_at ri) t ->
            everywhere (settled_at ri) (rule_mark rj ++ t).

Lemma scan_masked (s : jsstring) : masked s (scan rj s).
Proof.
  induction s as [| c s Hc IH | X rest HX IH] using (@scan_ind rj rj_local).
  - constructor.
  - rewrite (@scan_keep rj c s Hc). now constructor.
  - rewrite (@scan_hide rj X rest (proj1 HX) (proj2 HX rest)).
    now apply masked_hide.
Qed.

Lemma scan_keeps_quiet (c : N) (s : jsstring) :
  rule_at ri (c :: s) = None -> rule_at ri (c :: scan rj s) = None.
Proof.
  intros Hq. destruct (rule_at ri (c :: scan rj s)) eqn:E; [|reflexivity].
  exfalso. apply (ri_lifts (a := c :: s) (b := c :: scan rj s)).
  - constructor. apply scan_masked.
  - rewrite E. discriminate.
  - exact Hq.
Qed.

(** The scan of a rule leaves its own matches settled. *)
Lemma scan_settles_own :
  ri = rj -> forall w, everywhere (settled_at ri) (scan rj w).
Proof.
  intros Heq w.
  induction w as [| c s Hc IH | X rest HX IH] using (@scan_ind rj rj_local).
  - simpl. split; [|exact I]. now left.
  - rewrite (@scan_keep rj c s Hc). simpl. split; [|exact IH].
    left. apply scan_keeps_quiet. now rewrite Heq.
  - rewrite (@scan_hide rj X rest (proj1 HX) (proj2 HX rest)).
    now apply rj_mark_settled.
Qed.

(** The scan of [rj] goes through the mark of [ri]. *)
Hypothesis rj_passes :
  rule_mark ri <> [] ->
  forall rest, scan rj (rule_mark ri ++ rest) = rule_mark ri ++ scan rj rest.

Lemma scan_keeps_settled (w : jsstring) :
  everywhere (settled_at ri) w -> everywhere (settled_at ri) (scan rj w).
Proof.
  induction w as [| c s Hc IH | X rest HX IH] using (@scan_ind rj rj_local);
    intros Hw.
  - exact Hw.
  - pose proof (@scan_keep rj c s Hc) as Hscan.
    rewrite Hscan. simpl. split; [|apply IH; exact (@everywhere_tail _ _ _ Hw)].
    destruct (@everywhere_head _ _ Hw) as [Hq | [Hm [rest Hrest]]].
    + left. now apply scan_keeps_quiet.
    + right. split; [exact Hm|].
      rewrite <- Hscan, Hrest, (rj_passes Hm). now eexists.
  - rewrite (@scan_hide rj X rest (proj1 HX) (proj2 HX rest)).
    apply rj_mark_settled, IH. exact (@everywhere_suffix _ _ _ Hw).
Qed.

End Stability.

Section Fixed.

Import Mask.

Variable r : rule.

Hypothesis r_passes :
  rule_mark r <> [] ->
  forall rest, scan r (rule_mark r ++ rest) = rule_mark r ++ scan r rest.

(** Where a rule has nothing to change, its scan changes nothing. *)
Lemma scan_fixed (w : jsstring) : everywhere (settled_at r) w -> scan r w = w.
Proof.
  remember (List.length w) as n eqn:Hn. revert w Hn.
  induction n as [n IH] using lt_wf_ind. intros w Hn Hw.
  destruct w as [|c s]; [reflexivity|].
  destruct (@everywhere_head _ _ Hw) as [Hq | [Hm [rest Hrest]]].
  - rewrite (@scan_keep r c s Hq). f_equal.
    apply (IH (List.length s)); [subst n; simpl; lia | reflexivity |].
    exact (@everywhere_tail _ _ _ Hw).
  - rewrite Hrest, (r_passes Hm). f_equal.
    apply (IH (List.length rest)); [|reflexivity|].
    + subst n. rewrite Hrest, length_app.
      destruct (rule_mark r); [congruence | simpl; lia].
    + rewrite Hrest in Hw. exact (@everywhere_suffix _ _ _ Hw).
Qed.

End Fixed.

Section Erasing.

Import Mask.

(** A rule whose mark is empty, and what its scan says when it changes
    nothing. *)
Variable r : rule.
Hypothesis r_erases : rule_mark r = [].
Hypothesis r_nil : rule_at r [] = None.
Hypothesis r_positive : forall s, rule_at r s <> Some 0.

Lemma scan_from_shorter (skip : nat) (s : jsstring) :
  List.length (scan_from (rule_at r) (rule_mark r) skip s) <= List.length s - skip.
Proof.
  rewrite r_erases.
  revert skip. induction s as [|c s IH]; intros skip.
  - destruct skip; simpl; lia.
  - destruct skip as [|skip]; cbn [scan_from].
    + destruct (rule_at r (c :: s)) as [[|len]|].
      * simpl. specialize (IH 0). lia.
      * simpl. specialize (IH len). lia.
      * simpl. specialize (IH 0). lia.
    + simpl. apply IH.
Qed.

Lemma unchanged_settled (w : jsstring) :
  scan r w = w -> everywhere (settled_at r) w.
Proof.
  induction w as [|c s IH]; intros Hw.
  - simpl. split; [now left | exact I].
  - unfold scan in Hw. cbn [scan_from] in Hw.
    destruct (rule_at r (c :: s)) as [[|len]|] eqn:E.
    + exfalso. exact (r_positive _ E).
    + exfalso.
      pose proof (scan_from_shorter len s) as Hlen.
      rewrite r_erases in Hw, Hlen. simpl in Hw. rewrite Hw in Hlen.
      simpl in Hlen. lia.
    + injection Hw as Hw. simpl. split; [now left | now apply IH].
Qed.

End Erasing.

(* ===================================================================== *)
(** ** The rules of the sanitizer are local *)
(* ===================================================================== *)

Section Pieces.

Import Mask.

Lemma skipn_length_app (k t : jsstring) : skipn (List.length k) (k ++ t) = t.
Proof. induction k; simpl; auto. Qed.

Lemma litmatch_split (ic : bool) (l : list ascii) (s : jsstring) :
  litmatch ic l s = true ->
  exists k s0, s = k ++ s0 /\ List.length k = List.length l
               /\ forall t, litmatch ic l (k ++ t) = true.
Proof.
  revert s. induction l as [|a l IH]; intros s H.
  - exists [], s. repeat split.
  - destruct s as [|c s]; [discriminate|]. cbn [litmatch] in H.
    apply andb_true_iff in H. destruct H as [Hc Hl].
    destruct (IH _ Hl) as (k & s0 & -> & Hlen & Hk).
    exists (c :: k), s0. repeat split; [simpl; now rewrite Hlen|].
    intros t. cbn [litmatch app]. now rewrite Hc, Hk.
Qed.

Lemma times_split (ic neg : bool) (rs : list (N * N)) (n : nat) (s : jsstring) :
  times ic neg rs n s = true ->
  exists body s1, s = body ++ s1 /\ List.length body = n
                  /\ forall t, times ic neg rs n (body ++ t) = true.
Proof.
  revert s. induction n as [|n IH]; intros s H.
  - exists [], s. repeat split.
  - destruct s as [|c s]; [discriminate|]. cbn [times] in H.
    apply andb_true_iff in H. destruct H as [Hc Hn].
    destruct (IH _ Hn) as (body & s1 & -> & Hlen & Hb).
    exists (c :: body), s1. repeat split; [simpl; now rewrite Hlen|].
    intros t. cbn [times app]. now rewrite Hc, Hb.
Qed.

(** The longest run of a class: what it covers, where it stops. *)
Lemma run_split (ic neg : bool) (rs : list (N * N)) (s : jsstring) :
  exists w, s = w ++ skipn (run ic neg rs s) s
            /\ List.length w = run ic neg rs s
            /\ (forall c t, cmem ic neg rs c = false ->
                            run ic neg rs (w ++ c :: t) = List.length w)
            /\ match skipn (run ic neg rs s) s with
               | c :: _ => cmem ic neg rs c = false
               | [] => True
               end.
Proof.
  induction s as [|x s IH].
  - exists []. simpl. repeat split. intros c t ->. reflexivity.
  - cbn [run]. destruct (cmem ic neg rs x) eqn:E.
    + destruct IH as (w & Hs & Hlen & Hrun & Hstop).
      exists (x :: w). cbn [skipn app List.length]. repeat split.
      * now rewrite <- Hs.
      * now rewrite Hlen.
      * intros c t Hc. cbn [run]. now rewrite E, Hrun.
      * exact Hstop.
    + exists []. simpl. repeat split; [|exact E].
      intros c t ->. reflexivity.
Qed.

End Pieces.

Section Locality.

Import Mask.

Lemma keyed_local (pfx : string) (n : nat) (mark : jsstring) :
  0 < n -> local (mkRule (keyed pfx n) mark).
Proof.
  intros Hn s m H. cbn [rule_at] in *. unfold keyed in H.
  set (l := list_ascii_of_string pfx) in *.
  destruct (litmatch false l s) eqn:Hl; [|discriminate].
  destruct (times false false alnum n (skipn (List.length l) s)) eqn:Ht;
    [|discriminate].
  injection H as <-.
  destruct (litmatch_split _ _ _ Hl) as (k & s0 & -> & Hk & Hlit).
  rewrite <- Hk, skipn_length_app in Ht.
  destruct (times_split _ _ _ _ _ Ht) as (body & s1 & -> & Hb & Htimes).
  exists (k ++ body), s1. split; [now rewrite app_assoc|].
  split; [rewrite length_app; lia|].
  split.
  - destruct body; [simpl in Hb; lia|]. now destruct k.
  - intros rest. cbn [rule_at]. unfold keyed. fold l.
    rewrite <- app_assoc, Hlit, <- Hk, skipn_length_app, Htimes.
    cbn [andb]. rewrite length_app. f_equal. lia.
Qed.

Lemma sep_not_ws (c : N) :
  cmem true false colon_eq c = true -> cmem true false whitespace_ranges c = false.
Proof.
  intros H. destruct (cmem true false whitespace_ranges c) eqn:E; [|reflexivity].
  rewrite (ws_not_sep c E) in H. discriminate.
Qed.

Lemma quote_not_ws (c : N) :
  cmem true false quotes c = true -> cmem true false whitespace_ranges c = false.
Proof.
  intros H. destruct (cmem true false whitespace_ranges c) eqn:E; [|reflexivity].
  rewrite (ws_not_quote c E) in H. discriminate.
Qed.

Lemma labelled_local (keyword : string) (mark : jsstring) :
  local (mkRule (labelled_at keyword) mark).
Proof.
  intros s m H. cbn [rule_at] in *. unfold labelled_at in H.
  set (l := list_ascii_of_string keyword) in *.
  destruct (litmatch true l s) eqn:Hl; [|discriminate].
  destruct (litmatch_split _ _ _ Hl) as (k & s0 & -> & Hk & Hlit).
  rewrite <- Hk, skipn_length_app in H.
  destruct (run_split true false whitespace_ranges s0)
    as (w1 & Hs0 & Hw1 & Hrun1 & _).
  destruct (skipn (run true false whitespace_ranges s0) s0) as [|c s2] eqn:E1;
    [discriminate|].
  destruct (cmem true false colon_eq c) eqn:Hc; [|discriminate].
  destruct (run_split true false whitespace_ranges s2)
    as (w2 & Hs2 & Hw2 & Hrun2 & _).
  destruct (skipn (run true false whitespace_ranges s2) s2) as [|q [|c1 s4]] eqn:E2;
    try discriminate.
  destruct (cmem true false quotes q) eqn:Hq; [|discriminate].
  destruct (cmem true true quotes c1) eqn:Hc1; [|discriminate].
  cbn [andb] in H.
  destruct (run_split true true quotes s4) as (w3 & Hs4 & Hw3 & Hrun3 & Hstop).
  destruct (skipn (run true true quotes s4) s4) as [|q' s6] eqn:E3;
    [discriminate|].
  injection H as <-.
  exists (k ++ w1 ++ c :: w2 ++ q :: c1 :: w3 ++ [q']), s6.
  assert (Hlen : List.length (k ++ w1 ++ c :: w2 ++ q :: c1 :: w3 ++ [q'])
                 = List.length k + run true false whitespace_ranges s0 + 1
                   + run true false whitespace_ranges s2 + 1 + 1
                   + run true true quotes s4 + 1).
  { repeat (rewrite length_app || cbn [List.length]). lia. }
  split.
  { rewrite Hs0, Hs2, Hs4 at 1. repeat (rewrite <- app_assoc || cbn [app]).
    reflexivity. }
  split; [exact Hlen|].
  split.
  { intros Hnil. apply (f_equal (@List.length N)) in Hnil.
    rewrite Hlen in Hnil. simpl in Hnil. lia. }
  intros rest. cbn [rule_at]. unfold labelled_at. fold l.
  repeat (rewrite <- app_assoc || cbn [app]).
  rewrite Hlit, <- Hk, skipn_length_app.
  rewrite (Hrun1 c _ (sep_not_ws c Hc)), skipn_length_app, Hc.
  rewrite (Hrun2 q _ (quote_not_ws q Hq)), skipn_length_app, Hq, Hc1.
  cbn [andb].
  rewrite (Hrun3 q' _ Hstop), skipn_length_app.
  f_equal. rewrite Hlen, Hw1, Hw2, Hw3. reflexivity.
Qed.

End Locality.

(* ===================================================================== *)
(** ** The marks of the rules *)
(* ===================================================================== *)

Section MarkFacts.

Import Mask.

(** The scan of a rule goes through the mark of any rule. *)
Lemma scan_passes_marks (ri rj : rule) :
  In ri rules -> In rj rules ->
  forall rest, scan rj (rule_mark ri ++ rest) = rule_mark ri ++ scan rj rest.
Proof.
  intros Hi Hj rest. each_rule Hi; each_rule Hj; reflexivity.
Qed.

(** No rule finds anything to change inside the mark of a rule. *)
Lemma marks_settled (ri rj : rule) :
  In ri (rule_ansi :: rules) -> In rj rules ->
  forall t, everywhere (settled_at ri) t ->
            everywhere (settled_at ri) (rule_mark rj ++ t).
Proof.
  intros Hi Hj t Ht.
  each_rule Hi; each_rule Hj;
    cbn [rule_mark rule_sk rule_ghp rule_password rule_api_key];
    unfold SecurityValidator.hidden, dq;
    cbn [js list_ascii_of_string map N_of_ascii app N_of_digits];
    repeat (split;
            [ first [ left; reflexivity
                    | right; split; [discriminate | eexists; reflexivity] ] | ]);
    exact Ht.
Qed.

End MarkFacts.

(* ===================================================================== *)
(** ** A match in a masked text was a match in the text *)
(* ===================================================================== *)

Section Letters.

Import Mask.

(** A character that matches a letter is a letter, with or without the
    flag [i]; likewise for a letter or a digit. *)
Lemma single_cases (ic : bool) (a c : N) :
  cmem ic false [(a, a)] c = true -> c = a \/ toUpper c = a \/ toLower c = a.
Proof.
  unfold cmem. intros H.
  apply orb_true_iff in H. destruct H as [H | H].
  - ranges_prop H. left. lia.
  - apply andb_true_iff in H. destruct H as [_ H].
    apply orb_true_iff in H. destruct H as [H | H]; ranges_prop H.
    + right. left. lia.
    + right. right. lia.
Qed.

Lemma single_letter (ic : bool) (a c : N) :
  cmem ic false [(a, a)] c = true ->
  in_ranges letters a = true -> in_ranges letters c = true.
Proof.
  intros H Ha. apply single_cases in H. unfold letters in *.
  ranges_prop Ha. ranges_goal.
  destruct (toUpper_cases c) as [[? ?] | [? ?]];
    destruct (toLower_cases c) as [[? ?] | [? ?]]; lia.
Qed.

Lemma single_alnum (ic : bool) (a c : N) :
  cmem ic false [(a, a)] c = true ->
  in_ranges alnum a = true -> in_ranges alnum c = true.
Proof.
  intros H Ha. apply single_cases in H. unfold alnum in *.
  ranges_prop Ha. ranges_goal.
  destruct (toUpper_cases c) as [[? ?] | [? ?]];
    destruct (toLower_cases c) as [[? ?] | [? ?]]; lia.
Qed.

Lemma letter_alnum (c : N) : in_ranges letters c = true -> in_ranges alnum c = true.
Proof.
  unfold letters, alnum. intros H. ranges_prop H. ranges_goal. lia.
Qed.

Lemma no_letter_ws : no_letter true false whitespace_ranges.
Proof.
  intros c H. rewrite (@cmem_letterless false _ c letterless_ws), cmem_plain in H.
  apply not_true_iff_false. intros H'. unfold whitespace_ranges, letters in *.
  ranges_prop H. ranges_prop H'. lia.
Qed.

Lemma no_letter_sep : no_letter true false colon_eq.
Proof.
  intros c H.
  rewrite (@cmem_letterless false _ c letterless_colon_eq), cmem_plain in H.
  apply not_true_iff_false. intros H'. unfold colon_eq, letters in *.
  ranges_prop H. ranges_prop H'. lia.
Qed.

Lemma no_letter_quote : no_letter true false quotes.
Proof.
  intros c H.
  rewrite (@cmem_letterless false _ c letterless_quotes), cmem_plain in H.
  apply not_true_iff_false. intros H'. unfold quotes, letters in *.
  ranges_prop H. ranges_prop H'. lia.
Qed.

Lemma no_letter_digits : no_letter false false [(48, 57); (59, 59)]%N.
Proof.
  intros c H. rewrite cmem_plain in H.
  apply not_true_iff_false. intros H'. unfold letters in *.
  ranges_prop H. ranges_prop H'. lia.
Qed.

Lemma no_letter_esc : no_letter false false [(27, 27)]%N.
Proof.
  intros c H. rewrite cmem_plain in H.
  apply not_true_iff_false. intros H'. unfold letters in *.
  ranges_prop H. ranges_prop H'. lia.
Qed.

Lemma no_letter_bracket : no_letter false false [(91, 91)]%N.
Proof.
  intros c H. rewrite cmem_plain in H.
  apply not_true_iff_false. intros H'. unfold letters in *.
  ranges_prop H. ranges_prop H'. lia.
Qed.

(** *** The heads of the marks and of the matched texts *)

Lemma mark_head (r : rule) :
  In r rules ->
  exists m0 M, rule_mark r = m0 :: M /\ in_ranges letters m0 = true.
Proof.
  intros H. each_rule H; eexists _, _; split; reflexivity.
Qed.

Lemma litmatch_head (ic : bool) (a : ascii) (l : list ascii) (s : jsstring) :
  litmatch ic (a :: l) s = true ->
  exists x0 s', s = x0 :: s'
                /\ cmem ic false [(N_of_ascii a, N_of_ascii a)] x0 = true.
Proof.
  destruct s as [|x0 s']; [discriminate|]. cbn [litmatch].
  intros H. apply andb_true_iff in H. now exists x0, s'.
Qed.

Lemma keyed_literal (pfx : string) (n : nat) (s : jsstring) (m : nat) :
  keyed pfx n s = Some m -> litmatch false (list_ascii_of_string pfx) s = true.
Proof.
  unfold keyed. destruct (litmatch false _ s); [reflexivity | discriminate].
Qed.

Lemma labelled_literal (keyword : string) (s : jsstring) (m : nat) :
  labelled_at keyword s = Some m ->
  litmatch true (list_ascii_of_string keyword) s = true.
Proof.
  unfold labelled_at. destruct (litmatch true _ s); [reflexivity | discriminate].
Qed.

Lemma rules_literal (r : rule) :
  In r rules ->
  exists ic a l,
    rule_literal r ic (a :: l)
    /\ in_ranges letters (N_of_ascii a) = true
    /\ times false false alnum (run false false alnum (rule_mark r))
             (map N_of_ascii (a :: l)) = true.
Proof.
  intros H. each_rule H.
  - exists false, "s"%char, ["k"; "-"]%char. split; [|split; reflexivity].
    intros s m. apply keyed_literal.
  - exists false, "g"%char, ["h"; "p"; "_"]%char. split; [|split; reflexivity].
    intros s m. apply keyed_literal.
  - exists true, "p"%char, ["a"; "s"; "s"; "w"; "o"; "r"; "d"]%char.
    split; [|split; reflexivity]. intros s m. apply labelled_literal.
  - exists true, "a"%char, ["p"; "i"; "_"; "k"; "e"; "y"]%char.
    split; [|split; reflexivity]. intros s m. apply labelled_literal.
Qed.

Lemma matched_head (r : rule) (X : jsstring) :
  In r rules -> matched_by r X ->
  exists x0 X', X = x0 :: X' /\ in_ranges letters x0 = true.
Proof.
  intros Hr [Hne HX].
  destruct (@rules_literal r Hr) as (ic & a & l & Hlit & Ha & _).
  specialize (HX []). rewrite app_nil_r in HX. apply Hlit in HX.
  destruct (@litmatch_head _ _ _ _ HX) as (x0 & X' & -> & Hx).
  exists x0, X'. split; [reflexivity|]. exact (@single_letter _ _ _ Hx Ha).
Qed.

Lemma times_le (ic neg : bool) (rs : list (N * N)) (m n : nat) (s : jsstring) :
  times ic neg rs n s = true -> m <= n -> times ic neg rs m s = true.
Proof.
  revert n s. induction m as [|m IH]; intros n s H Hle; [reflexivity|].
  destruct n as [|n]; [lia|]. destruct s as [|c s]; [discriminate|].
  cbn [times] in *. apply andb_true_iff in H. destruct H as [-> H].
  cbn [andb]. apply (IH n); [exact H | lia].
Qed.

Lemma literal_times (ic : bool) (l : list ascii) (s : jsstring) (p : nat) :
  litmatch ic l s = true ->
  times false false alnum p (map N_of_ascii l) = true ->
  times false false alnum p s = true.
Proof.
  revert l s. induction p as [|p IH]; intros l s Hl Hp; [reflexivity|].
  destruct l as [|a l]; [discriminate|].
  destruct s as [|c s]; [discriminate|].
  cbn [litmatch map times] in *.
  apply andb_true_iff in Hl. destruct Hl as [Hc Hl].
  apply andb_true_iff in Hp. destruct Hp as [Ha Hp].
  rewrite cmem_plain in *. rewrite (@single_alnum _ _ _ Hc Ha). cbn [andb].
  now apply (IH l).
Qed.

(** The letters and digits that start a mark start the matched text. *)
Lemma matched_alnum (r : rule) (X t : jsstring) :
  In r rules -> matched_by r X ->
  times false false alnum (run false false alnum (rule_mark r)) (X ++ t) = true.
Proof.
  intros Hr [Hne HX].
  destruct (@rules_literal r Hr) as (ic & a & l & Hlit & _ & Hp).
  apply (@literal_times ic (a :: l)); [|exact Hp].
  exact (Hlit _ _ (HX t)).
Qed.

(** The letters and digits that start a mark are all it has of them
    before something else. *)
Lemma mark_alnum_bound (r : rule) (t : jsstring) (m : nat) :
  In r rules ->
  times false false alnum m (rule_mark r ++ t) = true ->
  m <= run false false alnum (rule_mark r).
Proof.
  intros Hr H.
  destruct (Nat.le_gt_cases m (run false false alnum (rule_mark r)))
    as [Hle | Hgt]; [exact Hle|].
  exfalso.
  assert (H' : times false false alnum
                 (S (run false false alnum (rule_mark r))) (rule_mark r ++ t)
               = true) by (apply (@times_le _ _ _ _ _ _ H); lia).
  clear - Hr H'. each_rule Hr; discriminate.
Qed.

End Letters.

Section Lifting.

Import Mask.

(** A character of the masked text that is not a letter is a character
    of the text. *)
Lemma head_lift (c : N) (a b : jsstring) :
  masked a (c :: b) -> in_ranges letters c = false ->
  exists a', a = c :: a' /\ masked a' b.
Proof.
  intros H Hc. inversion H as [| c' a' b' Hm | r X a0 b0 Hr HX Hm Ha Hb]; subst.
  - now exists a'.
  - exfalso. destruct (@mark_head r Hr) as (m0 & M & HM & Hm0).
    rewrite HM in Hb. injection Hb as -> _. congruence.
Qed.

(** The runs of a class without letters at the heads of the two texts
    are the same. *)
Lemma run_lift (ic neg : bool) (rs : list (N * N)) (a b : jsstring) :
  no_letter ic neg rs -> masked a b ->
  masked (skipn (run ic neg rs a) a) (skipn (run ic neg rs b) b).
Proof.
  intros Hcls H. induction H as [| c a b Hm IH | r X a b Hr HX Hm IH].
  - constructor.
  - cbn [run]. destruct (cmem ic neg rs c); [exact IH | now constructor].
  - destruct (@mark_head r Hr) as (m0 & M & HM & Hm0).
    destruct (@matched_head r X Hr HX) as (x0 & X' & -> & Hx0).
    assert (E1 : cmem ic neg rs m0 = false).
    { destruct (cmem ic neg rs m0) eqn:E; [|reflexivity].
      apply Hcls in E. congruence. }
    assert (E2 : cmem ic neg rs x0 = false).
    { destruct (cmem ic neg rs x0) eqn:E; [|reflexivity].
      apply Hcls in E. congruence. }
    replace (run ic neg rs ((x0 :: X') ++ a)) with 0
      by (cbn [app run]; now rewrite E2).
    replace (run ic neg rs (rule_mark r ++ b)) with 0
      by (rewrite HM; cbn [app run]; now rewrite E1).
    now apply masked_hide.
Qed.

(** Where no mark starts like a literal, the literal is read in the text
    as it is in the masked text. *)
Lemma literal_lift (ic : bool) (l : list ascii) (a b : jsstring) :
  marks_clear ic l -> masked a b -> litmatch ic l b = true ->
  litmatch ic l a = true
  /\ masked (skipn (List.length l) a) (skipn (List.length l) b).
Proof.
  revert a b. induction l as [|x l IH]; intros a b Hclear H Hl.
  - now split.
  - destruct Hclear as [Hhere Hclear].
    inversion H as [| c a' b' Hm | r X a0 b0 Hr HX Hm]; subst.
    + discriminate.
    + cbn [litmatch] in *. apply andb_true_iff in Hl. destruct Hl as [-> Hl].
      destruct (IH _ _ Hclear Hm Hl) as [Hla Hma]. now split.
    + rewrite (Hhere r b0 Hr) in Hl. discriminate.
Qed.

Lemma times_lift (n : nat) (a b : jsstring) :
  masked a b -> times false false alnum n b = true ->
  times false false alnum n a = true.
Proof.
  revert a b. induction n as [|n IH]; intros a b H Hn; [reflexivity|].
  inversion H as [| c a' b' Hm | r X a0 b0 Hr HX Hm]; subst.
  - discriminate.
  - cbn [times] in *. apply andb_true_iff in Hn. destruct Hn as [-> Hn].
    cbn [andb]. exact (IH _ _ Hm Hn).
  - apply (@times_le _ _ _ (S n) (run false false alnum (rule_mark r))).
    + now apply matched_alnum.
    + exact (@mark_alnum_bound r b0 (S n) Hr Hn).
Qed.

(** A quote in the masked text was a quote in the text. *)
Lemma labelled_has_quote (keyword : string) (s : jsstring) (m : nat) :
  labelled_at keyword s = Some m -> existsb (cmem true false quotes) s = true.
Proof.
  assert (Hskip : forall n (u : jsstring),
             existsb (cmem true false quotes) (skipn n u) = true ->
             existsb (cmem true false quotes) u = true).
  { induction n as [|n IH]; intros u; [tauto|].
    destruct u as [|x u]; [tauto|]. cbn [skipn existsb]. intros H.
    rewrite (IH _ H). apply orb_true_r. }
  unfold labelled_at.
  destruct (litmatch true _ s); [|discriminate].
  set (s0 := skipn _ s).
  destruct (skipn _ s0) as [|c s2] eqn:E1; [discriminate|].
  destruct (cmem true false colon_eq c); [|discriminate].
  destruct (skipn _ s2) as [|q [|c1 s4]] eqn:E2; try discriminate.
  destruct (cmem true false quotes q) eqn:Hq; [|discriminate].
  intros _.
  apply (Hskip (List.length (list_ascii_of_string keyword)) s). fold s0.
  apply (Hskip (run true false whitespace_ranges s0) s0). rewrite E1.
  cbn [existsb]. apply orb_true_iff. right.
  apply (Hskip (run true false whitespace_ranges s2) s2). rewrite E2.
  cbn [existsb]. now rewrite Hq.
Qed.

Lemma letter_not_quote (c : N) :
  in_ranges letters c = true -> cmem true false quotes c = false.
Proof.
  intros H. destruct (cmem true false quotes c) eqn:E; [|reflexivity].
  apply no_letter_quote in E. congruence.
Qed.

Lemma matched_quote (r : rule) (X : jsstring) :
  In r rules -> matched_by r X ->
  existsb (cmem true false quotes) (tl (rule_mark r)) = true ->
  existsb (cmem true false quotes) (tl X) = true.
Proof.
  intros Hr HX Hq.
  destruct (@matched_head r X Hr HX) as (x0 & X' & -> & Hx0).
  destruct HX as [_ HX]. specialize (HX []). rewrite app_nil_r in HX.
  assert (H : existsb (cmem true false quotes) (x0 :: X') = true).
  { clear Hx0. each_rule Hr; try discriminate;
      exact (@labelled_has_quote _ _ _ HX). }
  cbn [existsb tl] in *. now rewrite (letter_not_quote _ Hx0) in H.
Qed.

Lemma quote_lift (a b : jsstring) :
  masked a b ->
  existsb (cmem true false quotes) b = true ->
  existsb (cmem true false quotes) a = true.
Proof.
  intros H. induction H as [| c a b Hm IH | r X a b Hr HX Hm IH].
  - tauto.
  - cbn [existsb]. intros Hq. apply orb_true_iff in Hq. apply orb_true_iff.
    tauto.
  - rewrite !existsb_app. intros Hq. apply orb_true_iff in Hq.
    apply orb_true_iff. destruct Hq as [Hq | Hq]; [left | right; tauto].
    destruct (@mark_head r Hr) as (m0 & M & HM & Hm0).
    destruct (@matched_head r X Hr HX) as (x0 & X' & HXeq & Hx0).
    pose proof (@matched_quote r X Hr HX) as Htl.
    rewrite HM in Hq, Htl. rewrite HXeq in *. cbn [existsb tl] in *.
    rewrite (letter_not_quote _ Hm0) in Hq. cbn [orb] in Hq.
    rewrite (Htl Hq). apply orb_true_r.
Qed.

(** The run of what is not a quote stops at a quote, if there is one. *)
Lemma run_stops_at_quote (s : jsstring) :
  existsb (cmem true false quotes) s = true <->
  skipn (run true true quotes s) s <> [].
Proof.
  induction s as [|c s IH]; [simpl; split; [discriminate | congruence]|].
  cbn [existsb run]. rewrite cmem_negated.
  destruct (cmem true false quotes c); cbn [negb orb skipn].
  - split; [discriminate | reflexivity].
  - exact IH.
Qed.

End Lifting.

Section RuleLifts.

Import Mask.

(** *** The rules of [sk-] and [ghp_] *)

Lemma keyed_lifts (pfx : string) (n : nat) (x : ascii) (l : list ascii) :
  list_ascii_of_string pfx = x :: l ->
  marks_clear false l ->
  (forall r t, In r rules -> keyed pfx n (rule_mark r ++ t) = None) ->
  forall a b, masked a b -> keyed pfx n b <> None -> keyed pfx n a <> None.
Proof.
  intros Hpfx Hclear Hmarks a b H Hb.
  inversion H as [| c a' b' Hm | r X a0 b0 Hr HX Hm]; subst.
  - exact Hb.
  - unfold keyed in *. rewrite Hpfx in *. cbn [litmatch List.length skipn] in *.
    destruct (cmem false false [(N_of_ascii x, N_of_ascii x)] c);
      [|now cbn [andb] in Hb].
    cbn [andb] in *.
    destruct (litmatch false l b') eqn:Hl; [|now cbn [andb] in Hb].
    destruct (@literal_lift false l a' b' Hclear Hm Hl) as [-> Hm'].
    cbn [andb] in *.
    destruct (times false false alnum n (skipn (List.length l) b')) eqn:Ht;
      [|congruence].
    rewrite (@times_lift n _ _ Hm' Ht). discriminate.
  - rewrite (Hmarks r b0 Hr) in Hb. congruence.
Qed.

(** *** The rules of [password] and [api_key] *)

Lemma labelled_iff (keyword : string) (s : jsstring) :
  labelled_at keyword s <> None <->
  litmatch true (list_ascii_of_string keyword) s = true
  /\ tail_ok (skipn (List.length (list_ascii_of_string keyword)) s).
Proof.
  unfold labelled_at, tail_ok.
  set (l := list_ascii_of_string keyword).
  set (s0 := skipn (List.length l) s).
  split.
  - destruct (litmatch true l s); [|congruence].
    destruct (skipn (run true false whitespace_ranges s0) s0) as [|c s2] eqn:E1;
      [congruence|].
    destruct (cmem true false colon_eq c) eqn:Hc; [|congruence].
    destruct (skipn (run true false whitespace_ranges s2) s2) as [|q [|c1 s4]]
      eqn:E2; try congruence.
    destruct (cmem true false quotes q) eqn:Hq; [|cbn [andb]; congruence].
    destruct (cmem true true quotes c1) eqn:Hc1; [|cbn [andb]; congruence].
    cbn [andb].
    destruct (skipn (run true true quotes s4) s4) as [|q' s6] eqn:E3;
      [congruence|].
    intros _. split; [reflexivity|].
    exists c, s2, q, c1, s4. repeat split; try assumption.
    apply run_stops_at_quote. rewrite E3. discriminate.
  - intros [-> (c & s2 & q & c1 & s4 & -> & -> & -> & -> & -> & Hex)].
    cbn [andb]. apply run_stops_at_quote in Hex.
    destruct (skipn (run true true quotes s4) s4); [congruence | discriminate].
Qed.

Lemma tail_lift (a b : jsstring) : masked a b -> tail_ok b -> tail_ok a.
Proof.
  intros H (c & s2 & q & c1 & s4 & E1 & Hc & E2 & Hq & Hc1 & Hex).
  pose proof (@run_lift true false whitespace_ranges a b no_letter_ws H) as H1.
  rewrite E1 in H1.
  destruct (@head_lift c _ s2 H1 (no_letter_sep c Hc)) as (a2 & Ea1 & H2).
  pose proof (@run_lift true false whitespace_ranges a2 s2 no_letter_ws H2) as H3.
  rewrite E2 in H3.
  destruct (@head_lift q _ (c1 :: s4) H3 (no_letter_quote q Hq)) as (a3 & Ea2 & H4).
  inversion H4 as [| c1' a4 b4 Hm | r X a0 b0 Hr HX Hm Ha Hb]; subst.
  - exists c, a2, q, c1, a4. repeat split; try assumption.
    exact (@quote_lift a4 s4 Hm Hex).
  - destruct (@mark_head r Hr) as (m0 & M & HM & Hm0).
    destruct (@matched_head r X Hr HX) as (x0 & X' & HXeq & Hx0).
    rewrite HM in Hb. cbn [app] in Hb. injection Hb as -> <-.
    rewrite HXeq in *. cbn [app] in *.
    exists c, a2, q, x0, (X' ++ a0). repeat split; try assumption.
    + rewrite cmem_negated, (letter_not_quote x0 Hx0). reflexivity.
    + rewrite existsb_app in *. apply orb_true_iff in Hex.
      apply orb_true_iff. destruct Hex as [Hex | Hex].
      * left. apply (@matched_quote r (x0 :: X') Hr HX). now rewrite HM.
      * right. exact (@quote_lift a0 b0 Hm Hex).
Qed.

Lemma labelled_lifts (keyword : string) (x : ascii) (l : list ascii) :
  list_ascii_of_string keyword = x :: l ->
  marks_clear true l ->
  (forall r, In r rules ->
             (forall t, labelled_at keyword (rule_mark r ++ t) = None)
             \/ rule_at r = labelled_at keyword) ->
  forall a b, masked a b ->
              labelled_at keyword b <> None -> labelled_at keyword a <> None.
Proof.
  intros Hkw Hclear Hmarks a b H Hb.
  inversion H as [| c a' b' Hm | r X a0 b0 Hr HX Hm]; subst.
  - exact Hb.
  - apply labelled_iff in Hb. apply labelled_iff. rewrite Hkw in *.
    destruct Hb as [Hl Ht]. cbn [litmatch List.length skipn] in *.
    apply andb_true_iff in Hl. destruct Hl as [-> Hl]. cbn [andb].
    destruct (@literal_lift true l a' b' Hclear Hm Hl) as [-> Hm'].
    split; [reflexivity|]. exact (@tail_lift _ _ Hm' Ht).
  - destruct (Hmarks r Hr) as [Hnone | Hown].
    + rewrite Hnone in Hb. congruence.
    + rewrite <- Hown. destruct HX as [_ HX]. rewrite HX. discriminate.
Qed.

(** *** The escape sequences *)

Lemma ansi_lifts (a b : jsstring) :
  masked a b -> ansi_at b <> None -> ansi_at a <> None.
Proof.
  intros H Hb. unfold ansi_at in Hb.
  destruct b as [|e [|br s2]]; try congruence.
  { destruct (cmem false false [(27, 27)%N] e); congruence. }
  destruct (cmem false false [(27, 27)%N] e) eqn:He; [|congruence].
  destruct (cmem false false [(91, 91)%N] br) eqn:Hbr; [|congruence].
  destruct (@head_lift e a (br :: s2) H (no_letter_esc e He)) as (a1 & -> & H1).
  destruct (@head_lift br a1 s2 H1 (no_letter_bracket br Hbr)) as (a2 & -> & H2).
  pose proof (@run_lift false false [(48, 57); (59, 59)]%N a2 s2
                no_letter_digits H2) as H3.
  unfold ansi_at. rewrite He, Hbr.
  destruct (skipn (run false false [(48, 57); (59, 59)]%N s2) s2) as [|c s3];
    [congruence|].
  destruct (cmem false false [(97, 122); (65, 90)]%N c) eqn:Hc; [|congruence].
  inversion H3 as [| c' a4 b4 Hm Ha Hb' | r X a0 b0 Hr HX Hm Ha Hb']; subst.
  - rewrite Hc. discriminate.
  - destruct (@matched_head r X Hr HX) as (x0 & X' & -> & Hx0).
    cbn [app]. rewrite cmem_plain. change [(97, 122); (65, 90)]%N with letters.
    rewrite Hx0. discriminate.
Qed.

End RuleLifts.

(* ===================================================================== *)
(** ** The sanitizer applied twice *)
(* ===================================================================== *)

Section Sanitizer.

Import Mask.

Lemma rules_local (r : rule) : In r rules -> local r.
Proof.
  intros H. each_rule H.
  - apply keyed_local. lia.
  - apply keyed_local. lia.
  - apply labelled_local.
  - apply labelled_local.
Qed.

Lemma rules_nil (r : rule) : In r (rule_ansi :: rules) -> rule_at r [] = None.
Proof. intros H. each_rule H; reflexivity. Qed.

Lemma rules_positive (r : rule) (s : jsstring) :
  In r (rule_ansi :: rules) -> rule_at r s <> Some 0.
Proof.
  intros H. each_rule H; cbn [rule_at rule_ansi rule_sk rule_ghp rule_password
                               rule_api_key].
  - unfold ansi_at. destruct s as [|e [|b s2]]; try discriminate.
    + destruct (cmem _ _ _ e); discriminate.
    + destruct (cmem _ _ _ e); [|discriminate].
      destruct (cmem _ _ _ b); [|discriminate].
      destruct (skipn _ s2); [discriminate|].
      destruct (cmem _ _ _ _); discriminate.
  - unfold keyed. destruct (_ && _); discriminate.
  - unfold keyed. destruct (_ && _); discriminate.
  - intros E. destruct (@labelled_local "password" [] s 0 E)
      as (X & rest & _ & Hlen & HX & _).
    destruct X; [congruence | discriminate].
  - intros E. destruct (@labelled_local "api_key" [] s 0 E)
      as (X & rest & _ & Hlen & HX & _).
    destruct X; [congruence | discriminate].
Qed.

Lemma rules_lift (r : rule) :
  In r (rule_ansi :: rules) ->
  forall a b, masked a b -> rule_at r b <> None -> rule_at r a <> None.
Proof.
  intros H. each_rule H; cbn [rule_at rule_ansi rule_sk rule_ghp rule_password
                               rule_api_key].
  - exact ansi_lifts.
  - apply (@keyed_lifts "sk-" 48 "s"%char ["k"; "-"]%char eq_refl).
    + cbn [marks_clear]. repeat split;
        intros r t Hr; each_rule Hr; reflexivity.
    + intros r t Hr. each_rule Hr; reflexivity.
  - apply (@keyed_lifts "ghp_" 36 "g"%char ["h"; "p"; "_"]%char eq_refl).
    + cbn [marks_clear]. repeat split;
        intros r t Hr; each_rule Hr; reflexivity.
    + intros r t Hr. each_rule Hr; reflexivity.
  - apply (@labelled_lifts "password" "p"%char
             ["a"; "s"; "s"; "w"; "o"; "r"; "d"]%char eq_refl).
    + cbn [marks_clear]. repeat split;
        intros r t Hr; each_rule Hr; reflexivity.
    + intros r Hr. each_rule Hr;
        first [right; reflexivity | left; intros t; reflexivity].
  - apply (@labelled_lifts "api_key" "a"%char
             ["p"; "i"; "_"; "k"; "e"; "y"]%char eq_refl).
    + cbn [marks_clear]. repeat split;
        intros r t Hr; each_rule Hr; reflexivity.
    + intros r Hr. each_rule Hr;
        first [right; reflexivity | left; intros t; reflexivity].
Qed.

(** [replace] with each pattern of the sanitizer is the scan of its
    rule. *)
Lemma strip_scan (s : jsstring) : stripAnsi s = scan rule_ansi s.
Proof.
  unfold stripAnsi, replace_g, scan.
  apply replace_from_scan.
  - exact match_ansi.
  - reflexivity.
  - intros s'. apply (@rules_positive rule_ansi). now left.
Qed.

Lemma sanitizeOutput_scans (output : jsstring) :
  SecurityValidator.sanitizeOutput output
  = scan rule_api_key
      (scan rule_password (scan rule_ghp (scan rule_sk (scan rule_ansi output)))).
Proof.
  unfold SecurityValidator.sanitizeOutput, SecurityValidator.maskPatterns.
  cbn [fold_left fst snd].
  change (replace_g false SecurityValidator.ansiEscapePattern [] output)
    with (stripAnsi output).
  rewrite strip_scan. unfold replace_g, scan.
  rewrite (@replace_from_scan false _ (js "sk-***HIDDEN***") (keyed "sk-" 48)
             (match_keyed "sk-" 48) eq_refl
             (fun s => @rules_positive rule_sk s (or_intror (or_introl eq_refl)))).
  rewrite (@replace_from_scan false _ (js "ghp_***HIDDEN***") (keyed "ghp_" 36)
             (match_keyed "ghp_" 36) eq_refl
             (fun s => @rules_positive rule_ghp s
                         (or_intror (or_intror (or_introl eq_refl))))).
  rewrite (@replace_from_scan true _ (SecurityValidator.hidden "password")
             (labelled_at "password") (match_labelled "password") eq_refl
             (fun s => @rules_positive rule_password s
                         (or_intror (or_intror (or_intror (or_introl eq_refl)))))).
  rewrite (@replace_from_scan true _ (SecurityValidator.hidden "api_key")
             (labelled_at "api_key") (match_labelled "api_key") eq_refl
             (fun s => @rules_positive rule_api_key s
                         (or_intror (or_intror (or_intror (or_intror
                            (or_introl eq_refl))))))).
  reflexivity.
Qed.

(** The scan of a rule leaves every rule settled that was, and its own. *)
Lemma scan_settled (ri rj : rule) (w : jsstring) :
  In ri (rule_ansi :: rules) -> In rj rules ->
  everywhere (settled_at ri) w -> everywhere (settled_at ri) (scan rj w).
Proof.
  intros Hi Hj. apply scan_keeps_settled.
  - now apply rules_local.
  - exact Hj.
  - now apply rules_lift.
  - now apply marks_settled.
  - intros Hm rest. apply scan_passes_marks; [|exact Hj].
    destruct Hi as [<- | Hi]; [now exfalso | exact Hi].
Qed.

Lemma scan_settles (r : rule) (w : jsstring) :
  In r rules -> everywhere (settled_at r) (scan r w).
Proof.
  intros Hr. apply (@scan_settles_own r r).
  - now apply rules_local.
  - exact Hr.
  - apply rules_nil. now right.
  - apply rules_lift. now right.
  - apply marks_settled; [now right | exact Hr].
  - reflexivity.
Qed.

Lemma settled_fixed (r : rule) (w : jsstring) :
  In r (rule_ansi :: rules) -> everywhere (settled_at r) w -> scan r w = w.
Proof.
  intros Hr. apply scan_fixed. intros Hm rest.
  destruct Hr as [<- | Hr]; [now exfalso|].
  now apply scan_passes_marks.
Qed.

(** A text without the escape character has no escape sequence. *)
Lemma strip_without_escape (x : jsstring) :
  ~ In 27%N x -> everywhere (settled_at rule_ansi) x.
Proof.
  induction x as [|c x IH]; intros Hx.
  - simpl. split; [now left | exact I].
  - simpl. split.
    + left. cbn [rule_at rule_ansi]. unfold ansi_at.
      destruct (cmem false false [(27, 27)%N] c) eqn:E; [|reflexivity].
      exfalso. apply Hx. left. rewrite cmem_plain in E. ranges_prop E. lia.
    + apply IH. intros H. apply Hx. now right.
Qed.

Lemma sanitizeOutput_again (x : jsstring) :
  everywhere (settled_at rule_ansi) (scan rule_ansi x) ->
  SecurityValidator.sanitizeOutput (SecurityValidator.sanitizeOutput x)
  = SecurityValidator.sanitizeOutput x.
Proof.
  intros H0. rewrite !sanitizeOutput_scans.
  set (z := scan rule_ansi x) in *.
  assert (Hsk : In rule_sk rules) by (cbn; tauto).
  assert (Hghp : In rule_ghp rules) by (cbn; tauto).
  assert (Hpw : In rule_password rules) by (cbn; tauto).
  assert (Hapi : In rule_api_key rules) by (cbn; tauto).
  assert (Hall : forall r, In r rules -> In r (rule_ansi :: rules))
    by (intros r Hr; now right).
  assert (Hansi : In rule_ansi (rule_ansi :: rules)) by now left.
  set (y2 := scan rule_sk z).
  set (y3 := scan rule_ghp y2).
  set (y4 := scan rule_password y3).
  set (y5 := scan rule_api_key y4).
  assert (A2 : everywhere (settled_at rule_ansi) y2)
    by (apply scan_settled; assumption).
  assert (A3 : everywhere (settled_at rule_ansi) y3)
    by (apply scan_settled; assumption).
  assert (A4 : everywhere (settled_at rule_ansi) y4)
    by (apply scan_settled; assumption).
  assert (A5 : everywhere (settled_at rule_ansi) y5)
    by (apply scan_settled; assumption).
  assert (S2 : everywhere (settled_at rule_sk) y2) by now apply scan_settles.
  assert (S3 : everywhere (settled_at rule_sk) y3)
    by (apply scan_settled; auto).
  assert (S4 : everywhere (settled_at rule_sk) y4)
    by (apply scan_settled; auto).
  assert (S5 : everywhere (settled_at rule_sk) y5)
    by (apply scan_settled; auto).
  assert (G3 : everywhere (settled_at rule_ghp) y3) by now apply scan_settles.
  assert (G4 : everywhere (settled_at rule_ghp) y4)
    by (apply scan_settled; auto).
  assert (G5 : everywhere (settled_at rule_ghp) y5)
    by (apply scan_settled; auto).
  assert (P4 : everywhere (settled_at rule_password) y4)
    by now apply scan_settles.
  assert (P5 : everywhere (settled_at rule_password) y5)
    by (apply scan_settled; auto).
  assert (K5 : everywhere (settled_at rule_api_key) y5)
    by now apply scan_settles.
  rewrite (@settled_fixed rule_ansi y5 Hansi A5).
  rewrite (@settled_fixed rule_sk y5 (Hall _ Hsk) S5).
  rewrite (@settled_fixed rule_ghp y5 (Hall _ Hghp) G5).
  rewrite (@settled_fixed rule_password y5 (Hall _ Hpw) P5).
  exact (@settled_fixed rule_api_key y5 (Hall _ Hapi) K5).
Qed.

(** X26: sanitizing twice is sanitizing once for every output from
    which the first pass removes every escape sequence, that is when
    stripping the stripped output changes nothing; this holds of every
    output without the escape character.  And the four marks are left
    as they are by the sanitizer. *)
Theorem sanitizeOutput_idempotent_once_stripped :
  (forall x : jsstring,
      stripAnsi (stripAnsi x) = stripAnsi x ->
      SecurityValidator.sanitizeOutput (SecurityValidator.sanitizeOutput x)
      = SecurityValidator.sanitizeOutput x)
  /\ (forall x : jsstring,
         ~ In 27%N x ->
         SecurityValidator.sanitizeOutput (SecurityValidator.sanitizeOutput x)
         = SecurityValidator.sanitizeOutput x)
  /\ (forall rule : bool * regex * jsstring,
         In rule SecurityValidator.maskPatterns ->
         SecurityValidator.sanitizeOutput (snd rule) = snd rule).
Proof.
  assert (Hansi : In rule_ansi (rule_ansi :: rules)) by now left.
  split; [|split].
  - intros x Hx. apply sanitizeOutput_again.
    rewrite !strip_scan in Hx.
    apply unchanged_settled; [reflexivity | now apply rules_nil | | exact Hx].
    intros s. now apply rules_positive.
  - intros x Hx. apply sanitizeOutput_again.
    rewrite (@settled_fixed rule_ansi x Hansi (@strip_without_escape x Hx)).
    now apply strip_without_escape.
  - intros rule Hr. unfold SecurityValidator.maskPatterns in Hr.
    each_rule Hr; vm_compute; reflexivity.
Qed.

End Sanitizer.

Lemma sanitizeOutput_idempotent_witness :
  let x := [27%N] ++ js "[31mpassword = 'hunter2'" ++ [27%N] ++ js "[0m" in
  SecurityValidator.sanitizeOutput (SecurityValidator.sanitizeOutput x)
  = SecurityValidator.sanitizeOutput x.
Proof.
  apply (proj1 sanitizeOutput_idempotent_once_stripped).
  vm_compute. reflexivity.
Defined.

(** Stripping the escape sequences of [ESC ESC [ 0 m [ 0 m] leaves
    [ESC [ 0 m], and a second pass removes it. *)
Lemma sanitizeOutput_not_idempotent :
  let x := [27; 27]%N ++ js "[0m[0m" in
  SecurityValidator.sanitizeOutput x = [27%N] ++ js "[0m"
  /\ SecurityValidator.sanitizeOutput (SecurityValidator.sanitizeOutput x) = []
  /\ SecurityValidator.sanitizeOutput (SecurityValidator.sanitizeOutput x)
     <> SecurityValidator.sanitizeOutput x.
Proof. vm_compute. repeat split. discriminate. Qed.

(* ===================================================================== *)
(** ** More on the sandbox pool *)
(* ===================================================================== *)

Section RegistryFacts.

Import Notions.

Lemma Map_get_In (k : jsstring) (v : SandboxManager) (m : Map.t) :
  Map.get k m = Some v -> In (k, v) m.
Proof.
  induction m as [|[k' v'] m IH]; simpl; [discriminate|].
  destruct (jseqb k' k) eqn:E.
  - apply jseqb_eq in E. subst. intros H. injection H as ->. now left.
  - intros H. right. now apply IH.
Qed.

Lemma Map_get_absent (k : jsstring) (m : Map.t) :
  ~ In k (Map.keys m) -> Map.get k m = None.
Proof.
  induction m as [|[k' v'] m IH]; simpl; [reflexivity|].
  intros H. rewrite jseqb_neq by tauto. apply IH. tauto.
Qed.

Lemma Map_get_present (k : jsstring) (m : Map.t) :
  In k (Map.keys m) -> exists v, Map.get k m = Some v.
Proof.
  induction m as [|[k' v'] m IH]; simpl; [tauto|].
  destruct (jseqb k' k) eqn:E; [eauto|].
  intros [H | H]; [|now apply IH].
  subst. rewrite jseqb_refl in E. discriminate.
Qed.

Lemma Map_set_absent (k : jsstring) (v : SandboxManager) (m : Map.t) :
  Map.get k m = None -> Map.set k v m = m ++ [(k, v)].
Proof.
  induction m as [|[k' v'] m IH]; simpl; [reflexivity|].
  destruct (jseqb k' k); [discriminate|]. intros H. now rewrite IH.
Qed.

Lemma Map_get_none_keys (k : jsstring) (m : Map.t) :
  Map.get k m = None -> ~ In k (Map.keys m).
Proof.
  intros H Hin. apply Map_get_present in Hin. destruct Hin as [v Hv].
  congruence.
Qed.

Lemma Map_get_id (k : jsstring) (v : SandboxManager) (m : Map.t) :
  well_formed m -> Map.get k m = Some v -> id v = k.
Proof.
  intros [_ Hid] H. apply Map_get_In in H.
  rewrite Forall_forall in Hid. exact (Hid _ H).
Qed.

Lemma well_formed_set (k : jsstring) (v : SandboxManager) (m : Map.t) :
  well_formed m -> id v = k -> well_formed (Map.set k v m).
Proof.
  intros [Hnd Hid] Hv.
  destruct (Map.get k m) as [v0|] eqn:G.
  - destruct (@Map_set_split k v v0 m G) as (before & after & Hm & Hset & _).
    rewrite Hset. rewrite Hm in Hnd, Hid. split.
    + unfold Map.keys in *. rewrite map_app in *. exact Hnd.
    + apply Forall_app in Hid. destruct Hid as [H1 H2].
      apply Forall_app. split; [exact H1|].
      inversion H2; subst. now constructor.
  - rewrite (@Map_set_absent k v m G). split.
    + unfold Map.keys. rewrite map_app. simpl.
      apply NoDup_app; [exact Hnd | repeat constructor; simpl; tauto |].
      intros x Hx [<- | []]. exact (@Map_get_none_keys _ _ G Hx).
    + apply Forall_app. split; [exact Hid|]. now repeat constructor.
Qed.

Lemma well_formed_delete (k : jsstring) (m : Map.t) :
  well_formed m -> well_formed (Map.delete k m).
Proof.
  intros [Hnd Hid]. unfold Map.delete. split.
  - unfold Map.keys in *. induction m as [|[k' v'] m IH]; simpl; [constructor|].
    inversion Hnd; subst. inversion Hid; subst.
    destruct (jseqb k' k); simpl; [now apply IH|].
    constructor; [|now apply IH].
    intros Hin. apply in_map_iff in Hin. destruct Hin as ([k2 v2] & <- & Hin).
    apply filter_In in Hin. destruct Hin as [Hin _].
    match goal with H : ~ In _ _ |- _ => apply H end.
    apply in_map_iff. now exists (k2, v2).
  - rewrite Forall_forall in *. intros x Hx. apply filter_In in Hx.
    now apply Hid.
Qed.

Lemma touchFirst_keys (lang : Language) (t : Z) (m : Map.t) :
  Map.keys (SandboxService.touchFirst lang t m) = Map.keys m.
Proof.
  unfold Map.keys. induction m as [|[k v] m IH]; simpl; [reflexivity|].
  destruct (Language_eqb (language v) lang); simpl; [reflexivity|].
  now rewrite IH.
Qed.

Lemma well_formed_touchFirst (lang : Language) (t : Z) (m : Map.t) :
  well_formed m -> well_formed (SandboxService.touchFirst lang t m).
Proof.
  intros [Hnd Hid]. split; [now rewrite touchFirst_keys|].
  induction m as [|[k v] m IH]; simpl; [constructor|].
  inversion Hid; subst. inversion Hnd; subst.
  destruct (Language_eqb (language v) lang); constructor; auto.
Qed.

End RegistryFacts.

Section PoolMore.

Import Notions.

Variable env : Env.

Lemma Map_get_delete_other (k k' : jsstring) (m : Map.t) :
  k' <> k -> Map.get k' (Map.delete k m) = Map.get k' m.
Proof.
  intros Hne. induction m as [|[k0 v0] m IH]; simpl; [reflexivity|].
  destruct (jseqb k0 k) eqn:E; simpl.
  - apply jseqb_eq in E. subst k0.
    rewrite jseqb_neq; [exact IH | congruence].
  - destruct (jseqb k0 k'); [reflexivity | exact IH].
Qed.

Lemma terminateSandbox_known (sid : jsstring) (h : SandboxManager) (w : World) :
  Map.get sid (sandboxes w) = Some h ->
  SandboxService.terminateSandbox env sid w
  = (Returned tt,
     set_sandboxes (Map.delete sid (sandboxes w))
                   (record (SandboxKill (sandbox h)) w)).
Proof.
  intros G. unfold SandboxService.terminateSandbox, bind, getWorld.
  rewrite G. unfold try_catch, bind, Sandbox_kill, modifyRegistry.
  destruct (remote_kill env (calls w) (sandbox h)); reflexivity.
Qed.

Lemma terminateSandbox_unknown (sid : jsstring) (w : World) :
  Map.get sid (sandboxes w) = None ->
  SandboxService.terminateSandbox env sid w = (Returned tt, w).
Proof.
  intros G. unfold SandboxService.terminateSandbox, bind, getWorld.
  now rewrite G.
Qed.

(** X2: [terminateSandbox] never throws.  Of an identifier that is not
    registered it changes nothing and asks nothing of the provider; of a
    registered one it asks the provider once to kill the session and
    removes the entry, whether the provider fails or not; every other
    identifier resolves as before. *)
Theorem terminateSandbox_effect (sid : jsstring) (w : World) :
  let w' := snd (SandboxService.terminateSandbox env sid w) in
  fst (SandboxService.terminateSandbox env sid w) = Returned tt
  /\ Map.get sid (sandboxes w') = None
  /\ (forall k, k <> sid -> Map.get k (sandboxes w') = Map.get k (sandboxes w))
  /\ calls w'
     = calls w ++ match Map.get sid (sandboxes w) with
                  | Some h => [SandboxKill (sandbox h)]
                  | None => []
                  end
  /\ (Map.get sid (sandboxes w) = None -> w' = w).
Proof.
  destruct (Map.get sid (sandboxes w)) as [h|] eqn:G.
  - rewrite (@terminateSandbox_known sid h w G). cbn [fst snd].
    repeat split.
    + apply Map_get_delete_same.
    + intros k Hk. now apply Map_get_delete_other.
    + discriminate.
  - rewrite (@terminateSandbox_unknown sid w G). cbn [fst snd].
    repeat split; auto. now rewrite app_nil_r.
Qed.

(** *** The sweep of the idle sandboxes *)

Lemma forEach_terminate (ks : list jsstring) (w : World) :
  NoDup ks ->
  SandboxService.forEach ks (SandboxService.terminateSandbox env) w
  = (Returned tt,
     mkWorld (fold_left (fun m k => Map.delete k m) ks (sandboxes w))
             (cleanupInterval w) (lastIndexes w) (clockReads w) (uuidsMade w)
             (calls w ++ flat_map (killed (sandboxes w)) ks)).
Proof.
  revert w. induction ks as [|k ks IH]; intros w Hnd.
  - simpl. rewrite app_nil_r. now destruct w.
  - inversion Hnd as [|? ? Hnin Hnd']; subst.
    cbn [SandboxService.forEach]. unfold bind at 1.
    assert (Hother : forall m, flat_map (killed (Map.delete k m)) ks
                               = flat_map (killed m) ks).
    { intros m. clear IH Hnd Hnd'. induction ks as [|a ks IHks]; [reflexivity|].
      cbn [flat_map]. rewrite IHks by (simpl in Hnin; tauto).
      unfold killed at 1 3.
      rewrite Map_get_delete_other; [reflexivity|].
      intros ->. apply Hnin. now left. }
    destruct (Map.get k (sandboxes w)) as [h|] eqn:G.
    + rewrite (@terminateSandbox_known k h w G).
      rewrite (IH _ Hnd'). cbn [flat_map fold_left].
      unfold killed at 2. rewrite G.
      unfold set_sandboxes, record. cbn [sandboxes cleanupInterval lastIndexes
        clockReads uuidsMade calls].
      rewrite Hother. now rewrite <- app_assoc.
    + rewrite (@terminateSandbox_unknown k w G).
      rewrite (IH _ Hnd'). cbn [flat_map fold_left].
      unfold killed at 2. rewrite G. cbn [app].
      rewrite Map_delete_absent by (now apply Map_get_none_keys).
      reflexivity.
Qed.

Lemma delete_all (ks : list jsstring) (m : Map.t) :
  fold_left (fun m k => Map.delete k m) ks m
  = filter (fun kv => negb (existsb (jseqb (fst kv)) ks)) m.
Proof.
  revert m. induction ks as [|k ks IH]; intros m; cbn [fold_left existsb].
  - induction m as [|kv m IHm]; simpl; [reflexivity|]. now f_equal.
  - rewrite IH. unfold Map.delete.
    induction m as [|kv m IHm]; simpl; [reflexivity|].
    destruct (jseqb (fst kv) k); simpl; rewrite IHm; reflexivity.
Qed.

Lemma NoDup_keys_functional (m : Map.t) (k : jsstring) (v v' : SandboxManager) :
  NoDup (Map.keys m) -> In (k, v) m -> In (k, v') m -> v = v'.
Proof.
  unfold Map.keys. induction m as [|[k0 v0] m IH]; simpl; [tauto|].
  intros Hnd H1 H2. inversion Hnd as [|? ? Hnin Hnd']; subst.
  destruct H1 as [H1 | H1], H2 as [H2 | H2].
  - congruence.
  - injection H1 as -> ->. exfalso. apply Hnin.
    apply in_map_iff. now exists (k, v').
  - injection H2 as -> ->. exfalso. apply Hnin.
    apply in_map_iff. now exists (k, v).
  - now apply IH.
Qed.

Lemma Map_get_of_In (m : Map.t) (k : jsstring) (v : SandboxManager) :
  NoDup (Map.keys m) -> In (k, v) m -> Map.get k m = Some v.
Proof.
  intros Hnd Hin.
  destruct (@Map_get_present k m) as [v' Hv'].
  { apply in_map_iff. now exists (k, v). }
  rewrite Hv'. f_equal.
  eapply NoDup_keys_functional; eauto. now apply Map_get_In.
Qed.

Lemma sweep_registry (p : jsstring * SandboxManager -> bool) (m : Map.t) :
  NoDup (Map.keys m) ->
  fold_left (fun m k => Map.delete k m) (Map.keys (filter p m)) m
  = filter (fun kv => negb (p kv)) m.
Proof.
  intros Hnd. rewrite delete_all. apply filter_ext_in.
  intros [k v] Hin. f_equal. cbn [fst].
  destruct (p (k, v)) eqn:P.
  - apply existsb_exists. exists k. split; [|apply jseqb_refl].
    apply in_map_iff. exists (k, v). split; [reflexivity|].
    apply filter_In. now split.
  - apply not_true_is_false. intros H. apply existsb_exists in H.
    destruct H as (k' & Hk' & E). apply jseqb_eq in E. subst k'.
    apply in_map_iff in Hk'. destruct Hk' as ([k2 v2] & E & Hf).
    cbn [fst] in E. subst k2. apply filter_In in Hf. destruct Hf as [Hin2 P2].
    rewrite (@NoDup_keys_functional m k v v2 Hnd Hin Hin2) in P. congruence.
Qed.

Lemma sweep_calls (p : jsstring * SandboxManager -> bool) (m : Map.t) :
  NoDup (Map.keys m) ->
  flat_map (killed m) (Map.keys (filter p m)) = map kill_of (filter p m).
Proof.
  intros Hnd.
  assert (H : forall l, incl l m ->
              flat_map (killed m) (Map.keys l) = map kill_of l).
  { induction l as [|[k v] l IH]; intros Hl; [reflexivity|].
    cbn [Map.keys map flat_map fst]. unfold killed at 1.
    rewrite (@Map_get_of_In m k v Hnd) by (apply Hl; now left).
    cbn [app]. f_equal. apply IH. intros x Hx. apply Hl. now right. }
  apply H. intros x Hx. apply filter_In in Hx. tauto.
Qed.

Lemma NoDup_keys_filter (p : jsstring * SandboxManager -> bool) (m : Map.t) :
  NoDup (Map.keys m) -> NoDup (Map.keys (filter p m)).
Proof.
  unfold Map.keys. induction m as [|kv m IH]; simpl; [constructor|].
  intros Hnd. inversion Hnd as [|? ? Hnin Hnd']; subst.
  destruct (p kv); simpl; [|now apply IH].
  constructor; [|now apply IH].
  intros Hin. apply Hnin. apply in_map_iff in Hin.
  destruct Hin as (x & E & Hx). apply filter_In in Hx.
  apply in_map_iff. exists x. tauto.
Qed.

Lemma cleanupIdleSandboxes_run (w : World) :
  NoDup (Map.keys (sandboxes w)) ->
  SandboxService.cleanupIdleSandboxes env w
  = (Returned tt,
     mkWorld (filter (fun kv => negb (idle (clock env (clockReads w)) kv))
                     (sandboxes w))
             (cleanupInterval w) (lastIndexes w) (S (clockReads w))
             (uuidsMade w)
             (calls w ++ map kill_of (filter (idle (clock env (clockReads w)))
                                             (sandboxes w)))).
Proof.
  intros Hnd.
  unfold SandboxService.cleanupIdleSandboxes, bind, now, getWorld.
  cbn [sandboxes].
  change (fun kv : jsstring * SandboxManager =>
            (SANDBOX_IDLE_TIMEOUT <? clock env (clockReads w) - lastUsed (snd kv))%Z)
    with (idle (clock env (clockReads w))).
  rewrite forEach_terminate by (now apply NoDup_keys_filter).
  cbn [sandboxes cleanupInterval lastIndexes clockReads uuidsMade calls].
  rewrite sweep_registry by exact Hnd.
  rewrite sweep_calls by exact Hnd.
  reflexivity.
Qed.

Lemma Map_get_filter (p : jsstring * SandboxManager -> bool) (m : Map.t)
    (k : jsstring) (h : SandboxManager) :
  NoDup (Map.keys m) ->
  Map.get k (filter p m) = Some h
  <-> Map.get k m = Some h /\ p (k, h) = true.
Proof.
  intros Hnd. split.
  - intros G. apply Map_get_In in G. apply filter_In in G.
    destruct G as [Hin P]. split; [now apply Map_get_of_In | exact P].
  - intros [G P]. apply Map_get_of_In; [now apply NoDup_keys_filter|].
    apply filter_In. split; [now apply Map_get_In | exact P].
Qed.

(** X3: the sweep of [cleanupIdleSandboxes] reads the clock once (the
    count of the readings goes up by one), removes exactly the handles
    last used more than five minutes before that reading, asks the
    provider to kill each of them, in the order of the registry and
    whatever the provider answers, and keeps every other handle as it
    was; it makes no identifier. *)
Theorem cleanupIdleSandboxes_sweeps (w : World) :
  NoDup (Map.keys (sandboxes w)) ->
  let t := clock env (clockReads w) in
  let r := SandboxService.cleanupIdleSandboxes env w in
  fst r = Returned tt
  /\ sandboxes (snd r) = filter (fun kv => negb (idle t kv)) (sandboxes w)
  /\ calls (snd r) = calls w ++ map kill_of (filter (idle t) (sandboxes w))
  /\ (forall k h,
        Map.get k (sandboxes (snd r)) = Some h
        <-> Map.get k (sandboxes w) = Some h
            /\ (t - lastUsed h <= SANDBOX_IDLE_TIMEOUT)%Z)
  /\ clockReads (snd r) = S (clockReads w)
  /\ uuidsMade (snd r) = uuidsMade w.
Proof.
  intros Hnd t r. unfold r. rewrite (@cleanupIdleSandboxes_run w Hnd).
  cbn [fst snd sandboxes calls clockReads uuidsMade].
  split; [reflexivity|]. split; [reflexivity|]. split; [reflexivity|].
  split; [|split; reflexivity].
  intros k h. fold t. rewrite (@Map_get_filter _ _ k h Hnd).
  unfold idle. cbn [snd]. rewrite negb_true_iff, Z.ltb_ge. tauto.
Qed.

Lemma cleanup_registry_empty (w : World) :
  sandboxes (snd (SandboxService.cleanup env w)) = [].
Proof.
  unfold SandboxService.cleanup, bind at 1, SandboxService.clearInterval.
  unfold bind at 1, getWorld. unfold bind at 1.
  match goal with
  | |- context [SandboxService.forEach ?l ?f ?w0] =>
      pose proof (@forEach_settled l (SandboxService.terminateSandbox env) w0)
        as H;
      destruct (SandboxService.forEach l f w0) as [[[]|e] w1]
  end; [reflexivity | discriminate].
Qed.

End PoolMore.

Lemma bind_returned {A B} (c : M A) (f : A -> M B) (w w1 : World) (a : A) :
  c w = (Returned a, w1) -> bind c f w = f a w1.
Proof. intros H. unfold bind. now rewrite H. Qed.

Lemma bind_threw {A B} (c : M A) (f : A -> M B) (w w1 : World) (e : Thrown) :
  c w = (Threw e, w1) -> bind c f w = (Threw e, w1).
Proof. intros H. unfold bind. now rewrite H. Qed.

Section PoolCreate.

Import Notions.

Variable env : Env.

Lemma createSandbox_ok (lang : Language) (session : nat) (w : World) :
  remote_create env (calls w) = inr session ->
  SandboxService.createSandbox env lang w
  = (Returned (uuidv4 env (uuidsMade w)),
     mkWorld (Map.set (uuidv4 env (uuidsMade w))
                (mkSandboxManager (uuidv4 env (uuidsMade w)) session
                   (clock env (clockReads w)) (clock env (S (clockReads w)))
                   lang)
                (sandboxes w))
             (cleanupInterval w) (lastIndexes w) (S (S (clockReads w)))
             (S (uuidsMade w)) (calls w ++ [SandboxCreate])).
Proof.
  intros C. unfold SandboxService.createSandbox, try_catch, bind, Sandbox_create.
  rewrite C. reflexivity.
Qed.

Lemma createSandbox_fails (lang : Language) (e : Thrown) (w : World) :
  remote_create env (calls w) = inl e ->
  SandboxService.createSandbox env lang w
  = (Threw (ErrorObj (js "Failed to create sandbox: "
                      ++ messageOr (js "Unknown error") e)),
     record SandboxCreate w).
Proof.
  intros C. unfold SandboxService.createSandbox, try_catch, bind, Sandbox_create.
  rewrite C. reflexivity.
Qed.

(** X4: a sandbox that [createSandbox] has created is found by
    [getSandbox] under the identifier returned: the handle has that
    identifier, the language asked for and the session the provider
    gave, and, the clock never going back, it was created no later than
    it was last used. *)
Theorem createSandbox_then_getSandbox (lang : Language) (w w1 : World)
    (newId : jsstring) :
  (forall i j : nat, i <= j -> (clock env i <= clock env j)%Z) ->
  SandboxService.createSandbox env lang w = (Returned newId, w1) ->
  exists h w2,
    SandboxService.getSandbox env newId w1 = (Returned (Some h), w2)
    /\ id h = newId
    /\ language h = lang
    /\ remote_create env (calls w) = inr (sandbox h)
    /\ (createdAt h <= lastUsed h)%Z
    /\ Map.get newId (sandboxes w2) = Some h
    /\ calls w2 = calls w ++ [SandboxCreate].
Proof.
  intros Hclock Hc.
  destruct (remote_create env (calls w)) as [e|session] eqn:C.
  - rewrite (@createSandbox_fails lang e w C) in Hc. discriminate.
  - rewrite (@createSandbox_ok lang session w C) in Hc.
    injection Hc as <- <-.
    eexists _, _. split.
    + apply getSandbox_found. cbn [sandboxes]. apply Map_get_set_same.
    + cbn [id language sandbox createdAt lastUsed SandboxService.touch
           sandboxes clockReads calls set_sandboxes Props.tick].
      repeat split.
      * apply Hclock. lia.
      * apply Map_get_set_same.
Qed.

(** X5: [createSandbox] throws only when the provider does, and then it
    throws an [Error] whose message is the provider's behind
    [Failed to create sandbox: ], registers nothing and makes no
    identifier. *)
Theorem createSandbox_failure (lang : Language) (w w' : World) (thrown : Thrown) :
  SandboxService.createSandbox env lang w = (Threw thrown, w') ->
  exists e,
    remote_create env (calls w) = inl e
    /\ thrown = ErrorObj (js "Failed to create sandbox: "
                          ++ messageOr (js "Unknown error") e)
    /\ sandboxes w' = sandboxes w
    /\ uuidsMade w' = uuidsMade w
    /\ calls w' = calls w ++ [SandboxCreate].
Proof.
  intros Hc.
  destruct (remote_create env (calls w)) as [e|session] eqn:C.
  - rewrite (@createSandbox_fails lang e w C) in Hc.
    injection Hc as <- <-. exists e. repeat split.
  - rewrite (@createSandbox_ok lang session w C) in Hc. discriminate.
Qed.

(** *** [getOrCreateSandbox] *)

Lemma has_language_first (lang : Language) (m : Map.t) :
  has_language lang m <->
  exists k h, SandboxService.firstOfLanguage lang m = Some (k, h).
Proof.
  unfold has_language, SandboxService.firstOfLanguage. split.
  - intros (kv & Hin & Hl).
    destruct (find (fun kv => Language_eqb (language (snd kv)) lang) m)
      as [[k h]|] eqn:F; [eauto|].
    exfalso. pose proof (find_none _ _ F kv Hin) as H. simpl in H.
    rewrite Hl in H. destruct lang; discriminate.
  - intros (k & h & F). exists (k, h). apply find_some in F.
    destruct F as [Hin Hl]. split; [exact Hin|]. simpl in *.
    destruct (language h), lang; (reflexivity || discriminate).
Qed.

Lemma first_none (lang : Language) (m : Map.t) :
  ~ has_language lang m -> SandboxService.firstOfLanguage lang m = None.
Proof.
  intros H.
  destruct (SandboxService.firstOfLanguage lang m) as [[k h]|] eqn:F;
    [|reflexivity].
  exfalso. apply H. apply has_language_first. eauto.
Qed.

Lemma has_language_touched (lang : Language) (sid : jsstring) (t : Z)
    (found : SandboxManager) (m : Map.t) :
  Map.get sid m = Some found ->
  has_language lang (Map.set sid (SandboxService.touch t found) m)
  <-> has_language lang m.
Proof.
  intros G.
  destruct (@Map_set_split sid (SandboxService.touch t found) found m G)
    as (before & after & Hm & Hset & _).
  rewrite Hset. rewrite Hm. unfold has_language. clear.
  split; intros (kv & Hin & Hl); apply in_app_or in Hin;
    destruct Hin as [Hin | [<- | Hin]].
  - exists kv. split; [apply in_or_app; now left | exact Hl].
  - exists (sid, found). split; [apply in_or_app; right; now left | exact Hl].
  - exists kv. split; [apply in_or_app; right; now right | exact Hl].
  - exists kv. split; [apply in_or_app; now left | exact Hl].
  - exists (sid, SandboxService.touch t found).
    split; [apply in_or_app; right; now left | exact Hl].
  - exists kv. split; [apply in_or_app; right; now right | exact Hl].
Qed.

Lemma Map_keys_set_incl (k : jsstring) (v : SandboxManager) (m : Map.t) :
  incl (Map.keys m) (Map.keys (Map.set k v m)).
Proof.
  unfold Map.keys. induction m as [|[k' v'] m IH]; simpl.
  - intros x [].
  - destruct (jseqb k' k); simpl.
    + apply incl_refl.
    + intros x [<- | Hx]; [now left | right; now apply IH].
Qed.

(** The two ways [getOrCreateSandbox] goes: the handle of the identifier
    given, when it is of the language; else the search and the creation,
    from the world as it was or with the handle of the identifier
    touched. *)
Lemma getOrCreateSandbox_cases (lang : Language) (sidopt : option jsstring)
    (w : World) :
  let t := clock env (clockReads w) in
  (exists sid found,
      sidopt = Some sid /\ Map.get sid (sandboxes w) = Some found
      /\ language found = lang
      /\ SandboxService.getOrCreateSandbox env lang sidopt w
         = (Returned (SandboxService.touch t found),
            set_sandboxes (Map.set sid (SandboxService.touch t found)
                                   (sandboxes w))
                          (Props.tick w)))
  \/ (SandboxService.getOrCreateSandbox env lang sidopt w
      = SandboxService.reuseOrCreate env lang w)
  \/ (exists sid found,
        Map.get sid (sandboxes w) = Some found
        /\ SandboxService.getOrCreateSandbox env lang sidopt w
           = SandboxService.reuseOrCreate env lang
               (set_sandboxes (Map.set sid (SandboxService.touch t found)
                                       (sandboxes w))
                              (Props.tick w))).
Proof.
  intros t. unfold SandboxService.getOrCreateSandbox.
  destruct sidopt as [sid|]; [|right; left; reflexivity].
  destruct (truthy sid); [|right; left; reflexivity].
  destruct (Map.get sid (sandboxes w)) as [found|] eqn:G.
  - rewrite (@bind_returned _ _ _ _ _ _ _ (@getSandbox_found env sid found w G)).
    cbn [language SandboxService.touch].
    destruct (Language_eqb (language found) lang) eqn:L.
    + left. exists sid, found. repeat split; auto.
      destruct (language found), lang; (reflexivity || discriminate).
    + right; right. exists sid, found. split; [exact G | reflexivity].
  - rewrite (@bind_returned _ _ _ _ _ _ _ (@getSandbox_missing env sid w G)).
    right; left; reflexivity.
Qed.

Lemma touchFirst_get (lang : Language) (t : Z) (m : Map.t) (k : jsstring)
    (h : SandboxManager) :
  well_formed m ->
  SandboxService.firstOfLanguage lang m = Some (k, h) ->
  Map.get (id h) (SandboxService.touchFirst lang t m)
  = Some (SandboxService.touch t h).
Proof.
  unfold SandboxService.firstOfLanguage.
  induction m as [|[k0 v0] m IH]; simpl; [discriminate|].
  intros [Hnd Hid] F.
  inversion Hnd as [|? ? Hnin Hnd']; subst.
  inversion Hid as [|? ? Hid0 Hid']; subst. simpl in Hid0.
  destruct (Language_eqb (language v0) lang).
  - injection F as <- <-. simpl. rewrite Hid0, jseqb_refl. reflexivity.
  - simpl.
    assert (Hin : In (k, h) m) by (apply find_some in F; tauto).
    assert (Hk : id h = k).
    { rewrite Forall_forall in Hid'. exact (Hid' _ Hin). }
    rewrite jseqb_neq.
    + apply IH; [now split | exact F].
    + intros ->. apply Hnin. rewrite Hk.
      apply in_map_iff. now exists (k, h).
Qed.

Lemma reuseOrCreate_registered (lang : Language) (w w' : World)
    (r : SandboxManager) :
  well_formed (sandboxes w) ->
  SandboxService.reuseOrCreate env lang w = (Returned r, w') ->
  Map.get (id r) (sandboxes w') = Some r.
Proof.
  intros Hwf.
  destruct (SandboxService.firstOfLanguage lang (sandboxes w)) as [[k h]|] eqn:F.
  - rewrite (@reuseOrCreate_reuse env lang k h w F). intros H.
    injection H as <- <-. cbn [sandboxes set_sandboxes id SandboxService.touch].
    exact (@touchFirst_get lang _ _ k h Hwf F).
  - destruct (remote_create env (calls w)) as [e|session] eqn:C.
    + rewrite (@reuseOrCreate_create_fails env lang e w F C). discriminate.
    + rewrite (@reuseOrCreate_create env lang session w F C). intros H.
      injection H as <- <-. cbn [fst snd Props.created sandboxes id
                                 SandboxService.touch].
      apply Map_get_set_same.
Qed.

(** X6: the handle that [getOrCreateSandbox] returns is of the language
    asked for and is the one the registry holds under its identifier;
    and [getOrCreateSandbox] throws only when it had to create a sandbox
    and the provider failed. *)
Theorem getOrCreateSandbox_result (lang : Language) (sidopt : option jsstring)
    (w : World) :
  well_formed (sandboxes w) ->
  match SandboxService.getOrCreateSandbox env lang sidopt w with
  | (Returned h, w') =>
      language h = lang /\ Map.get (id h) (sandboxes w') = Some h
  | (Threw thrown, w') =>
      ~ has_language lang (sandboxes w)
      /\ exists e, remote_create env (calls w) = inl e
                   /\ thrown = ErrorObj (js "Failed to create sandbox: "
                                         ++ messageOr (js "Unknown error") e)
  end.
Proof.
  intros Hwf.
  assert (Hreuse : forall w1,
             well_formed (sandboxes w1) -> calls w1 = calls w ->
             (has_language lang (sandboxes w1)
              <-> has_language lang (sandboxes w)) ->
             match SandboxService.reuseOrCreate env lang w1 with
             | (Returned h, w') =>
                 language h = lang /\ Map.get (id h) (sandboxes w') = Some h
             | (Threw thrown, w') =>
                 ~ has_language lang (sandboxes w)
                 /\ exists e, remote_create env (calls w) = inl e
                              /\ thrown
                                 = ErrorObj (js "Failed to create sandbox: "
                                             ++ messageOr (js "Unknown error") e)
             end).
  { intros w1 Hwf1 Hcalls Hhas.
    destruct (SandboxService.reuseOrCreate env lang w1) as [[h|thrown] w'] eqn:R.
    - split; [eapply reuseOrCreate_language; eauto
             | eapply reuseOrCreate_registered; eauto].
    - destruct (SandboxService.firstOfLanguage lang (sandboxes w1))
        as [[k h]|] eqn:F.
      + rewrite (@reuseOrCreate_reuse env lang k h w1 F) in R. discriminate.
      + destruct (remote_create env (calls w1)) as [e|session] eqn:C.
        * rewrite (@reuseOrCreate_create_fails env lang e w1 F C) in R.
          injection R as <- <-. split.
          -- intros H. apply Hhas in H. apply has_language_first in H.
             destruct H as (k & h & H). congruence.
          -- exists e. rewrite <- Hcalls. split; [exact C | reflexivity].
        * rewrite (@reuseOrCreate_create env lang session w1 F C) in R.
          discriminate. }
  destruct (getOrCreateSandbox_cases lang sidopt w)
    as [(sid & found & -> & G & L & ->) | [-> | (sid & found & G & ->)]].
  - split; [exact L|].
    cbn [id SandboxService.touch sandboxes set_sandboxes].
    rewrite (@Map_get_id sid found (sandboxes w) Hwf G).
    apply Map_get_set_same.
  - apply Hreuse; [exact Hwf | reflexivity | tauto].
  - apply Hreuse.
    + cbn [sandboxes set_sandboxes]. apply well_formed_set; [exact Hwf|].
      exact (@Map_get_id sid found (sandboxes w) Hwf G).
    + reflexivity.
    + cbn [sandboxes set_sandboxes]. now apply has_language_touched.
Qed.

(** X7: [getOrCreateSandbox] asks nothing of the provider, and registers
    nothing new, when the pool holds a handle of the language; when it
    holds none, it asks the provider once, for a new sandbox. *)
Theorem getOrCreateSandbox_provider_calls (lang : Language)
    (sidopt : option jsstring) (w : World) :
  let r := SandboxService.getOrCreateSandbox env lang sidopt w in
  (has_language lang (sandboxes w) ->
   calls (snd r) = calls w
   /\ Map.keys (sandboxes (snd r)) = Map.keys (sandboxes w)
   /\ exists h, fst r = Returned h)
  /\ (~ has_language lang (sandboxes w) ->
      calls (snd r) = calls w ++ [SandboxCreate]).
Proof.
  assert (Hreuse : forall w1,
             calls w1 = calls w ->
             Map.keys (sandboxes w1) = Map.keys (sandboxes w) ->
             (has_language lang (sandboxes w1)
              <-> has_language lang (sandboxes w)) ->
             let r := SandboxService.reuseOrCreate env lang w1 in
             (has_language lang (sandboxes w) ->
              calls (snd r) = calls w
              /\ Map.keys (sandboxes (snd r)) = Map.keys (sandboxes w)
              /\ exists h, fst r = Returned h)
             /\ (~ has_language lang (sandboxes w) ->
                 calls (snd r) = calls w ++ [SandboxCreate])).
  { intros w1 Hcalls Hkeys Hhas. split.
    - intros H. apply Hhas in H. apply has_language_first in H.
      destruct H as (k & h & F).
      rewrite (@reuseOrCreate_reuse env lang k h w1 F). cbn [fst snd].
      repeat split; eauto.
      cbn [sandboxes set_sandboxes]. now rewrite touchFirst_keys.
    - intros H. assert (F : SandboxService.firstOfLanguage lang (sandboxes w1)
                            = None).
      { apply first_none. intros H1. apply H. now apply Hhas. }
      destruct (remote_create env (calls w1)) as [e|session] eqn:C.
      + rewrite (@reuseOrCreate_create_fails env lang e w1 F C). cbn [snd].
        unfold record. cbn [calls]. now rewrite Hcalls.
      + rewrite (@reuseOrCreate_create env lang session w1 F C).
        cbn [snd Props.created calls]. now rewrite Hcalls. }
  destruct (getOrCreateSandbox_cases lang sidopt w)
    as [(sid & found & -> & G & L & E) | [E | (sid & found & G & E)]];
    cbv zeta; rewrite E.
  - cbn [fst snd]. split.
    + intros _. repeat split; eauto.
      cbn [sandboxes set_sandboxes]. eapply Map_keys_set_present; eauto.
    + intros H. exfalso. apply H. exists (sid, found).
      split; [now apply Map_get_In | exact L].
  - apply Hreuse; [reflexivity | reflexivity | tauto].
  - apply Hreuse.
    + reflexivity.
    + cbn [sandboxes set_sandboxes]. eapply Map_keys_set_present; eauto.
    + cbn [sandboxes set_sandboxes]. now apply has_language_touched.
Qed.

End PoolCreate.

(* ===================================================================== *)
(** ** What a call of a tool does to the pool *)
(* ===================================================================== *)

Section Steady.

Import Notions.

Variable env : Env.

Lemma extends_same (w w' : World) : sandboxes w' = sandboxes w -> extends w w'.
Proof. intros H. unfold extends. rewrite H. split; [tauto | apply incl_refl]. Qed.

Lemma extends_trans (w1 w2 w3 : World) :
  extends w1 w2 -> extends w2 w3 -> extends w1 w3.
Proof.
  intros [H1 I1] [H2 I2]. split; [tauto | eapply incl_tran; eauto].
Qed.

Lemma steady_ret {A} (a : A) : steady (ret a).
Proof. intros w. now apply extends_same. Qed.

Lemma steady_throw {A} (e : Thrown) : steady (@throw A e).
Proof. intros w. now apply extends_same. Qed.

Lemma steady_bind {A B} (c : M A) (f : A -> M B) :
  steady c -> (forall a, steady (f a)) -> steady (bind c f).
Proof.
  intros Hc Hf w. unfold bind. specialize (Hc w).
  destruct (c w) as [[a|e] w1]; cbn [snd] in *; [|exact Hc].
  eapply extends_trans; [exact Hc | apply Hf].
Qed.

Lemma steady_try_catch {A} (c : M A) (h : Thrown -> M A) :
  steady c -> (forall e, steady (h e)) -> steady (try_catch c h).
Proof.
  intros Hc Hh w. unfold try_catch. specialize (Hc w).
  destruct (c w) as [[a|e] w1]; cbn [snd] in *; [exact Hc|].
  eapply extends_trans; [exact Hc | apply Hh].
Qed.

Lemma steady_same {A} (c : M A) :
  (forall w, sandboxes (snd (c w)) = sandboxes w) -> steady c.
Proof. intros H w. apply extends_same, H. Qed.

Lemma steady_now : steady (now env).
Proof. now apply steady_same. Qed.

Lemma steady_uuid : steady (uuid env).
Proof. now apply steady_same. Qed.

Lemma steady_runCode s code opts : steady (Sandbox_runCode env s code opts).
Proof. now apply steady_same. Qed.

Lemma steady_write s path content : steady (Sandbox_files_write env s path content).
Proof. now apply steady_same. Qed.

Lemma steady_read s path : steady (Sandbox_files_read env s path).
Proof. now apply steady_same. Qed.

Lemma steady_list s path : steady (Sandbox_files_list env s path).
Proof. now apply steady_same. Qed.

Lemma steady_validateCode code lang : steady (E2BTools.validateCode code lang).
Proof.
  apply steady_same. intros w. unfold E2BTools.validateCode.
  now destruct (SecurityValidator.validateCode (lastIndexes w) code lang)
    as [[v st] ws].
Qed.

Lemma steady_logSecurityEvent : steady (E2BTools.logSecurityEvent env).
Proof. now apply steady_same. Qed.

Lemma steady_listSandboxes : steady SandboxService.listSandboxes.
Proof. now apply steady_same. Qed.

Lemma steady_getSandbox (sid : jsstring) : steady (SandboxService.getSandbox env sid).
Proof.
  intros w. destruct (Map.get sid (sandboxes w)) as [h|] eqn:G.
  - rewrite (@getSandbox_found env sid h w G). cbn [snd]. split.
    + intros Hwf. cbn [sandboxes set_sandboxes].
      apply well_formed_set; [exact Hwf|].
      exact (@Map_get_id sid h (sandboxes w) Hwf G).
    + cbn [sandboxes set_sandboxes]. apply Map_keys_set_incl.
  - rewrite (@getSandbox_missing env sid w G). now apply extends_same.
Qed.

Lemma steady_createSandbox (lang : Language) :
  steady (SandboxService.createSandbox env lang).
Proof.
  intros w. destruct (remote_create env (calls w)) as [e|session] eqn:C.
  - rewrite (@createSandbox_fails env lang e w C). now apply extends_same.
  - rewrite (@createSandbox_ok env lang session w C). cbn [snd]. split.
    + intros Hwf. cbn [sandboxes]. now apply well_formed_set.
    + cbn [sandboxes]. apply Map_keys_set_incl.
Qed.

Lemma steady_reuseOrCreate (lang : Language) :
  steady (SandboxService.reuseOrCreate env lang).
Proof.
  intros w.
  destruct (SandboxService.firstOfLanguage lang (sandboxes w)) as [[k h]|] eqn:F.
  - rewrite (@reuseOrCreate_reuse env lang k h w F). cbn [snd]. split.
    + intros Hwf. cbn [sandboxes set_sandboxes]. now apply well_formed_touchFirst.
    + cbn [sandboxes set_sandboxes]. rewrite touchFirst_keys. apply incl_refl.
  - unfold SandboxService.reuseOrCreate, bind at 1, getWorld. rewrite F.
    revert w F. intros w _.
    change (extends w (snd ((newId <- SandboxService.createSandbox env lang ;;
                             made <- SandboxService.getSandbox env newId ;;
                             match made with
                             | Some m => ret m
                             | None => throw (ErrorObj (js "Cannot read properties of undefined"))
                             end) w))).
    revert w. apply steady_bind; [apply steady_createSandbox|].
    intros newId. apply steady_bind; [apply steady_getSandbox|].
    intros [m|]; [apply steady_ret | apply steady_throw].
Qed.

Lemma steady_getOrCreateSandbox (lang : Language) (sidopt : option jsstring) :
  steady (SandboxService.getOrCreateSandbox env lang sidopt).
Proof.
  unfold SandboxService.getOrCreateSandbox.
  destruct sidopt as [sid|]; [|apply steady_reuseOrCreate].
  destruct (truthy sid); [|apply steady_reuseOrCreate].
  apply steady_bind; [apply steady_getSandbox|].
  intros [found|]; [|apply steady_reuseOrCreate].
  destruct (Language_eqb (language found) lang);
    [apply steady_ret | apply steady_reuseOrCreate].
Qed.

End Steady.

Ltac steady_step :=
  first
    [ apply steady_ret | apply steady_throw
    | apply steady_now | apply steady_uuid
    | apply steady_runCode | apply steady_write | apply steady_read
    | apply steady_list | apply steady_validateCode
    | apply steady_logSecurityEvent | apply steady_listSandboxes
    | apply steady_getSandbox | apply steady_getOrCreateSandbox
    | apply steady_bind; [|intro]
    | apply steady_try_catch; [|intro]
    | match goal with
      | |- Notions.steady (if ?b then _ else _) => destruct b
      | |- Notions.steady (let (_, _) := ?p in _) => destruct p
      | |- Notions.steady (match ?x with _ => _ end) => destruct x
      end ].

Section SteadyTools.

Import Notions.

Variable env : Env.

Lemma steady_executeTool (tool : jsstring) (args : Args) :
  steady (E2BTools.executeTool env tool args).
Proof.
  unfold E2BTools.executeTool.
  apply steady_try_catch; [|intro; apply steady_ret].
  repeat match goal with
         | |- steady (if ?b then _ else _) => destruct b
         end;
    unfold E2BTools.executePython, E2BTools.executeJavaScript,
      E2BTools.createFile, E2BTools.readFile, E2BTools.listFiles,
      E2BTools.installPackages, E2BTools.getSandboxInfo, E2BTools.newError;
    repeat steady_step.
Qed.

(** X8: a call of a tool never throws: it returns a result, whatever the
    tool, the arguments and the answers of the provider; it leaves the
    registry well formed, and every identifier that was registered still
    is: no tool removes a sandbox. *)
Theorem executeTool_returns_and_keeps_pool (tool : jsstring) (args : Args)
    (w : World) :
  exists r w',
    E2BTools.executeTool env tool args w = (Returned r, w')
    /\ (well_formed (sandboxes w) -> well_formed (sandboxes w'))
    /\ incl (Map.keys (sandboxes w)) (Map.keys (sandboxes w')).
Proof.
  pose proof (steady_executeTool tool args w) as H.
  assert (R : exists r, fst (E2BTools.executeTool env tool args w) = Returned r).
  { unfold E2BTools.executeTool, try_catch.
    match goal with |- context [match ?c with _ => _ end] => destruct c as [[r|e] w1] end;
      cbn [fst]; eauto. unfold ret. cbn [fst]. eauto. }
  destruct R as [r R].
  destruct (E2BTools.executeTool env tool args w) as [o w'].
  cbn [fst snd] in *. subst o. exists r, w'. split; [reflexivity | exact H].
Qed.

(** X1: the registry stays well formed (no identifier twice, every
    handle under its own identifier) through every operation of the
    pool. *)
Theorem registry_stays_well_formed (w : World) :
  well_formed (sandboxes w) ->
  (forall lang,
      well_formed (sandboxes (snd (SandboxService.createSandbox env lang w))))
  /\ (forall sid,
         well_formed (sandboxes (snd (SandboxService.getSandbox env sid w))))
  /\ (forall lang sidopt,
         well_formed
           (sandboxes (snd (SandboxService.getOrCreateSandbox env lang sidopt w))))
  /\ (forall sid,
         well_formed (sandboxes (snd (SandboxService.terminateSandbox env sid w))))
  /\ well_formed (sandboxes (snd (SandboxService.cleanupIdleSandboxes env w)))
  /\ well_formed (sandboxes (snd (SandboxService.cleanup env w))).
Proof.
  intros Hwf. split; [|split; [|split; [|split; [|split]]]].
  - intros lang. apply (@steady_createSandbox env lang w), Hwf.
  - intros sid. apply (@steady_getSandbox env sid w), Hwf.
  - intros lang sidopt. apply (@steady_getOrCreateSandbox env lang sidopt w), Hwf.
  - intros sid. destruct (Map.get sid (sandboxes w)) as [h|] eqn:G.
    + rewrite (@terminateSandbox_known env sid h w G).
      cbn [snd sandboxes set_sandboxes]. now apply well_formed_delete.
    + now rewrite (@terminateSandbox_unknown env sid w G).
  - rewrite (@cleanupIdleSandboxes_run env w (proj1 Hwf)).
    cbn [snd sandboxes]. split; [apply NoDup_keys_filter, Hwf|].
    destruct Hwf as [_ H].
    rewrite Forall_forall in *. intros x Hx. apply filter_In in Hx.
    now apply H.
  - rewrite cleanup_registry_empty. split; constructor.
Qed.

End SteadyTools.

(* ===================================================================== *)
(** ** The failures of a call of a tool *)
(* ===================================================================== *)

Section GatewayFailures.

Import Notions.

Variable env : Env.

Lemma not_tool (tool : jsstring) (name : string) :
  ~ In tool tool_names -> In (js name) tool_names -> jseqb tool (js name) = false.
Proof.
  intros Hnot Hin. apply jseqb_neq. intros ->. contradiction.
Qed.

(** X9: a name that is not one of the seven tools gets a failure that
    names it, and nothing else happens: the registry, the clock and the
    provider are left alone. *)
Theorem executeTool_unknown_tool (tool : jsstring) (args : Args) (w : World) :
  ~ In tool tool_names ->
  E2BTools.executeTool env tool args w
  = (Returned (mkResult (js "Error: Unknown tool: " ++ tool) true), w).
Proof.
  intros Hnot. unfold E2BTools.executeTool.
  rewrite !(not_tool _ Hnot) by (unfold tool_names; simpl; tauto).
  reflexivity.
Qed.

(** X10: a call without a parameter its tool requires fails with the
    message of that tool before anything is validated, read or asked:
    the world is left as it was. *)
Theorem required_parameters (args : Args) (w : World) :
  (arg_code args = None \/ arg_code args = Some [] ->
   forall tool,
     tool = js "execute_python" \/ tool = js "execute_javascript" ->
     E2BTools.executeTool env tool args w
     = (Returned (mkResult
                    (js "Error: Code parameter is required and must be a string")
                    true), w))
  /\ (arg_path args = None \/ arg_path args = Some [] \/ arg_content args = None ->
      E2BTools.executeTool env (js "create_file") args w
      = (Returned (mkResult (js "Error: Path and content parameters are required")
                            true), w))
  /\ (arg_path args = None \/ arg_path args = Some [] ->
      E2BTools.executeTool env (js "read_file") args w
      = (Returned (mkResult (js "Error: Path parameter is required") true), w))
  /\ (arg_packages args = None \/ arg_packages args = Some [] ->
      E2BTools.executeTool env (js "install_packages") args w
      = (Returned (mkResult
                     (js "Error: Packages parameter is required and must be a non-empty array")
                     true), w)).
Proof.
  repeat split.
  - intros Hc tool [-> | ->]; unfold E2BTools.executeTool; dispatch;
      unfold E2BTools.executePython, E2BTools.executeJavaScript;
      destruct Hc as [-> | ->]; reflexivity.
  - intros Hc. unfold E2BTools.executeTool. dispatch.
    unfold E2BTools.createFile.
    destruct Hc as [-> | [-> | ->]]; try reflexivity.
    destruct (arg_path args) as [[|c p]|]; reflexivity.
  - intros Hc. unfold E2BTools.executeTool. dispatch.
    unfold E2BTools.readFile. destruct Hc as [-> | ->]; reflexivity.
  - intros Hc. unfold E2BTools.executeTool. dispatch.
    unfold E2BTools.installPackages. destruct Hc as [-> | ->]; reflexivity.
Qed.

(** X12: when the provider throws at [runCode], [execute_python] and
    [execute_javascript] do not throw: they return a failure that gives
    the time spent, the identifier of the sandbox and the message of the
    provider; the sandbox stays registered. *)
Theorem execute_provider_failure
    (w : World) (args : Args) (code tool : jsstring) (lang : Language)
    (opts : option Language) (v : Verdict) (w1 : World) (sb : SandboxManager)
    (w2 : World) (e : Thrown) :
  (tool = js "execute_python" /\ lang = python /\ opts = None)
  \/ (tool = js "execute_javascript" /\ lang = javascript
      /\ opts = Some javascript) ->
  arg_code args = Some code ->
  code <> [] ->
  E2BTools.validateCode code lang w = (Returned v, w1) ->
  isValid v = true ->
  SandboxService.getOrCreateSandbox env lang (arg_sandbox_id args) w1
  = (Returned sb, w2) ->
  remote_runCode env (calls w2) (sandbox sb) code opts = inl e ->
  exists w3,
    E2BTools.executeTool env tool args w
    = (Returned
         (mkResult
            (js "Execution failed after "
             ++ Z_toString (clock env (S (clockReads w2))
                            - clock env (clockReads w2))
             ++ js "ms" ++ nl ++ js "Sandbox ID: " ++ id sb ++ nl ++ nl
             ++ js "Error: " ++ messageOr (js "Unknown error") e)
            true),
       w3)
    /\ sandboxes w3 = sandboxes w2
    /\ calls w3 = calls w2 ++ [RunCode (sandbox sb) code opts].
Proof.
  intros Htool Hcode Hne Hv Hvalid Hsb Hrun.
  destruct Htool as [(-> & -> & ->) | (-> & -> & ->)];
    unfold E2BTools.executeTool; dispatch;
    unfold E2BTools.executePython, E2BTools.executeJavaScript; rewrite Hcode;
    (destruct code as [|c code]; [congruence|]);
    unfold try_catch at 1; unfold bind at 1; rewrite Hv;
    rewrite Hvalid; cbn [negb];
    unfold bind at 1; rewrite Hsb;
    unfold bind at 1, now at 1; cbv beta iota;
    unfold try_catch at 1, bind at 1, Sandbox_runCode at 1;
    cbn [calls]; rewrite Hrun; cbv beta iota; unfold of_sum; cbv beta iota;
    unfold bind at 1, now at 1; cbv beta iota;
    eexists; (split; [reflexivity|]); split; reflexivity.
Qed.

(** X13: when the provider throws at a request on files, [read_file],
    [list_files] (with a path or with none, when it lists [.]) and
    [create_file] return a failure whose text is the message of the
    provider behind [Error: ], or, of what is thrown that is no [Error],
    [Unknown error occurred]. *)
Theorem file_tools_provider_failure
    (w w1 : World) (args : Args) (sb : SandboxManager) (e : Thrown) :
  SandboxService.getOrCreateSandbox env python (arg_sandbox_id args) w
  = (Returned sb, w1) ->
  let failure :=
    mkResult (js "Error: " ++ messageOr (js "Unknown error occurred") e) true in
  (forall path,
      arg_path args = Some path -> path <> [] ->
      remote_read env (calls w1) (sandbox sb) path = inl e ->
      E2BTools.executeTool env (js "read_file") args w
      = (Returned failure, record (FilesRead (sandbox sb) path) w1))
  /\ (forall path,
         path = match arg_path args with Some p => p | None => js "." end ->
         remote_list env (calls w1) (sandbox sb) path = inl e ->
         E2BTools.executeTool env (js "list_files") args w
         = (Returned failure, record (FilesList (sandbox sb) path) w1))
  /\ (forall path content,
         arg_path args = Some path -> path <> [] ->
         arg_content args = Some content ->
         isValid (SecurityValidator.validateFilePath path) = true ->
         isValid (fst (SecurityValidator.validateFileContent content)) = true ->
         remote_write env (calls w1) (sandbox sb) path content = Some e ->
         E2BTools.executeTool env (js "create_file") args w
         = (Returned failure, record (FilesWrite (sandbox sb) path content) w1)).
Proof.
  intros Hsb failure.
  split; [|split].
  - intros path Hpath Hne Hr. destruct path as [|c p]; [congruence|].
    unfold E2BTools.executeTool. dispatch.
    unfold E2BTools.readFile. rewrite Hpath.
    unfold try_catch at 1. unfold bind at 1. rewrite Hsb.
    unfold try_catch, bind, Sandbox_files_read. rewrite Hr. reflexivity.
  - intros path Hpath Hr. unfold E2BTools.executeTool. dispatch.
    unfold E2BTools.listFiles. rewrite <- Hpath.
    unfold try_catch at 1. unfold bind at 1. rewrite Hsb.
    unfold try_catch, bind, Sandbox_files_list. rewrite Hr. reflexivity.
  - intros path content Hpath Hne Hcontent Hp Hc Hr.
    destruct path as [|c p]; [congruence|].
    unfold E2BTools.executeTool. dispatch.
    unfold E2BTools.createFile. rewrite Hpath, Hcontent, Hp, Hc. cbn [negb].
    unfold try_catch at 1. unfold bind at 1. rewrite Hsb.
    unfold try_catch, bind, Sandbox_files_write. rewrite Hr. reflexivity.
Qed.

Lemma getOrCreateSandbox_fails (lang : Language) (sidopt : option jsstring)
    (w : World) (e : Thrown) :
  ~ has_language lang (sandboxes w) ->
  remote_create env (calls w) = inl e ->
  exists w',
    SandboxService.getOrCreateSandbox env lang sidopt w
    = (Threw (ErrorObj (js "Failed to create sandbox: "
                        ++ messageOr (js "Unknown error") e)), w')
    /\ Map.keys (sandboxes w') = Map.keys (sandboxes w)
    /\ calls w' = calls w ++ [SandboxCreate].
Proof.
  intros Hnone Hc.
  destruct (getOrCreateSandbox_cases env lang sidopt w)
    as [(sid & found & -> & G & L & E) | [E | (sid & found & G & E)]];
    rewrite E.
  - exfalso. apply Hnone. exists (sid, found).
    split; [now apply Map_get_In | exact L].
  - rewrite (@reuseOrCreate_create_fails env lang e w (first_none Hnone) Hc).
    eexists. split; [reflexivity|]. split; reflexivity.
  - rewrite (@reuseOrCreate_create_fails env lang e _).
    + eexists. split; [reflexivity|]. split; [|reflexivity].
      cbn [sandboxes record set_sandboxes Props.tick].
      eapply Map_keys_set_present; eauto.
    + apply first_none. cbn [sandboxes set_sandboxes].
      intros H. apply Hnone. eapply has_language_touched; eauto.
    + exact Hc.
Qed.

(** X14: when a tool needs a new sandbox and the provider cannot create
    one, the call returns the failure
    [Error: Failed to create sandbox: ] and the message of the provider;
    no identifier is registered.  Shown of [read_file] with a path and
    of [list_files] with a path or with none. *)
Theorem sandbox_creation_failure_reported
    (w : World) (args : Args) (e : Thrown) :
  ~ has_language python (sandboxes w) ->
  remote_create env (calls w) = inl e ->
  forall tool,
    (tool = js "read_file"
     /\ exists path, arg_path args = Some path /\ path <> [])
    \/ tool = js "list_files" ->
  exists w',
    E2BTools.executeTool env tool args w
    = (Returned
         (mkResult (js "Error: Failed to create sandbox: "
                    ++ messageOr (js "Unknown error") e) true), w')
    /\ Map.keys (sandboxes w') = Map.keys (sandboxes w)
    /\ calls w' = calls w ++ [SandboxCreate].
Proof.
  intros Hnone Hc tool Htool.
  destruct (@getOrCreateSandbox_fails python (arg_sandbox_id args) w e Hnone Hc)
    as (w' & E & Hk & Hcalls).
  exists w'.
  destruct Htool as [[-> (path & Hpath & Hne)] | ->].
  - destruct path as [|c p]; [congruence|].
    unfold E2BTools.executeTool. dispatch.
    unfold E2BTools.readFile. rewrite Hpath.
    unfold try_catch at 1. unfold bind at 1. rewrite E.
    split; [reflexivity|]. split; assumption.
  - unfold E2BTools.executeTool. dispatch.
    unfold E2BTools.listFiles.
    unfold try_catch at 1. unfold bind at 1. rewrite E.
    split; [reflexivity|]. split; assumption.
Qed.

(** X15: [install_packages], the names validated and a sandbox of the
    language resolved, asks the provider to run the installation script
    of that language on those names, and reports completion or failure
    as the execution has an error or not, with the output as the
    provider gave it. *)
Theorem installPackages_runs_script
    (w w1 : World) (args : Args) (packages : list jsstring)
    (sb : SandboxManager) (result : Execution) :
  arg_packages args = Some packages ->
  packages <> [] ->
  isValid (fst (SecurityValidator.validatePackages packages (arg_language args)))
  = true ->
  SandboxService.getOrCreateSandbox env (arg_language args) (arg_sandbox_id args) w
  = (Returned sb, w1) ->
  remote_runCode env (calls w1) (sandbox sb)
    (E2BTools.installCommand packages (arg_language args))
    (Some (arg_language args))
  = inr result ->
  let output := fst (E2BTools.collectOutput result) in
  let hasError := snd (E2BTools.collectOutput result) in
  E2BTools.executeTool env (js "install_packages") args w
  = (Returned
       (mkResult
          (js "Package installation "
           ++ (if hasError then js "failed" else js "completed") ++ nl
           ++ js "Sandbox ID: " ++ id sb ++ nl
           ++ js "Packages: " ++ join (js ", ") packages ++ nl
           ++ js "Language: " ++ Language_toString (arg_language args) ++ nl ++ nl
           ++ js "Output:" ++ nl
           ++ (if truthy output then output else js "(no output)"))
          hasError),
     record (RunCode (sandbox sb)
               (E2BTools.installCommand packages (arg_language args))
               (Some (arg_language args))) w1).
Proof.
  intros Hpk Hne Hok Hsb Hrun output hasError.
  unfold E2BTools.executeTool. dispatch.
  unfold E2BTools.installPackages. rewrite Hpk.
  destruct packages as [|p ps]; [congruence|].
  rewrite Hok. cbn [negb].
  unfold try_catch at 1. unfold bind at 1. rewrite Hsb.
  unfold try_catch, bind, Sandbox_runCode. rewrite Hrun.
  unfold of_sum. subst output hasError.
  destruct (E2BTools.collectOutput result) as [output hasError].
  reflexivity.
Qed.

End GatewayFailures.

Section Refusals.

Variable env : Env.

(** X11: the four tools that validate do so before anything else: of a
    code, a path, a content or a list of packages that the validator
    refuses, the call returns the failure of that check with its reason,
    and nothing is asked of the provider nor changed in the registry. *)
Theorem refused_input_fails_before_provider (args : Args) (w : World) :
  (forall tool lang code,
      (tool = js "execute_python" /\ lang = python)
      \/ (tool = js "execute_javascript" /\ lang = javascript) ->
      arg_code args = Some code -> code <> [] ->
      let v := fst (fst (SecurityValidator.validateCode (lastIndexes w) code lang)) in
      isValid v = false ->
      exists w',
        E2BTools.executeTool env tool args w
        = (Returned (mkResult (js "Error: Security validation failed: "
                               ++ E2BTools.reasonText v) true), w')
        /\ calls w' = calls w /\ sandboxes w' = sandboxes w)
  /\ (forall path content,
         arg_path args = Some path -> path <> [] ->
         arg_content args = Some content ->
         let v := SecurityValidator.validateFilePath path in
         isValid v = false ->
         exists w',
           E2BTools.executeTool env (js "create_file") args w
           = (Returned (mkResult (js "Error: Path validation failed: "
                                  ++ E2BTools.reasonText v) true), w')
           /\ calls w' = calls w /\ sandboxes w' = sandboxes w)
  /\ (forall path content,
         arg_path args = Some path -> path <> [] ->
         arg_content args = Some content ->
         isValid (SecurityValidator.validateFilePath path) = true ->
         let v := fst (SecurityValidator.validateFileContent content) in
         isValid v = false ->
         exists w',
           E2BTools.executeTool env (js "create_file") args w
           = (Returned (mkResult (js "Error: Content validation failed: "
                                  ++ E2BTools.reasonText v) true), w')
           /\ calls w' = calls w /\ sandboxes w' = sandboxes w)
  /\ (forall packages,
         arg_packages args = Some packages -> packages <> [] ->
         let v := fst (SecurityValidator.validatePackages packages
                         (arg_language args)) in
         isValid v = false ->
         exists w',
           E2BTools.executeTool env (js "install_packages") args w
           = (Returned (mkResult (js "Error: Package validation failed: "
                                  ++ E2BTools.reasonText v) true), w')
           /\ calls w' = calls w /\ sandboxes w' = sandboxes w).
Proof.
  split; [|split; [|split]].
  - intros tool lang code Htool Hcode Hne v Hbad. subst v.
    destruct Htool as [[-> ->] | [-> ->]];
      unfold E2BTools.executeTool; dispatch;
      unfold E2BTools.executePython, E2BTools.executeJavaScript; rewrite Hcode;
      (destruct code as [|c code]; [congruence|]);
      unfold try_catch at 1; unfold bind at 1; unfold E2BTools.validateCode at 1;
      destruct (SecurityValidator.validateCode (lastIndexes w) (c :: code) _)
        as [[v st] ws]; cbn [fst] in *; rewrite Hbad; cbn [negb];
      eexists; (split; [reflexivity|]); split; reflexivity.
  - intros path content Hpath Hne Hcontent v Hbad. subst v.
    unfold E2BTools.executeTool. dispatch.
    unfold E2BTools.createFile. rewrite Hpath, Hcontent.
    destruct path as [|c p]; [congruence|].
    rewrite Hbad. cbn [negb].
    eexists. split; [reflexivity|]. split; reflexivity.
  - intros path content Hpath Hne Hcontent Hok v Hbad. subst v.
    unfold E2BTools.executeTool. dispatch.
    unfold E2BTools.createFile. rewrite Hpath, Hcontent.
    destruct path as [|c p]; [congruence|].
    rewrite Hok, Hbad. cbn [negb].
    eexists. split; [reflexivity|]. split; reflexivity.
  - intros packages Hpk Hne v Hbad. subst v.
    unfold E2BTools.executeTool. dispatch.
    unfold E2BTools.installPackages. rewrite Hpk.
    destruct packages as [|p ps]; [congruence|].
    rewrite Hbad. cbn [negb].
    eexists. split; [reflexivity|]. split; reflexivity.
Qed.

End Refusals.

(* ===================================================================== *)
(** ** More on the matcher: anchors and classes *)
(* ===================================================================== *)

Section AnchorFacts.

Import Notions.

Lemma star_sound (p : N -> bool) k n s e :
  star p k n s = Some e ->
  exists u s',
    s = u ++ s' /\ forallb p u = true /\ k (n + List.length u) s' = Some e.
Proof.
  revert n. induction s as [|c s IH]; intros n H.
  - exists [], []. simpl in *. now rewrite Nat.add_0_r.
  - cbn [star] in H. destruct (p c) eqn:P.
    + destruct (star p k (S n) s) as [e'|] eqn:S1.
      * injection H as <-. destruct (IH _ S1) as (u & s' & -> & Hu & Hk).
        exists (c :: u), s'. cbn [forallb List.length app]. rewrite P, Hu.
        repeat split. now rewrite Nat.add_succ_r.
      * exists [], (c :: s). simpl. now rewrite Nat.add_0_r.
    + exists [], (c :: s). simpl. now rewrite Nat.add_0_r.
Qed.

(** The star is greedy and gives back: when some run of the class
    followed by a match of the rest exists, the star finds a match. *)
Lemma star_complete (p : N -> bool) k n u s' e :
  forallb p u = true ->
  k (n + List.length u) s' = Some e ->
  exists e', star p k n (u ++ s') = Some e'.
Proof.
  revert n. induction u as [|c u IH]; intros n Hu Hk.
  - simpl in Hk. rewrite Nat.add_0_r in Hk. cbn [app].
    destruct s' as [|d s']; cbn [star]; [eauto|].
    destruct (p d); [|eauto].
    destruct (star p k (S n) s'); eauto.
  - cbn [forallb] in Hu. apply andb_true_iff in Hu. destruct Hu as [Pc Hu].
    cbn [app star]. rewrite Pc.
    cbn [List.length] in Hk. rewrite Nat.add_succ_r in Hk.
    destruct (IH (S n) Hu Hk) as [e' ->]. eauto.
Qed.

(** What a pattern of positive classes within [ok] matches is made of
    [ok]; and a pattern that ends with the anchor of the end matches up
    to the end. *)
Lemma rx_made_of (ok : N -> bool) (at0 : bool) (r : regex) :
  made_of ok r ->
  forall k n s e,
    rx false at0 r k n s = Some e ->
    exists u s',
      s = u ++ s' /\ forallb ok u = true
      /\ k (n + List.length u) s' = Some e
      /\ (ends_at_eol r = true -> s' = []).
Proof.
  induction r as [|neg rs|r1 IH1 r2 IH2|r1 IH1 r2 IH2|neg rs|r1 IH1| |];
    intros Hm k n s e H; cbn [made_of rx ends_at_eol] in *.
  - exists [], s. simpl. rewrite Nat.add_0_r. repeat split; auto. discriminate.
  - destruct Hm as [-> Hok]. destruct s as [|c s]; [discriminate|].
    rewrite cmem_plain in H. destruct (in_ranges rs c) eqn:E; [|discriminate].
    exists [c], s. cbn [forallb List.length app]. rewrite (Hok _ E).
    rewrite Nat.add_1_r. repeat split; auto. discriminate.
  - destruct Hm as [H1 H2].
    destruct (IH1 H1 _ _ _ _ H) as (u1 & s1 & -> & Hu1 & Hk1 & _).
    destruct (IH2 H2 _ _ _ _ Hk1) as (u2 & s2 & -> & Hu2 & Hk2 & He).
    exists (u1 ++ u2), s2. rewrite forallb_app, Hu1, Hu2, length_app.
    rewrite <- app_assoc, Nat.add_assoc. repeat split; auto.
  - destruct Hm as [H1 H2].
    destruct (rx false at0 r1 k n s) as [e1|] eqn:R1.
    + injection H as <-.
      destruct (IH1 H1 _ _ _ _ R1) as (u & s' & -> & Hu & Hk & He).
      exists u, s'. repeat split; auto. intros Hb.
      apply andb_true_iff in Hb. tauto.
    + destruct (IH2 H2 _ _ _ _ H) as (u & s' & -> & Hu & Hk & He).
      exists u, s'. repeat split; auto. intros Hb.
      apply andb_true_iff in Hb. tauto.
  - destruct Hm as [-> Hok].
    destruct (star_sound _ _ _ _ H) as (u & s' & -> & Hu & Hk).
    exists u, s'. repeat split; auto; [|discriminate].
    apply forallb_forall. intros c Hc.
    rewrite forallb_forall in Hu. specialize (Hu c Hc).
    rewrite cmem_plain in Hu. auto.
  - contradiction.
  - exists [], s. simpl. rewrite Nat.add_0_r.
    destruct (at0 && (n =? 0)); [|discriminate]. repeat split; auto. discriminate.
  - destruct s; [|discriminate]. exists [], []. simpl. rewrite Nat.add_0_r.
    repeat split; auto.
Qed.

(** A pattern that starts with the anchor of the start matches nowhere
    but at index 0. *)
Lemma rx_bol_later (ic : bool) (r : regex) :
  starts_at_bol r = true ->
  forall k n s, rx ic false r k n s = None.
Proof.
  induction r as [|neg rs|r1 IH1 r2 IH2|r1 IH1 r2 IH2|neg rs|r1 IH1| |];
    intros Hb k n s; cbn [starts_at_bol rx] in *; try discriminate.
  - now apply IH1.
  - apply andb_true_iff in Hb. destruct Hb as [B1 B2].
    rewrite (IH1 B1). now apply IH2.
  - reflexivity.
Qed.

Lemma search_bol_later (ic : bool) (r : regex) (s : jsstring) :
  starts_at_bol r = true -> search ic false r s = None.
Proof.
  intros Hb. induction s as [|c s IH]; cbn [search]; unfold match_at;
    rewrite (rx_bol_later ic r Hb); [reflexivity|].
  now rewrite IH.
Qed.

Lemma test_anchored (ic : bool) (r : regex) (s : jsstring) :
  starts_at_bol r = true ->
  test ic r s = match match_at ic true r s with Some _ => true | None => false end.
Proof.
  intros Hb. unfold test. destruct s as [|c s]; cbn [search].
  - destruct (match_at ic true r []); reflexivity.
  - destruct (match_at ic true r (c :: s)); [reflexivity|].
    now rewrite (search_bol_later ic r s Hb).
Qed.

(** A text that an anchored pattern of classes within [ok] accepts is
    made of [ok] throughout. *)
Lemma test_made_of (ok : N -> bool) (r : regex) (s : jsstring) :
  made_of ok r -> starts_at_bol r = true -> ends_at_eol r = true ->
  test false r s = true -> forallb ok s = true.
Proof.
  intros Hm Hb He Ht. rewrite (test_anchored false r s Hb) in Ht.
  destruct (match_at false true r s) as [e|] eqn:E; [|discriminate].
  destruct (rx_made_of ok true r Hm _ _ _ E) as (u & s' & -> & Hu & _ & Hs').
  rewrite (Hs' He), app_nil_r. exact Hu.
Qed.

End AnchorFacts.

(* ===================================================================== *)
(** ** The names of packages *)
(* ===================================================================== *)

Section PackageFacts.

Import Notions SecurityValidator.

Lemma alnum_name (c : N) : in_ranges alnum c = true -> in_ranges name_chars c = true.
Proof.
  intros H. unfold alnum in H. ranges_prop H.
  unfold name_chars, alnum. cbn [app]. ranges_goal. lia.
Qed.

Lemma pyname_name (c : N) : in_ranges pyname c = true -> in_ranges name_chars c = true.
Proof.
  intros H. unfold pyname, alnum in H. cbn [app] in H. ranges_prop H.
  unfold name_chars, alnum. cbn [app]. ranges_goal. lia.
Qed.

Lemma npm_first_name (c : N) :
  in_ranges npm_first c = true -> in_ranges name_chars c = true.
Proof.
  intros H. unfold npm_first, alnum in H. cbn [app] in H. ranges_prop H.
  unfold name_chars, alnum. cbn [app]. ranges_goal. lia.
Qed.

Lemma npm_rest_name (c : N) :
  in_ranges npm_rest c = true -> in_ranges name_chars c = true.
Proof.
  intros H. unfold npm_rest, alnum in H. cbn [app] in H. ranges_prop H.
  unfold name_chars, alnum. cbn [app]. ranges_goal. lia.
Qed.

Lemma chr_name (a : ascii) (c : N) :
  in_ranges name_chars (N_of_ascii a) = true ->
  in_ranges [(N_of_ascii a, N_of_ascii a)] c = true ->
  in_ranges name_chars c = true.
Proof.
  intros Ha H. ranges_prop H. replace c with (N_of_ascii a) by lia. exact Ha.
Qed.

Lemma pythonPattern_made : made_of (in_ranges name_chars) pythonPattern.
Proof.
  unfold pythonPattern. cbn [seqs made_of].
  repeat split; auto using alnum_name, pyname_name.
Qed.

Lemma npmPattern_made : made_of (in_ranges name_chars) npmPattern.
Proof.
  unfold npmPattern, opt, chr. cbn [seqs made_of].
  repeat split; auto using npm_first_name, npm_rest_name;
    intros c; apply chr_name; reflexivity.
Qed.

Lemma validatePackageName_valid (name : jsstring) (lang : Language) :
  isValid (fst (validatePackageName name lang)) = true ->
  truthy name = true
  /\ (100 <? jslength name)%N = false
  /\ test false (match lang with
                 | python => pythonPattern
                 | javascript => npmPattern
                 end) name = true
  /\ existsb (fun p => test true p name) suspiciousPatterns = false.
Proof.
  unfold validatePackageName.
  destruct (negb (truthy name) || negb (truthy (trim name))) eqn:E1;
    [discriminate|].
  destruct (100 <? jslength name)%N eqn:E2; [discriminate|].
  apply orb_false_iff in E1. destruct E1 as [E1 _].
  apply negb_false_iff in E1.
  destruct lang.
  - destruct (test false pythonPattern name) eqn:E3; [|discriminate].
    cbn [negb].
    destruct (existsb _ suspiciousPatterns) eqn:E4; [discriminate|]. auto.
  - destruct (test false npmPattern name) eqn:E3; [|discriminate].
    cbn [negb].
    destruct (existsb _ suspiciousPatterns) eqn:E4; [discriminate|]. auto.
Qed.

(** X17: a package name that [validatePackageName] lets through is not
    empty, has at most 100 code units, and is made of letters, digits
    and [- . _ ~ @ /] only: it holds no quote, no backslash, no white
    space and nothing a shell or the installation script would read as
    more than a name. *)
Theorem valid_package_name_is_plain (name : jsstring) (lang : Language) :
  isValid (fst (validatePackageName name lang)) = true ->
  name <> []
  /\ (jslength name <= 100)%N
  /\ (forall c, In c name ->
        in_ranges name_chars c = true
        /\ isWhiteSpace c = false
        /\ c <> 39%N /\ c <> 34%N /\ c <> 92%N /\ c <> 59%N /\ c <> 36%N
        /\ c <> 96%N /\ c <> 38%N /\ c <> 124%N).
Proof.
  intros H. apply validatePackageName_valid in H.
  destruct H as (Ht & Hl & Hp & _).
  split; [destruct name; [discriminate | congruence]|].
  split; [apply N.ltb_ge in Hl; exact Hl|].
  assert (Hall : forallb (in_ranges name_chars) name = true).
  { destruct lang.
    - exact (@test_made_of _ _ name pythonPattern_made eq_refl eq_refl Hp).
    - exact (@test_made_of _ _ name npmPattern_made eq_refl eq_refl Hp). }
  rewrite forallb_forall in Hall. intros c Hc. specialize (Hall c Hc).
  split; [exact Hall|].
  assert (Hc' := Hall). unfold name_chars, alnum in Hc'. cbn [app] in Hc'.
  ranges_prop Hc'.
  split; [|lia].
  destruct (isWhiteSpace c) eqn:W; [|reflexivity].
  unfold isWhiteSpace, whitespace_ranges in W. ranges_prop W. lia.
Qed.

(** *** The list of packages *)

Lemma validateEach_valid (packages : list jsstring) (lang : Language) :
  isValid (fst (validateEach packages lang)) = true
  <-> Forall (fun p => isValid (fst (validatePackageName p lang)) = true)
             packages.
Proof.
  induction packages as [|p ps IH]; cbn [validateEach].
  - split; [constructor | reflexivity].
  - destruct (validatePackageName p lang) as [v ws] eqn:E.
    destruct (isValid v) eqn:V.
    + rewrite IH. split.
      * intros H. constructor; [now rewrite E | exact H].
      * intros H. now inversion H.
    + cbn [fst]. rewrite V. split; [discriminate|].
      intros H. inversion H as [|? ? H1 _]; subst. rewrite E in H1.
      cbn [fst] in H1. congruence.
Qed.

Lemma validateEach_first (good : list jsstring) (bad : jsstring)
    (rest : list jsstring) (lang : Language) :
  Forall (fun p => isValid (fst (validatePackageName p lang)) = true) good ->
  isValid (fst (validatePackageName bad lang)) = false ->
  validateEach (good ++ bad :: rest) lang = validatePackageName bad lang.
Proof.
  intros Hg Hb. induction good as [|g good IH]; cbn [app validateEach].
  - destruct (validatePackageName bad lang) as [v ws]. cbn [fst] in Hb.
    now rewrite Hb.
  - inversion Hg as [|? ? Hg1 Hg2]; subst.
    destruct (validatePackageName g lang) as [v ws]. cbn [fst] in Hg1.
    rewrite Hg1. now apply IH.
Qed.

(** X18: [validatePackages] lets a list through when, and only when, it
    has between one and fifty names and [validatePackageName] lets every
    one of them through; of a list within these bounds that holds a name
    that fails, the verdict is that of the first such name. *)
Theorem validatePackages_all_or_nothing (packages : list jsstring)
    (lang : Language) :
  (isValid (fst (validatePackages packages lang)) = true
   <-> packages <> [] /\ List.length packages <= 50
       /\ Forall (fun p => isValid (fst (validatePackageName p lang)) = true)
                 packages)
  /\ (packages = [] ->
      fst (validatePackages packages lang)
      = invalid (js "Package list cannot be empty"))
  /\ (50 < List.length packages ->
      fst (validatePackages packages lang)
      = invalid (js "Too many packages requested (maximum 50)"))
  /\ (forall good bad rest,
        packages = good ++ bad :: rest ->
        List.length packages <= 50 ->
        Forall (fun p => isValid (fst (validatePackageName p lang)) = true) good ->
        isValid (fst (validatePackageName bad lang)) = false ->
        validatePackages packages lang = validatePackageName bad lang).
Proof.
  assert (Hmany : forall l : list jsstring, 50 < List.length l ->
                    (50 <? List.length l) = true)
    by (intros l H; now apply Nat.ltb_lt).
  assert (Hfew : forall l : list jsstring, List.length l <= 50 ->
                   (50 <? List.length l) = false)
    by (intros l H; now apply Nat.ltb_ge).
  split; [|split; [|split]].
  - unfold validatePackages. destruct packages as [|p ps].
    + split; [discriminate | intros [H _]; congruence].
    + destruct (50 <? List.length (p :: ps)) eqn:E.
      * split; [discriminate|]. intros (_ & H & _).
        apply Nat.ltb_lt in E. lia.
      * rewrite validateEach_valid. apply Nat.ltb_ge in E.
        split; [intros H; repeat split; [discriminate | exact E | exact H]
               | tauto].
  - intros ->. reflexivity.
  - intros H. unfold validatePackages.
    destruct packages as [|p ps]; [simpl in H; lia|].
    now rewrite (Hmany _ H).
  - intros good bad rest -> Hlen Hg Hb. unfold validatePackages.
    rewrite (Hfew _ Hlen).
    destruct (good ++ bad :: rest) eqn:E;
      [destruct good; discriminate|].
    rewrite <- E. now apply validateEach_first.
Qed.

End PackageFacts.

Section PythonNames.

Import Notions SecurityValidator.

Lemma alnum_pyname (c : N) : in_ranges alnum c = true -> in_ranges pyname c = true.
Proof.
  intros H. unfold alnum in H. ranges_prop H.
  unfold pyname, alnum. cbn [app]. ranges_goal. lia.
Qed.

Lemma last_cons_nonempty (c d : N) (s : jsstring) :
  s <> [] -> last (c :: s) d = last s d.
Proof. destruct s; [congruence | reflexivity]. Qed.

Lemma forallb_plain (rs : list (N * N)) (u : jsstring) :
  forallb (cmem false false rs) u = forallb (in_ranges rs) u.
Proof.
  induction u as [|c u IH]; [reflexivity|].
  cbn [forallb]. now rewrite cmem_plain, IH.
Qed.

(** X19: the pattern of the names of Python packages accepts exactly the
    texts that start and end with a letter or a digit and hold nothing
    but letters, digits and [. _ -]. *)
Theorem pythonPattern_accepts_shape (s : jsstring) :
  test false pythonPattern s = python_name_shape s.
Proof.
  rewrite (@test_anchored false pythonPattern s eq_refl).
  unfold match_at, pythonPattern. cbn [seqs rx andb Nat.eqb].
  destruct s as [|c s1]; [reflexivity|].
  rewrite cmem_plain. cbn [python_name_shape].
  destruct (in_ranges alnum c) eqn:Ac; [|reflexivity]. cbn [andb].
  set (k := fun (n : nat) (s : jsstring) =>
              match s with
              | [] => None
              | c0 :: s' =>
                  if cmem false false alnum c0
                  then match s' with
                       | [] => Some (S n)
                       | _ :: _ => None
                       end
                  else None
              end).
  destruct (star (cmem false false pyname) k 1 s1) as [e|] eqn:S1.
  - symmetry.
    destruct (star_sound _ _ _ _ S1) as (u & s' & -> & Hu & Hk).
    unfold k in Hk. destruct s' as [|d [|x s'']]; try discriminate.
    + rewrite cmem_plain in Hk.
      destruct (in_ranges alnum d) eqn:Ad; [|discriminate].
      rewrite forallb_app, <- forallb_plain, Hu. cbn [forallb andb].
      rewrite (alnum_pyname _ Ad). cbn [andb].
      rewrite last_cons_nonempty by (destruct u; discriminate).
      now rewrite last_last.
    + destruct (cmem false false alnum d); discriminate.
  - destruct s1 as [|d s2]; [cbn [forallb last andb]; now rewrite Ac|].
    symmetry. apply not_true_is_false. intros H.
    apply andb_true_iff in H. destruct H as [Hall Hlast].
    rewrite last_cons_nonempty in Hlast by discriminate.
    assert (Hne : d :: s2 <> []) by discriminate.
    pose proof (app_removelast_last 0%N Hne) as Hsplit.
    rewrite Hsplit in Hall, S1. rewrite forallb_app in Hall.
    apply andb_true_iff in Hall. destruct Hall as [Hu _].
    rewrite <- forallb_plain in Hu.
    destruct (@star_complete (cmem false false pyname) k 1
                (removelast (d :: s2)) [last (d :: s2) 0%N]
                (S (1 + List.length (removelast (d :: s2)))) Hu)
      as [e' He'].
    + unfold k. rewrite cmem_plain, Hlast. reflexivity.
    + congruence.
Qed.

End PythonNames.

(* ===================================================================== *)
(** ** The content of files *)
(* ===================================================================== *)

Section ContentFacts.

Import Notions SecurityValidator.

Lemma star_total (p : N -> bool) k :
  (forall n s, k n s <> None) -> forall n s, star p k n s <> None.
Proof.
  intros Hk n s. revert n. induction s as [|c s IH]; intros n; cbn [star].
  - apply Hk.
  - destruct (p c); [|apply Hk].
    destruct (star p k (S n) s); [discriminate | apply Hk].
Qed.

Lemma times_exact (ic neg : bool) (rs : list (N * N)) (u t : jsstring) :
  forallb (cmem ic neg rs) u = true ->
  Mask.times ic neg rs (List.length u) (u ++ t) = true.
Proof.
  induction u as [|c u IH]; [reflexivity|].
  cbn [forallb List.length app Mask.times]. intros H.
  apply andb_true_iff in H. destruct H as [-> H]. now apply IH.
Qed.

Lemma search_finds (ic : bool) (r : regex) (s : jsstring) :
  (forall at0, match_at ic at0 r s <> None) ->
  forall pre at0, search ic at0 r (pre ++ s) <> None.
Proof.
  intros Hs pre. induction pre as [|c pre IH]; intros at0.
  - cbn [app]. destruct s as [|c s]; cbn [search];
      specialize (Hs at0); destruct (match_at ic at0 r _);
      (discriminate || contradiction).
  - cbn [app search]. destruct (match_at ic at0 r (c :: pre ++ s));
      [discriminate|].
    specialize (IH false). destruct (search ic false r (pre ++ s)) as [[o l]|];
      [discriminate | contradiction].
Qed.

Lemma base64_run_matches (token post : jsstring) (at0 : bool) :
  List.length token = 32 ->
  forallb (in_ranges base64) token = true ->
  match_at false at0
    (seqs [ rep 32 (Chars false base64); Star false base64;
            opt (Seq (chr "=") (opt (chr "="))) ])
    (token ++ post) <> None.
Proof.
  intros Hlen Hall. unfold match_at.
  rewrite rx_seqs_cons, rx_times. rewrite <- Hlen at 1.
  rewrite times_exact by (now rewrite forallb_plain).
  rewrite rx_seqs_cons. cbn [rx seqs]. apply star_total.
  intros n s. unfold opt. cbn [rx].
  match goal with |- match ?x with _ => _ end <> None => destruct x end;
    discriminate.
Qed.

(** X20: [validateFileContent] refuses, as a potential secret, every
    content within the size limit that holds 32 letters, digits, [+] or
    [/] in a row, wherever they are. *)
Theorem validateFileContent_refuses_long_tokens (pre token post : jsstring) :
  List.length token = 32 ->
  forallb (in_ranges base64) token = true ->
  (byteLength (pre ++ token ++ post) <= MAX_FILE_SIZE)%N ->
  validateFileContent (pre ++ token ++ post)
  = (invalid (js "File content contains potential secrets"), [SecretInFile]).
Proof.
  intros Hlen Hall Hsize. unfold validateFileContent.
  apply N.ltb_ge in Hsize. rewrite Hsize.
  unfold secretPatterns. cbn [existsb fst snd].
  assert (Ht : test false
                 (seqs [ rep 32 (Chars false base64); Star false base64;
                         opt (Seq (chr "=") (opt (chr "="))) ])
                 (pre ++ token ++ post) = true).
  { unfold test.
    pose proof (@search_finds false _ (token ++ post)
                  (fun at0 => @base64_run_matches token post at0 Hlen Hall)
                  pre true) as H.
    destruct (search false true _ (pre ++ token ++ post)); [reflexivity|].
    contradiction. }
  rewrite Ht. rewrite orb_true_r. reflexivity.
Qed.

(** *** The size of the encoding *)

Lemma byteLength_bounds_upto (n : nat) :
  forall s : jsstring,
    List.length s <= n ->
    (jslength s <= byteLength s <= 3 * jslength s)%N.
Proof.
  unfold jslength.
  induction n as [|n IH]; intros s Hs.
  - destruct s; [simpl; lia | simpl in Hs; lia].
  - destruct s as [|c s]; [simpl; lia|].
    cbn [List.length] in Hs.
    assert (H1 := IH s ltac:(lia)).
    cbn [byteLength List.length].
    destruct (c <? 128)%N; [lia|].
    destruct (c <? 2048)%N; [lia|].
    destruct (isHighSurrogate c); [|lia].
    destruct s as [|d s]; [simpl; lia|].
    destruct (isLowSurrogate d); [|lia].
    cbn [List.length] in *.
    assert (H2 := IH s ltac:(lia)). lia.
Qed.

(** X21: the encoding of a text takes at least one byte and at most three
    bytes for each code unit; so content of more than 10 Mi code units
    is always refused for its size, and content of at most a third of
    that never is. *)
Theorem validateFileContent_size_by_length (content : jsstring) :
  (jslength content <= byteLength content <= 3 * jslength content)%N
  /\ ((MAX_FILE_SIZE < jslength content)%N ->
      validateFileContent content
      = (invalid (js "File content exceeds maximum size of "
                  ++ N_toString MAX_FILE_SIZE ++ js " bytes"), []))
  /\ ((3 * jslength content <= MAX_FILE_SIZE)%N ->
      validateFileContent content = (valid, [])
      \/ validateFileContent content
         = (invalid (js "File content contains potential secrets"),
            [SecretInFile])).
Proof.
  pose proof (@byteLength_bounds_upto (List.length content) content (le_n _))
    as Hb.
  split; [exact Hb|]. unfold validateFileContent. split.
  - intros H. assert (E : (MAX_FILE_SIZE <? byteLength content)%N = true)
      by (apply N.ltb_lt; lia).
    now rewrite E.
  - intros H. assert (E : (MAX_FILE_SIZE <? byteLength content)%N = false)
      by (apply N.ltb_ge; lia).
    rewrite E. destruct (existsb _ secretPatterns); auto.
Qed.

End ContentFacts.

(* ===================================================================== *)
(** ** The output *)
(* ===================================================================== *)

Section OutputFacts.

Import Notions.

(** X22: [truncateOutput] leaves an output of at most 10,000 code units as
    it is; of a longer one it keeps the first 10,000 code units and adds
    the mark of truncation, so that what it returns never has more than
    10,023 code units. *)
Theorem truncateOutput_bounds (output : jsstring) :
  ((jslength output <= MAX_OUTPUT_LENGTH)%N ->
   E2BTools.truncateOutput output = output)
  /\ ((MAX_OUTPUT_LENGTH < jslength output)%N ->
      E2BTools.truncateOutput output
      = firstn (N.to_nat MAX_OUTPUT_LENGTH) output ++ truncation_mark)
  /\ (jslength (E2BTools.truncateOutput output)
      <= MAX_OUTPUT_LENGTH + jslength truncation_mark)%N
  /\ jslength truncation_mark = 23%N
  /\ firstn (N.to_nat MAX_OUTPUT_LENGTH) (E2BTools.truncateOutput output)
     = firstn (N.to_nat MAX_OUTPUT_LENGTH) output.
Proof.
  unfold E2BTools.truncateOutput, substring0.
  fold truncation_mark.
  assert (Hmark : jslength truncation_mark = 23%N) by reflexivity.
  destruct (MAX_OUTPUT_LENGTH <? jslength output)%N eqn:E.
  - apply N.ltb_lt in E.
    assert (Hlen : List.length (firstn (N.to_nat MAX_OUTPUT_LENGTH) output)
                   = N.to_nat MAX_OUTPUT_LENGTH).
    { apply firstn_length_le. unfold jslength in E. lia. }
    repeat split; auto.
    + intros H. lia.
    + unfold jslength in *. rewrite length_app, Hlen. lia.
    + rewrite <- Hlen at 1. rewrite firstn_app, Hlen, Nat.sub_diag.
      cbn [firstn]. rewrite app_nil_r. rewrite <- Hlen at 1.
      apply firstn_all.
  - apply N.ltb_ge in E. repeat split; auto.
    + intros H. lia.
    + lia.
Qed.

End OutputFacts.

(* ===================================================================== *)
(** ** What the sanitizer leaves *)
(* ===================================================================== *)

Section SanitizedFacts.

Import Mask.

Lemma sanitizeOutput_settled (x : jsstring) (r : rule) :
  In r rules -> everywhere (settled_at r) (SecurityValidator.sanitizeOutput x).
Proof.
  intros Hr. rewrite sanitizeOutput_scans.
  set (z := scan rule_ansi x).
  assert (Hsk : In rule_sk rules) by (cbn; tauto).
  assert (Hghp : In rule_ghp rules) by (cbn; tauto).
  assert (Hpw : In rule_password rules) by (cbn; tauto).
  assert (Hapi : In rule_api_key rules) by (cbn; tauto).
  assert (Hall : forall r, In r rules -> In r (rule_ansi :: rules))
    by (intros r0 Hr0; now right).
  each_rule Hr.
  - apply scan_settled; auto. apply scan_settled; auto.
    apply scan_settled; auto. now apply scan_settles.
  - apply scan_settled; auto. apply scan_settled; auto.
    now apply scan_settles.
  - apply scan_settled; auto. now apply scan_settles.
  - now apply scan_settles.
Qed.

Lemma search_nowhere (ic : bool) (r : regex) (s : jsstring) :
  everywhere (fun t => forall at0, match_at ic at0 r t = None) s ->
  forall at0, search ic at0 r s = None.
Proof.
  induction s as [|c s IH]; intros H at0; cbn [search].
  - now rewrite (@everywhere_head _ _ H at0).
  - rewrite (@everywhere_head _ _ H at0).
    now rewrite (IH (@everywhere_tail _ _ _ H) false).
Qed.

Lemma everywhere_impl (P Q : jsstring -> Prop) (s : jsstring) :
  (forall t, P t -> Q t) -> everywhere P s -> everywhere Q s.
Proof.
  intros HPQ. induction s as [|c s IH]; simpl; intros [H1 H2].
  - split; auto.
  - split; auto.
Qed.

(** X23: whatever the output, a match of a masking pattern in the
    sanitized output is a mark of that pattern; and no key of the forms
    [sk-] and 48 letters or digits and [ghp_] and 36 letters or digits
    is left anywhere in it. *)
Theorem sanitizeOutput_hides_every_secret (x : jsstring) :
  let y := SecurityValidator.sanitizeOutput x in
  (forall p pre post at0,
      In p SecurityValidator.maskPatterns ->
      y = pre ++ post ->
      match_at (fst (fst p)) at0 (snd (fst p)) post <> None ->
      exists rest, post = snd p ++ rest)
  /\ test false (Seq (lit "sk-") (rep 48 (Chars false alnum))) y = false
  /\ test false (Seq (lit "ghp_") (rep 36 (Chars false alnum))) y = false.
Proof.
  intros y.
  assert (Hsk : In rule_sk rules) by (cbn; tauto).
  assert (Hghp : In rule_ghp rules) by (cbn; tauto).
  assert (Hpw : In rule_password rules) by (cbn; tauto).
  assert (Hapi : In rule_api_key rules) by (cbn; tauto).
  split; [|split].
  - intros p pre post at0 Hp Hy Hm.
    assert (Hgen : forall r, In r rules -> rule_at r post <> None ->
                     exists rest, post = rule_mark r ++ rest).
    { intros r Hr Hat.
      pose proof (@sanitizeOutput_settled x r Hr) as H. fold y in H.
      rewrite Hy in H. apply everywhere_suffix, everywhere_head in H.
      destruct H as [H | [_ H]]; [contradiction | exact H]. }
    unfold SecurityValidator.maskPatterns in Hp.
    destruct Hp as [<- | [<- | [<- | [<- | []]]]]; cbn [fst snd] in *.
    + rewrite match_keyed in Hm. exact (Hgen rule_sk Hsk Hm).
    + rewrite match_keyed in Hm. exact (Hgen rule_ghp Hghp Hm).
    + rewrite match_labelled in Hm. exact (Hgen rule_password Hpw Hm).
    + rewrite match_labelled in Hm. exact (Hgen rule_api_key Hapi Hm).
  - unfold test. rewrite search_nowhere; [reflexivity|].
    apply (@everywhere_impl (settled_at rule_sk)).
    + intros t [H | [_ [rest ->]]] at0; rewrite match_keyed;
        [exact H | reflexivity].
    + now apply sanitizeOutput_settled.
  - unfold test. rewrite search_nowhere; [reflexivity|].
    apply (@everywhere_impl (settled_at rule_ghp)).
    + intros t [H | [_ [rest ->]]] at0; rewrite match_keyed;
        [exact H | reflexivity].
    + now apply sanitizeOutput_settled.
Qed.

(** *** The escape sequences *)

Lemma run_exact (ic neg : bool) (rs : list (N * N)) (u : jsstring) (c : N)
    (t : jsstring) :
  forallb (cmem ic neg rs) u = true ->
  cmem ic neg rs c = false ->
  run ic neg rs (u ++ c :: t) = List.length u.
Proof.
  intros Hu Hc. induction u as [|d u IH]; cbn [app run List.length].
  - now rewrite Hc.
  - cbn [forallb] in Hu. apply andb_true_iff in Hu. destruct Hu as [-> Hu].
    now rewrite IH.
Qed.

Lemma scan_without_escape (a s : jsstring) :
  ~ In 27%N a -> scan rule_ansi (a ++ s) = a ++ scan rule_ansi s.
Proof.
  induction a as [|c a IH]; intros Ha; [reflexivity|].
  cbn [app]. rewrite scan_keep.
  - f_equal. apply IH. intros H. apply Ha. now right.
  - cbn [rule_at rule_ansi]. unfold ansi_at.
    destruct (cmem false false [(27, 27)%N] c) eqn:E; [|reflexivity].
    exfalso. apply Ha. left. rewrite cmem_plain in E. ranges_prop E. lia.
Qed.

Lemma ansi_sequence (params : jsstring) (final : N) (b : jsstring) :
  forallb (in_ranges [(48, 57); (59, 59)]%N) params = true ->
  in_ranges [(97, 122); (65, 90)]%N final = true ->
  ansi_at (([27; 91]%N ++ params ++ [final]) ++ b)
  = Some (List.length ([27; 91]%N ++ params ++ [final])).
Proof.
  intros Hp Hf. cbn [app ansi_at].
  change (cmem false false [(27, 27)%N] 27) with true.
  change (cmem false false [(91, 91)%N] 91) with true. cbv iota.
  rewrite <- !app_assoc. cbn [app].
  assert (Hnot : cmem false false [(48, 57); (59, 59)]%N final = false).
  { rewrite cmem_plain. destruct (in_ranges [(48, 57); (59, 59)]%N final) eqn:E;
      [|reflexivity].
    ranges_prop E. ranges_prop Hf. lia. }
  assert (Hall : forallb (cmem false false [(48, 57); (59, 59)]%N) params = true).
  { rewrite <- Hp. clear. induction params as [|c u IH]; [reflexivity|].
    cbn [forallb]. now rewrite cmem_plain, IH. }
  rewrite (@run_exact _ _ _ params final b Hall Hnot).
  rewrite skipn_length_app. rewrite cmem_plain, Hf.
  cbn [List.length]. rewrite length_app. reflexivity.
Qed.

(** X24: an escape sequence ([ESC], a bracket, digits and semicolons, a
    letter) that follows a text without [ESC] is removed by
    [sanitizeOutput] before any masking: the output is sanitized as if
    the sequence were not there, so that a secret cut in two by a colour
    code is masked like any other. *)
Theorem sanitizeOutput_removes_escape_sequence
    (a params : jsstring) (final : N) (b : jsstring) :
  ~ In 27%N a ->
  forallb (in_ranges [(48, 57); (59, 59)]%N) params = true ->
  in_ranges [(97, 122); (65, 90)]%N final = true ->
  stripAnsi (a ++ [27; 91]%N ++ params ++ [final] ++ b) = a ++ stripAnsi b
  /\ SecurityValidator.sanitizeOutput (a ++ [27; 91]%N ++ params ++ [final] ++ b)
     = SecurityValidator.sanitizeOutput (a ++ b).
Proof.
  intros Ha Hp Hf.
  assert (E : scan rule_ansi (a ++ [27; 91]%N ++ params ++ [final] ++ b)
              = a ++ scan rule_ansi b).
  { rewrite scan_without_escape by exact Ha. f_equal.
    replace ([27; 91]%N ++ params ++ [final] ++ b)
      with (([27; 91]%N ++ params ++ [final]) ++ b)
      by (now rewrite <- !app_assoc).
    rewrite scan_hide; [reflexivity | discriminate |].
    cbn [rule_at rule_ansi]. now apply ansi_sequence. }
  split.
  - rewrite !strip_scan. exact E.
  - rewrite !sanitizeOutput_scans, E.
    now rewrite (@scan_without_escape a b Ha).
Qed.

End SanitizedFacts.

(* ===================================================================== *)
(** ** The theorems above, at work on examples *)
(* ===================================================================== *)

Lemma two_handles_well_formed : Notions.well_formed (sandboxes Demo.two_handles).
Proof.
  split.
  - cbv. constructor; [intros [H | []]; discriminate H|].
    constructor; [intros [] | constructor].
  - repeat constructor.
Qed.

Lemma registry_stays_well_formed_witness :
  Notions.well_formed
    (sandboxes (snd (SandboxService.getOrCreateSandbox Demo.quiet python
                       (Some (js "js-1")) Demo.two_handles)))
  /\ Notions.well_formed
       (sandboxes (snd (SandboxService.cleanupIdleSandboxes Demo.quiet
                          Demo.two_handles))).
Proof.
  pose proof (@registry_stays_well_formed Demo.quiet Demo.two_handles
                two_handles_well_formed) as H.
  split; [apply H | apply H].
Defined.

Lemma cleanupIdleSandboxes_sweeps_witness :
  let r := SandboxService.cleanupIdleSandboxes Faults.later Faults.one_idle in
  Map.keys (sandboxes (snd r)) = [js "py-1"]
  /\ calls (snd r) = [SandboxKill 7]
  /\ clockReads (snd r) = 1.
Proof.
  assert (Hnd : NoDup (Map.keys (sandboxes Faults.one_idle))).
  { cbv. constructor; [intros [H | []]; discriminate H|].
    constructor; [intros [] | constructor]. }
  destruct (@cleanupIdleSandboxes_sweeps Faults.later Faults.one_idle Hnd)
    as (_ & Hreg & Hcalls & _ & Hreads & _).
  cbv zeta. rewrite Hreg, Hcalls, Hreads. repeat split; reflexivity.
Defined.

Lemma createSandbox_then_getSandbox_witness :
  exists h w2,
    SandboxService.getSandbox Demo.quiet (js "sandbox-0")
      (snd (SandboxService.createSandbox Demo.quiet python Demo.start))
    = (Returned (Some h), w2)
    /\ id h = js "sandbox-0"
    /\ language h = python
    /\ remote_create Demo.quiet (calls Demo.start) = inr (sandbox h)
    /\ (createdAt h <= lastUsed h)%Z
    /\ Map.get (js "sandbox-0") (sandboxes w2) = Some h
    /\ calls w2 = calls Demo.start ++ [SandboxCreate].
Proof.
  apply (@createSandbox_then_getSandbox Demo.quiet python Demo.start).
  - intros i j Hij. unfold Demo.quiet, Demo.provider, clock. lia.
  - reflexivity.
Defined.

Lemma createSandbox_failure_witness :
  exists e,
    remote_create (Faults.unreachable Faults.timeout) (calls Demo.start) = inl e
    /\ ErrorObj (js "Failed to create sandbox: request timed out")
       = ErrorObj (js "Failed to create sandbox: "
                   ++ messageOr (js "Unknown error") e)
    /\ sandboxes (record SandboxCreate Demo.start) = sandboxes Demo.start
    /\ uuidsMade (record SandboxCreate Demo.start) = uuidsMade Demo.start
    /\ calls (record SandboxCreate Demo.start)
       = calls Demo.start ++ [SandboxCreate].
Proof.
  apply (@createSandbox_failure (Faults.unreachable Faults.timeout) python
           Demo.start).
  reflexivity.
Defined.

Lemma getOrCreateSandbox_result_witness :
  match SandboxService.getOrCreateSandbox Demo.quiet python (Some (js "js-1"))
          Demo.two_handles with
  | (Returned h, w') =>
      language h = python /\ Map.get (id h) (sandboxes w') = Some h
  | (Threw thrown, w') =>
      ~ Notions.has_language python (sandboxes Demo.two_handles)
      /\ exists e, remote_create Demo.quiet (calls Demo.two_handles) = inl e
                   /\ thrown = ErrorObj (js "Failed to create sandbox: "
                                         ++ messageOr (js "Unknown error") e)
  end.
Proof.
  apply (@getOrCreateSandbox_result Demo.quiet python (Some (js "js-1"))
           Demo.two_handles).
  exact two_handles_well_formed.
Defined.

Lemma executeTool_unknown_tool_witness :
  E2BTools.executeTool Demo.quiet (js "delete_everything")
    (mkArgs None None None None None python) Demo.two_handles
  = (Returned (mkResult (js "Error: Unknown tool: delete_everything") true),
     Demo.two_handles).
Proof.
  apply (@executeTool_unknown_tool Demo.quiet (js "delete_everything")).
  cbv. intros H.
  repeat (destruct H as [H | H]; [discriminate H|]). exact H.
Defined.

Lemma execute_provider_failure_witness :
  exists w3,
    E2BTools.executeTool (Faults.creates_only Faults.timeout)
      (js "execute_javascript")
      (mkArgs (Some (js "1+1")) None None None None python) Demo.start
    = (Returned
         (mkResult
            (js "Execution failed after 1ms" ++ nl
             ++ js "Sandbox ID: sandbox-0" ++ nl ++ nl
             ++ js "Error: request timed out")
            true),
       w3)
    /\ Map.keys (sandboxes w3) = [js "sandbox-0"]
    /\ calls w3 = [SandboxCreate; RunCode 0 (js "1+1") (Some javascript)].
Proof.
  destruct (@execute_provider_failure (Faults.creates_only Faults.timeout)
              Demo.start
              (mkArgs (Some (js "1+1")) None None None None python)
              (js "1+1") (js "execute_javascript") javascript (Some javascript)
              valid
              (snd (E2BTools.validateCode (js "1+1") javascript Demo.start))
              (mkSandboxManager (js "sandbox-0") 0 1000 1002 javascript)
              (snd (SandboxService.getOrCreateSandbox
                      (Faults.creates_only Faults.timeout) javascript None
                      (snd (E2BTools.validateCode (js "1+1") javascript
                              Demo.start))))
              Faults.timeout)
    as (w3 & E & Hs & Hc).
  - right. repeat split.
  - reflexivity.
  - discriminate.
  - vm_compute. reflexivity.
  - reflexivity.
  - vm_compute. reflexivity.
  - reflexivity.
  - exists w3. split; [exact E|]. rewrite Hs, Hc. split; vm_compute; reflexivity.
Defined.

Lemma file_tools_provider_failure_witness :
  E2BTools.executeTool (Faults.creates_only NonError) (js "read_file")
    (mkArgs None None (Some (js "notes.txt")) None None python) Demo.start
  = (Returned (mkResult (js "Error: Unknown error occurred") true),
     record (FilesRead 0 (js "notes.txt"))
       (snd (SandboxService.getOrCreateSandbox (Faults.creates_only NonError)
               python None Demo.start))).
Proof.
  refine (proj1 (@file_tools_provider_failure (Faults.creates_only NonError)
                   Demo.start _
                   (mkArgs None None (Some (js "notes.txt")) None None python)
                   (mkSandboxManager (js "sandbox-0") 0 1000 1002 python)
                   NonError _) (js "notes.txt") _ _ _).
  - vm_compute. reflexivity.
  - reflexivity.
  - discriminate.
  - reflexivity.
Defined.

Lemma sandbox_creation_failure_reported_witness :
  exists w',
    E2BTools.executeTool (Faults.unreachable Faults.timeout) (js "list_files")
      (mkArgs None None None None None python) Faults.only_js
    = (Returned
         (mkResult
            (js "Error: Failed to create sandbox: "
             ++ messageOr (js "Unknown error") Faults.timeout) true), w')
    /\ Map.keys (sandboxes w') = Map.keys (sandboxes Faults.only_js)
    /\ calls w' = calls Faults.only_js ++ [SandboxCreate].
Proof.
  apply (@sandbox_creation_failure_reported (Faults.unreachable Faults.timeout)
           Faults.only_js
           (mkArgs None None None None None python)
           Faults.timeout).
  - intros (kv & [<- | []] & H). discriminate H.
  - reflexivity.
  - now right.
Defined.

Lemma installPackages_runs_script_witness :
  E2BTools.executeTool Demo.quiet (js "install_packages")
    (mkArgs None None None None (Some [js "numpy"; js "requests"]) python)
    Demo.start
  = (Returned
       (mkResult
          (js "Package installation completed" ++ nl
           ++ js "Sandbox ID: sandbox-0" ++ nl
           ++ js "Packages: numpy, requests" ++ nl
           ++ js "Language: python" ++ nl ++ nl
           ++ js "Output:" ++ nl ++ js "ok" ++ nl)
          false),
     record (RunCode 0
               (E2BTools.installCommand [js "numpy"; js "requests"] python)
               (Some python))
       (snd (SandboxService.getOrCreateSandbox Demo.quiet python None
               Demo.start))).
Proof.
  apply (@installPackages_runs_script Demo.quiet Demo.start
           (snd (SandboxService.getOrCreateSandbox Demo.quiet python None
                   Demo.start))
           (mkArgs None None None None (Some [js "numpy"; js "requests"]) python)
           [js "numpy"; js "requests"]
           (mkSandboxManager (js "sandbox-0") 0 1000 1002 python)
           (Demo.printed (js "ok"))).
  - reflexivity.
  - discriminate.
  - vm_compute. reflexivity.
  - vm_compute. reflexivity.
  - reflexivity.
Defined.

Lemma valid_package_name_is_plain_witness :
  js "@types/node" <> []
  /\ (jslength (js "@types/node") <= 100)%N
  /\ (forall c, In c (js "@types/node") ->
        in_ranges Notions.name_chars c = true
        /\ isWhiteSpace c = false
        /\ c <> 39%N /\ c <> 34%N /\ c <> 92%N /\ c <> 59%N /\ c <> 36%N
        /\ c <> 96%N /\ c <> 38%N /\ c <> 124%N).
Proof.
  apply (@valid_package_name_is_plain (js "@types/node") javascript).
  vm_compute. reflexivity.
Defined.

Lemma validateFileContent_refuses_long_tokens_witness :
  SecurityValidator.validateFileContent
    (js "checksum: " ++ Faults.token ++ js " (md5)")
  = (invalid (js "File content contains potential secrets"), [SecretInFile]).
Proof.
  apply (@validateFileContent_refuses_long_tokens (js "checksum: ") Faults.token
           (js " (md5)")).
  - reflexivity.
  - vm_compute. reflexivity.
  - vm_compute. discriminate.
Defined.

Lemma sanitizeOutput_removes_escape_sequence_witness :
  Mask.stripAnsi (js "sk-abc" ++ [27; 91]%N ++ js "1;31" ++ [109%N] ++ js "def")
  = js "sk-abc" ++ Mask.stripAnsi (js "def")
  /\ SecurityValidator.sanitizeOutput
       (js "sk-abc" ++ [27; 91]%N ++ js "1;31" ++ [109%N] ++ js "def")
     = SecurityValidator.sanitizeOutput (js "sk-abc" ++ js "def").
Proof.
  apply (@sanitizeOutput_removes_escape_sequence (js "sk-abc") (js "1;31")
           109%N (js "def")).
  - vm_compute. intros H.
    repeat (destruct H as [H | H]; [discriminate H|]). exact H.
  - vm_compute. reflexivity.
  - vm_compute. reflexivity.
Defined.

Lemma executeJavaScript_truncates_only_witness :
  fst (E2BTools.executeTool (Demo.provider (Demo.printed Demo.a_key)
                                           (fun _ => None))
         (js "execute_javascript")
         (mkArgs (Some (js "console.log(key)")) None None None None python)
         Demo.start)
  = Returned
      (mkResult
         (js "Execution completed in 1ms" ++ nl ++ js "Sandbox ID: sandbox-0"
          ++ nl ++ nl ++ js "Output:" ++ nl ++ Demo.a_key ++ nl)
         false).
Proof.
  etransitivity.
  - eapply (@executeJavaScript_truncates_only
              (Demo.provider (Demo.printed Demo.a_key) (fun _ => None))
              Demo.start _ (js "console.log(key)")).
    + reflexivity.
    + vm_compute. discriminate.
    + vm_compute. reflexivity.
    + reflexivity.
    + vm_compute. reflexivity.
    + vm_compute. reflexivity.
  - vm_compute. reflexivity.
Defined.

(* ===================================================================== *)
(** ** Where the output leaves the gateway unsanitized *)
(* ===================================================================== *)

(** C1: the text a code-execution tool returns is not always sanitized
    output.  [execute_javascript] returns a key that the run printed as
    it is, where [execute_python] masks it: the JavaScript path has no
    call of [sanitizeOutput].  And [execute_python], which truncates
    before it sanitizes, returns all but the last character of a key
    that the limit of 10,000 code units cuts, where sanitizing the full
    output before truncating returns none of it. *)
Theorem execute_tools_return_unsanitized_secrets :
  let provider (out : jsstring) :=
    Demo.provider (Demo.printed out) (fun _ => None) in
  let run (tool code out : jsstring) :=
    E2BTools.executeTool (provider out) tool
      (mkArgs (Some code) None None None None python) Demo.start in
  let key_js :=
    run (js "execute_javascript") (js "console.log(key)") Demo.a_key in
  let key_py := run (js "execute_python") (js "print(key)") Demo.a_key in
  let cut_py := run (js "execute_python") (js "print(key)") Faults.cut_key in
  let combined := fst (E2BTools.collectOutput (Demo.printed Faults.cut_key)) in
  let sanitized_first :=
    E2BTools.truncateOutput (SecurityValidator.sanitizeOutput combined) in
  (Demo.returnedError key_js = false
   /\ includes Demo.a_key (Demo.returnedText key_js) = true
   /\ includes Demo.a_key
        (SecurityValidator.sanitizeOutput (Demo.returnedText key_js)) = false
   /\ Demo.returnedError key_py = false
   /\ includes Demo.a_key (Demo.returnedText key_py) = false
   /\ includes (js "sk-***HIDDEN***") (Demo.returnedText key_py) = true)
  /\ (Demo.returnedError cut_py = false
      /\ (MAX_OUTPUT_LENGTH < jslength combined)%N
      /\ includes (firstn 50 Demo.a_key) (Demo.returnedText cut_py) = true
      /\ includes (js "sk-") sanitized_first = true
      /\ includes (js "sk-a") sanitized_first = false
      /\ jseqb (Demo.returnedText cut_py)
               (E2BTools.completedText 1 (js "sandbox-0") sanitized_first)
         = false).
Proof. vm_compute. repeat split. Qed.

(** C3: the first step of [sanitizeOutput], which is to remove the
    escape sequences, leaves one behind: of [ESC ESC [ 0 m [ 0 m] it
    returns [ESC [ 0 m], which its own pattern matches; so the sanitized
    output still holds an escape sequence, and sanitizing it again
    changes it. *)
Theorem sanitizeOutput_leaves_escape_sequence :
  let x := [27; 27]%N ++ js "[0m[0m" in
  Mask.stripAnsi x = [27%N] ++ js "[0m"
  /\ test false SecurityValidator.ansiEscapePattern (Mask.stripAnsi x) = true
  /\ SecurityValidator.sanitizeOutput x = [27%N] ++ js "[0m"
  /\ test false SecurityValidator.ansiEscapePattern
       (SecurityValidator.sanitizeOutput x) = true
  /\ SecurityValidator.sanitizeOutput (SecurityValidator.sanitizeOutput x) = []
  /\ SecurityValidator.sanitizeOutput (SecurityValidator.sanitizeOutput x)
     <> SecurityValidator.sanitizeOutput x.
Proof. vm_compute. repeat split. discriminate. Qed.
